(** * Book Notes: a shallow embedding of the two Express servers

    The repository holds two entry points over the same Postgres database:

    - [src/index.js], the server without accounts: every route is public and
      the book statements filter on the book identifier alone;
    - the session-authenticated server (passport local strategy, bcrypt,
      express-session), whose book statements also filter on [user_id].

    Both are embedded here as functions over an in-memory image of the
    [users] and [books] tables.  Everything the servers obtain from
    collaborators outside the repository (the Postgres input functions for
    integers and dates, its [LOWER] and its text collation, bcrypt, the
    Open Library HTTP endpoint) is gathered in a record [Env] and stays
    abstract in every general statement.

    Not modelled: what the handlers write with [console.log], the markup
    the views render, response timing, and requests that overlap in
    time. *)

From Stdlib Require Import ZArith QArith List String Ascii Lia.
From Stdlib Require Import Sorting.Sorted Sorting.Permutation.
From Stdlib Require Import Classes.RelationClasses.
Import ListNotations.

Local Open Scope string_scope.
Local Open Scope Z_scope.

Set Implicit Arguments.
Local Set Warnings "-register-all".

(* ===================================================================== *)
(** ** JavaScript values                                                  *)
(* ===================================================================== *)

(** Values that reach the handlers: form fields parsed by
    [bodyParser.urlencoded({extended: true})] (strings, arrays, nested
    objects, or nothing at all), query-string fields, and the JSON document
    returned by Open Library.  A finite JavaScript number is a rational; an
    integer is written with denominator 1. *)
Inductive jsval : Type :=
| JUndefined
| JNull
| JBool (b : bool)
| JNum (q : Q)
| JStr (s : string)
| JArr (items : list jsval)
| JObj (props : list (string * jsval)).

(** ToBoolean. *)
Definition truthy (v : jsval) : bool :=
  match v with
  | JUndefined | JNull => false
  | JBool b => b
  | JNum q => negb (Qnum q =? 0)
  | JStr s => negb (s =? EmptyString)%string
  | JArr _ | JObj _ => true
  end.

(** [a || b]. *)
Definition js_or (a b : jsval) : jsval := if truthy a then a else b.

(** [!v]. *)
Definition js_not (v : jsval) : bool := negb (truthy v).

(** [a === "literal"]. *)
Definition js_eq_str (v : jsval) (lit : string) : bool :=
  match v with
  | JStr s => (s =? lit)%string
  | _ => false
  end.

(** Own-property lookup in an object literal; a later duplicate key wins, as
    in [JSON.parse]. *)
Fixpoint obj_get (props : list (string * jsval)) (k : string) : jsval :=
  match props with
  | [] => JUndefined
  | (k', v) :: rest =>
      match obj_get rest k with
      | JUndefined => if (k' =? k)%string then v else JUndefined
      | later => later
      end
  end.

(** [v[k]] for the keys the servers use (["ISBN:..."], ["cover"],
    ["medium"], ["large"]), none of which is an index, ["length"] or a
    property of a built-in prototype.  [None] is the [TypeError] raised on
    [undefined] and [null]. *)
Definition js_get (v : jsval) (k : string) : option jsval :=
  match v with
  | JUndefined | JNull => None
  | JObj props => Some (obj_get props k)
  | _ => Some JUndefined
  end.

(** [v?.k]. *)
Definition js_opt_get (v : jsval) (k : string) : jsval :=
  match js_get v k with
  | Some x => x
  | None => JUndefined
  end.

(** Destructuring [const { k } = req.body]. *)
Definition field (body : list (string * jsval)) (k : string) : jsval :=
  obj_get body k.

(* ===================================================================== *)
(** ** Tables                                                             *)
(* ===================================================================== *)

Module Book.
(** A row of [books].  [finished_on] is a Postgres [DATE], i.e. a day
    number.  [cover_url] is never written by either server.  The
    [created_at] column (default [NOW()]) is neither read nor written by
    any statement and is left out. *)
Record t : Type := mk {
  id : Z;
  user_id : option Z;
  title : string;
  author : option string;
  isbn : option string;
  cover_url : option string;
  rating : option Z;
  finished_on : option Z;
  notes : option string
}.
End Book.

Module User.
(** Modelled from the spec: the [users] table is created outside [src/];
    the spec gives [users(id, email unique, password_hash)] and the code
    reads the hash from the column [password]. *)
Record t : Type := mk {
  id : Z;
  email : string;
  password : string
}.
End User.

(** What [deserializeUser] and the verify callback hand to passport:
    [{ id, email }]. *)
Record SessionUser : Type := mkSessionUser {
  su_id : Z;
  su_email : string
}.

Record Db : Type := mkDb {
  users : list User.t;
  books : list Book.t;
  users_id_seq : Z;
  books_id_seq : Z
}.

(* ===================================================================== *)
(** ** Collaborators outside the repository                               *)
(* ===================================================================== *)

(** What [axios.get] does: it resolves with the parsed body in [data], or
    rejects (timeout, network error, error status). *)
Inductive AxiosOutcome : Type :=
| AxiosData (data : jsval)
| AxiosError (message : string).

Record Env : Type := mkEnv {
  (** Postgres reading an [INT] from parameter text; [None] is
      "invalid input syntax". *)
  int4in : string -> option Z;
  (** Postgres reading a [DATE] from parameter text. *)
  date_in : string -> option Z;
  (** The text node-postgres sends for a number, boolean, array or
      object parameter. *)
  pg_text : jsval -> string;
  (** The SQL function [LOWER] on [text]: which characters it folds is
      decided by the locale the database was created with. *)
  LOWER : string -> string;
  (** How Postgres compares two [text] values in an [ORDER BY], which is
      decided by the collation of the database. *)
  text_cmp : string -> string -> comparison;
  (** [bcrypt.hash(data, rounds)]; the last argument is the entropy the
      salt is drawn from. *)
  bcrypt_hash : string -> nat -> N -> string;
  (** [bcrypt.compare(data, hash)]. *)
  bcrypt_compare : string -> string -> bool;
  (** [axios.get(url, { params, timeout })]. *)
  axios_get : string -> list (string * string) -> nat -> AxiosOutcome
}.

(* ===================================================================== *)
(** ** ORDER BY                                                           *)
(* ===================================================================== *)

(** One sort key [x DESC NULLS LAST]: [Lt] when the left row comes first. *)
Definition desc_nulls_last (x y : option Z) : comparison :=
  match x, y with
  | Some a, Some b => Z.compare b a
  | Some _, None => Lt
  | None, Some _ => Gt
  | None, None => Eq
  end.

(** A second key breaks the ties of the first. *)
Definition then_by (c1 c2 : comparison) : comparison :=
  match c1 with
  | Eq => c2
  | _ => c1
  end.

Definition not_after (c : comparison) : bool :=
  match c with
  | Gt => false
  | _ => true
  end.

(** ["ORDER BY rating DESC NULLS LAST, finished_on DESC NULLS LAST"] *)
Definition rating_cmp (a b : Book.t) : comparison :=
  then_by (desc_nulls_last (Book.rating a) (Book.rating b))
          (desc_nulls_last (Book.finished_on a) (Book.finished_on b)).

(** ["ORDER BY LOWER(title) ASC"]: the store folds both titles and compares
    what it gets. *)
Definition title_cmp (env : Env) (a b : Book.t) : comparison :=
  text_cmp env (LOWER env (Book.title a)) (LOWER env (Book.title b)).

(** ["ORDER BY finished_on DESC NULLS LAST, id DESC"] *)
Definition recent_cmp (a b : Book.t) : comparison :=
  then_by (desc_nulls_last (Book.finished_on a) (Book.finished_on b))
          (Z.compare (Book.id b) (Book.id a)).

Inductive OrderBy : Type := ByRating | ByTitle | ByRecent.

Definition order_cmp (env : Env) (o : OrderBy)
    : Book.t -> Book.t -> comparison :=
  match o with
  | ByRating => rating_cmp
  | ByTitle => title_cmp env
  | ByRecent => recent_cmp
  end.

Definition order_leb (env : Env) (o : OrderBy) (a b : Book.t) : bool :=
  not_after (order_cmp env o a b).

Section Sorting.
Variable A : Type.
Variable leb : A -> A -> bool.

Fixpoint insert_sorted (x : A) (l : list A) : list A :=
  match l with
  | [] => [x]
  | y :: rest => if leb x y then x :: l else y :: insert_sorted x rest
  end.

(** The rows are put in order one at a time.  Rows that compare equal may
    come out in either order in Postgres; here they come out in a fixed
    one, which nothing said about a listing relies on: a page is described
    by the rows it holds and by their being in order. *)
Definition sort_by (l : list A) : list A :=
  fold_right insert_sorted [] l.
End Sorting.

Definition order_by (env : Env) (o : OrderBy) (rows : list Book.t)
    : list Book.t :=
  sort_by (order_leb env o) rows.

(** Optional values are chained with [o >>= f]. *)
Definition obind {A B : Type} (o : option A) (k : A -> option B) : option B :=
  match o with
  | None => None
  | Some a => k a
  end.

Declare Scope opt_scope.
Delimit Scope opt_scope with opt.
Notation "'let?' x := o 'in' k" := (obind o (fun x => k))
  (at level 10, x name, o at level 100, k at level 200) : opt_scope.

(* ===================================================================== *)
(** ** Statement parameters                                               *)
(* ===================================================================== *)

Section Parameters.
Variable env : Env.

(** node-postgres turns [undefined] and [null] into SQL NULL and sends a
    string as it is. *)
Definition prepareValue (v : jsval) : option string :=
  match v with
  | JUndefined | JNull => None
  | JStr s => Some s
  | _ => Some (pg_text env v)
  end.

(** A parameter in a [TEXT] position: always accepted. *)
Definition text_param (v : jsval) : option string := prepareValue v.

(** A parameter in an [INT] position.  The outer [None] is a rejected
    statement, the inner one NULL.  A JavaScript integer travels as its
    decimal text and is read back as the same integer. *)
Definition int_param (v : jsval) : option (option Z) :=
  match v with
  | JNum q => if (Qden q =? 1)%positive then Some (Some (Qnum q)) else None
  | _ =>
      match prepareValue v with
      | None => Some None
      | Some s => option_map Some (int4in env s)
      end
  end.

(** A parameter in a [DATE] position. *)
Definition date_param (v : jsval) : option (option Z) :=
  match prepareValue v with
  | None => Some None
  | Some s => option_map Some (date_in env s)
  end.
End Parameters.

(** [column = $n]: NULL on either side selects nothing. *)
Definition sql_eqZ (col : option Z) (p : option Z) : bool :=
  match col, p with
  | Some c, Some x => c =? x
  | _, _ => false
  end.

Definition sql_eq_text (col : string) (p : option string) : bool :=
  match p with
  | Some x => (col =? x)%string
  | None => false
  end.

(** [WHERE id = $a AND user_id = $b] *)
Definition where_id_user (bid uid : option Z) (b : Book.t) : bool :=
  sql_eqZ (Some (Book.id b)) bid && sql_eqZ (Book.user_id b) uid.

(** [WHERE id = $a] *)
Definition where_id (bid : option Z) (b : Book.t) : bool :=
  sql_eqZ (Some (Book.id b)) bid.

(** [WHERE user_id = $1] *)
Definition where_user (uid : option Z) (b : Book.t) : bool :=
  sql_eqZ (Book.user_id b) uid.

(** [SET title = $1, author = $2, isbn = $3, rating = $4, notes = $5,
    finished_on = $6] *)
Definition set_fields (t : string) (a i : option string) (r : option Z)
    (n : option string) (f : option Z) (b : Book.t) : Book.t :=
  Book.mk (Book.id b) (Book.user_id b) t a i (Book.cover_url b) r f n.

Definition with_books (d : Db) (bs : list Book.t) : Db :=
  mkDb (users d) bs (users_id_seq d) (books_id_seq d).

Definition count {A : Type} (p : A -> bool) (l : list A) : nat :=
  List.length (filter p l).

(* ===================================================================== *)
(** ** The SQL statements of the two servers                              *)
(* ===================================================================== *)

(** One constructor per statement text, indexed by what the caller reads
    from the result: the rows, or the number of rows affected. *)
Inductive Stmt : Type -> Type :=
(* the authenticated server *)
| SelectUserByEmail : Stmt (list User.t)
| SelectUserById : Stmt (list SessionUser)
| SelectBooksOfUser (o : OrderBy) : Stmt (list Book.t)
| SelectBookOfUser : Stmt (list Book.t)
| InsertBookOfUser : Stmt nat
| UpdateBookOfUser : Stmt nat
| DeleteBookOfUser : Stmt nat
| SelectUserIdByEmail : Stmt (list Z)
| InsertUser : Stmt (list SessionUser)
(* src/index.js *)
| SelectBooks (o : OrderBy) : Stmt (list Book.t)
| SelectBook : Stmt (list Book.t)
| InsertBook : Stmt nat
| UpdateBook : Stmt nat
| DeleteBook : Stmt nat.

Definition orderBy_text (o : OrderBy) : string :=
  match o with
  | ByRating => "ORDER BY rating DESC NULLS LAST, finished_on DESC NULLS LAST"
  | ByTitle => "ORDER BY LOWER(title) ASC"
  | ByRecent => "ORDER BY finished_on DESC NULLS LAST, id DESC"
  end.

(** The statement text handed to [db.query]. *)
Definition sql {R : Type} (s : Stmt R) : string :=
  match s with
  | SelectUserByEmail => "SELECT * FROM users WHERE email = $1"
  | SelectUserById => "SELECT id, email FROM users WHERE id = $1"
  | SelectBooksOfUser o =>
      "SELECT * FROM books WHERE user_id = $1 " ++ orderBy_text o
  | SelectBookOfUser => "SELECT * FROM books WHERE id = $1 AND user_id = $2"
  | InsertBookOfUser =>
      "INSERT INTO books (title, author, isbn, rating, notes, finished_on, user_id) VALUES ($1, $2, $3, $4, $5, $6, $7)"
  | UpdateBookOfUser =>
      "UPDATE books SET title = $1, author = $2, isbn = $3, rating = $4, notes = $5, finished_on = $6 WHERE id = $7 AND user_id = $8"
  | DeleteBookOfUser => "DELETE FROM books WHERE id = $1 AND user_id = $2"
  | SelectUserIdByEmail => "SELECT id FROM users WHERE email = $1"
  | InsertUser =>
      "INSERT INTO users (email, password) VALUES ($1, $2) RETURNING id, email"
  | SelectBooks o => "SELECT * FROM books " ++ orderBy_text o
  | SelectBook => "SELECT * FROM books WHERE id = $1"
  | InsertBook =>
      "INSERT INTO books (title, author, isbn, rating, notes, finished_on) VALUES ($1, $2, $3, $4, $5, $6)"
  | UpdateBook =>
      "UPDATE books SET title = $1, author = $2, isbn = $3, rating = $4, notes = $5, finished_on = $6 WHERE id = $7"
  | DeleteBook => "DELETE FROM books WHERE id = $1"
  end.

Section Statements.
Variable env : Env.
Local Open Scope opt_scope.

Definition session_user_of (u : User.t) : SessionUser :=
  mkSessionUser (User.id u) (User.email u).

(** [SELECT ... FROM books WHERE <cond> [ORDER BY ...]] *)
Definition select_books (cond : Book.t -> bool) (o : option OrderBy)
    (d : Db) : list Book.t :=
  match o with
  | Some ord => order_by env ord (filter cond (books d))
  | None => filter cond (books d)
  end.

(** [UPDATE books SET ... WHERE <cond>].  [title] is [TEXT NOT NULL]: a
    NULL title is refused as soon as one row would receive it. *)
Definition update_books (t a i r n f : jsval) (cond : Book.t -> bool)
    (d : Db) : option (nat * Db) :=
  let t' := text_param env t in
  let a' := text_param env a in
  let i' := text_param env i in
  let? r' := int_param env r in
  let n' := text_param env n in
  let? f' := date_param env f in
  match t' with
  | None =>
      if existsb cond (books d) then None else Some (0%nat, d)
  | Some ttl =>
      Some (count cond (books d),
            with_books d
              (map (fun b => if cond b then set_fields ttl a' i' r' n' f' b
                             else b)
                   (books d)))
  end.

(** [INSERT INTO books (...) VALUES (...)]: the new row takes the next
    value of the [id] sequence and goes after the existing rows.  [None]
    is a refused row; what the sequence is then is said by [refused]. *)
Definition insert_book (t a i r n f : jsval) (uid : option Z)
    (d : Db) : option (nat * Db) :=
  let a' := text_param env a in
  let i' := text_param env i in
  let? r' := int_param env r in
  let n' := text_param env n in
  let? f' := date_param env f in
  let? ttl := text_param env t in
  Some (1%nat,
        mkDb (users d)
             (books d ++ [Book.mk (books_id_seq d) uid ttl a' i' None r' f' n'])
             (users_id_seq d) (books_id_seq d + 1)).

(** [DELETE FROM books WHERE <cond>] *)
Definition delete_books (cond : Book.t -> bool) (d : Db) : nat * Db :=
  (count cond (books d),
   with_books d (filter (fun b => negb (cond b)) (books d))).

(** [INSERT INTO users (email, password) ... RETURNING id, email]:
    [email] is unique; both columns are taken to be [NOT NULL], which only
    matters for a registration without an email.  [None] is a refused
    row; what the sequence is then is said by [refused]. *)
Definition insert_user (e p : jsval) (d : Db)
    : option (list SessionUser * Db) :=
  let? e' := text_param env e in
  let? p' := text_param env p in
  if existsb (fun u => (User.email u =? e')%string) (users d) then None
  else
    Some ([mkSessionUser (users_id_seq d) e'],
          mkDb (users d ++ [User.mk (users_id_seq d) e' p'])
               (books d) (users_id_seq d + 1) (books_id_seq d)).

(** The effect of one statement on the tables.  [None]: Postgres refuses
    the statement (wrong number of parameters, parameter text that is not
    of the column's type, violated constraint) and [db.query] rejects;
    what the tables are then is given by [refused] below. *)
Definition exec {R : Type} (s : Stmt R) (params : list jsval) (d : Db)
    : option (R * Db) :=
  match s in Stmt R0 return option (R0 * Db) with
  | SelectUserByEmail =>
      match params with
      | [e] =>
          Some (filter (fun u => sql_eq_text (User.email u) (text_param env e))
                       (users d), d)
      | _ => None
      end
  | SelectUserById =>
      match params with
      | [i] =>
          let? i' := int_param env i in
          Some (map session_user_of
                    (filter (fun u => sql_eqZ (Some (User.id u)) i') (users d)),
                d)
      | _ => None
      end
  | SelectBooksOfUser o =>
      match params with
      | [u] =>
          let? u' := int_param env u in
          Some (select_books (where_user u') (Some o) d, d)
      | _ => None
      end
  | SelectBookOfUser =>
      match params with
      | [b; u] =>
          let? b' := int_param env b in
          let? u' := int_param env u in
          Some (select_books (where_id_user b' u') None d, d)
      | _ => None
      end
  | InsertBookOfUser =>
      match params with
      | [t; a; i; r; n; f; u] =>
          let? u' := int_param env u in
          insert_book t a i r n f u' d
      | _ => None
      end
  | UpdateBookOfUser =>
      match params with
      | [t; a; i; r; n; f; b; u] =>
          let? b' := int_param env b in
          let? u' := int_param env u in
          update_books t a i r n f (where_id_user b' u') d
      | _ => None
      end
  | DeleteBookOfUser =>
      match params with
      | [b; u] =>
          let? b' := int_param env b in
          let? u' := int_param env u in
          Some (delete_books (where_id_user b' u') d)
      | _ => None
      end
  | SelectUserIdByEmail =>
      match params with
      | [e] =>
          Some (map User.id
                    (filter (fun u => sql_eq_text (User.email u)
                                                  (text_param env e))
                            (users d)), d)
      | _ => None
      end
  | InsertUser =>
      match params with
      | [e; p] => insert_user e p d
      | _ => None
      end
  | SelectBooks o =>
      match params with
      | [] => Some (select_books (fun _ => true) (Some o) d, d)
      | _ => None
      end
  | SelectBook =>
      match params with
      | [b] =>
          let? b' := int_param env b in
          Some (select_books (where_id b') None d, d)
      | _ => None
      end
  | InsertBook =>
      match params with
      | [t; a; i; r; n; f] => insert_book t a i r n f None d
      | _ => None
      end
  | UpdateBook =>
      match params with
      | [t; a; i; r; n; f; b] =>
          let? b' := int_param env b in
          update_books t a i r n f (where_id b') d
      | _ => None
      end
  | DeleteBook =>
      match params with
      | [b] =>
          let? b' := int_param env b in
          Some (delete_books (where_id b') d)
      | _ => None
      end
  end.

(** [nextval] of the two identifier sequences. *)
Definition nextval_books (d : Db) : Db :=
  mkDb (users d) (books d) (users_id_seq d) (books_id_seq d + 1).

Definition nextval_users (d : Db) : Db :=
  mkDb (users d) (books d) (users_id_seq d + 1) (books_id_seq d).

(** Whether the rating and the date of an INSERT into [books] are accepted
    when the statement is bound, which is before it runs. *)
Definition book_params_bind (r f : jsval) : bool :=
  match int_param env r, date_param env f with
  | Some _, Some _ => true
  | _, _ => false
  end.

(** The tables after a statement that [exec] refuses.  The rows are as they
    were.  An INSERT whose parameters were bound has drawn the next value
    of the [id] sequence by the time a constraint refuses the row (a
    missing title, an email already there), and a sequence does not go
    back; a statement refused when it is bound has drawn nothing. *)
Definition refused {R : Type} (s : Stmt R) (params : list jsval) (d : Db)
    : Db :=
  match s with
  | InsertBookOfUser =>
      match params with
      | [t; a; i; r; n; f; u] =>
          match int_param env u with
          | Some _ => if book_params_bind r f then nextval_books d else d
          | None => d
          end
      | _ => d
      end
  | InsertBook =>
      match params with
      | [t; a; i; r; n; f] =>
          if book_params_bind r f then nextval_books d else d
      | _ => d
      end
  | InsertUser =>
      match params with
      | [e; p] => nextval_users d
      | _ => d
      end
  | _ => d
  end.

End Statements.

(* ===================================================================== *)
(** ** Requests, responses and the effects of a handler                   *)
(* ===================================================================== *)

(** What a handler does to the outside world, in the order it does it. *)
Inductive Effect : Type :=
| EQuery (text : string) (params : list jsval)
| EHttpGet (url : string) (params : list (string * string)) (timeout : nat)
| ELogIn (uid : Z)
| ELogOut.

(** A thrown value or a rejected promise. *)
Inductive Exn : Type :=
| DbError
| TypeError
| BcryptError
| HttpError (message : string).

(** The tables, the [passport.user] entry of the caller's session, the
    entropy bcrypt draws salts from, and the effects so far. *)
Record World : Type := mkWorld {
  db : Db;
  session : option Z;
  entropy : N;
  trace : list Effect
}.

Inductive Outcome (A : Type) : Type :=
| Ok (a : A)
| Throw (e : Exn).
Arguments Throw {A} e.

(** A computation may change the world and then throw: what it did before
    throwing stays done. *)
Definition M (A : Type) : Type := World -> Outcome A * World.

Definition ret {A : Type} (a : A) : M A := fun w => (Ok a, w).

Definition throw {A : Type} (e : Exn) : M A := fun w => (Throw e, w).

Definition bind {A B : Type} (m : M A) (k : A -> M B) : M B :=
  fun w =>
    match m w with
    | (Ok a, w') => k a w'
    | (Throw e, w') => (Throw e, w')
    end.

(** [try { m } catch (err) { h err }] *)
Definition try_catch {A : Type} (m : M A) (h : Exn -> M A) : M A :=
  fun w =>
    match m w with
    | (Ok a, w') => (Ok a, w')
    | (Throw e, w') => h e w'
    end.

Declare Scope js_scope.
Delimit Scope js_scope with js.
Notation "x <- m ;; k" := (bind m (fun x => k))
  (at level 61, m at next level, right associativity) : js_scope.
Notation "m ;; k" := (bind m (fun _ => k))
  (at level 61, right associativity) : js_scope.

Definition emit (e : Effect) (w : World) : World :=
  mkWorld (db w) (session w) (entropy w) (trace w ++ [e]).

Inductive View : Type :=
| IndexEjs (books : list Book.t) (sort : jsval)
| BookFormEjs (book : option Book.t) (action method title : string)
| LoginEjs (error : option string)
| RegisterEjs (error : option string).

Inductive Response : Type :=
| Redirect (location : string)
| Render (view : View)
| Send (status : nat) (text : string)
| SendJson (status : nat) (json : list (string * jsval)).

(** [req.user] as left by [passport.session()], the query string and the
    parsed form.  The route parameter is an argument of its handler. *)
Record Request : Type := mkRequest {
  user : option SessionUser;
  query : list (string * jsval);
  body : list (string * jsval)
}.

Definition OPEN_LIBRARY_API : string := "https://openlibrary.org/api/books".

Definition PLACEHOLDER_COVER : string :=
  "data:image/svg+xml,<svg xmlns='http://www.w3.org/2000/svg' width='320' height='480' viewBox='0 0 320 480'><rect width='320' height='480' fill='%23111827'/><text x='50%' y='50%' fill='%2394a3b8' font-size='20' text-anchor='middle' font-family='Arial'>No cover</text></svg>".

Definition saltRounds : nat := 10.

Section Runtime.
Variable env : Env.
Local Open Scope js_scope.

(** [await db.query(text, params)] *)
Definition db_query {R : Type} (s : Stmt R) (params : list jsval) : M R :=
  fun w =>
    let w1 := emit (EQuery (sql s) params) w in
    match exec env s params (db w) with
    | Some (r, d') => (Ok r, mkWorld d' (session w1) (entropy w1) (trace w1))
    | None =>
        (Throw DbError,
         mkWorld (refused env s params (db w)) (session w1) (entropy w1)
                 (trace w1))
    end.

(** [await axios.get(url, { params, timeout })], yielding [data]. *)
Definition axios_get_data (url : string) (params : list (string * string))
    (timeout : nat) : M jsval :=
  fun w =>
    let w1 := emit (EHttpGet url params timeout) w in
    match axios_get env url params timeout with
    | AxiosData data => (Ok data, w1)
    | AxiosError msg => (Throw (HttpError msg), w1)
    end.

(** [data[key]] *)
Definition js_index (v : jsval) (k : string) : M jsval :=
  match js_get v k with
  | Some x => ret x
  | None => throw TypeError
  end.

(** [await bcrypt.hash(data, rounds)]: rejects unless [data] is a string. *)
Definition bcrypt_hash_js (data : jsval) (rounds : nat) : M string :=
  match data with
  | JStr s =>
      fun w =>
        (Ok (bcrypt_hash env s rounds (entropy w)),
         mkWorld (db w) (session w) (entropy w + 1)%N (trace w))
  | _ => throw BcryptError
  end.

(** [await bcrypt.compare(data, hash)]: rejects unless [data] is a
    string. *)
Definition bcrypt_compare_js (data : jsval) (hash : string) : M bool :=
  match data with
  | JStr s => ret (bcrypt_compare env s hash)
  | _ => throw BcryptError
  end.

(** [req.login(user, cb)], with [serializeUser] storing [user.id]; the
    result is the [err] given to the callback. *)
Definition req_login (u : SessionUser) : M (option Exn) :=
  fun w =>
    (Ok None,
     mkWorld (db w) (Some (su_id u)) (entropy w) (trace w ++ [ELogIn (su_id u)])).

(** [req.logout(cb)] *)
Definition req_logout : M (option Exn) :=
  fun w =>
    (Ok None, mkWorld (db w) None (entropy w) (trace w ++ [ELogOut])).

(** [req.user.id], a [TypeError] when [req.user] is undefined. *)
Definition req_user_id (req : Request) : M jsval :=
  match user req with
  | Some u => ret (JNum (inject_Z (su_id u)))
  | None => throw TypeError
  end.

(** [req.query.sort] and the like. *)
Definition query_field (req : Request) (k : string) : jsval :=
  field (query req) k.

Definition nonempty {A : Type} (l : list A) : bool :=
  match l with
  | [] => false
  | _ :: _ => true
  end.

(** The ORDER BY clause picked by both list handlers. *)
Definition orderBy_of (sort : jsval) : OrderBy :=
  if js_eq_str sort "rating" then ByRating
  else if js_eq_str sort "title" then ByTitle
  else ByRecent.

(** [fetchCoverUrl(isbn)], the same text in both servers. *)
Definition fetchCoverUrl (isbn : string) : M jsval :=
  if js_not (JStr isbn) then ret JNull
  else
    try_catch
      (data <- axios_get_data OPEN_LIBRARY_API
                 [("bibkeys", "ISBN:" ++ isbn); ("format", "json");
                  ("jscmd", "data")]
                 5000 ;;
       entry <- js_index data ("ISBN:" ++ isbn) ;;
       ret (js_or (js_or (js_opt_get (js_opt_get entry "cover") "medium")
                         (js_opt_get (js_opt_get entry "cover") "large"))
                  JNull))
      (fun _ => ret JNull).

(** [GET /api/cover/:isbn], the same text in both servers. *)
Definition get_api_cover (isbn : string) : M Response :=
  try_catch
    (url <- fetchCoverUrl isbn ;;
     ret (SendJson 200 [("isbn", JStr isbn);
                        ("cover_url", js_or url (JStr PLACEHOLDER_COVER))]))
    (fun _ => ret (SendJson 500 [("error", JStr "Failed to fetch cover")])).

End Runtime.

(* ===================================================================== *)
(** ** src/index.js: the server without accounts                          *)
(* ===================================================================== *)

Module IndexJs.
Section Handlers.
Variable env : Env.
Local Open Scope js_scope.

(** [app.get("/books/:id/edit", ...)] *)
Definition get_books_id_edit (id : string) (req : Request) : M Response :=
  try_catch
    (rows <- db_query env SelectBook [JStr id] ;;
     match rows with
     | [] => ret (Send 404 "Book not found")
     | row :: _ =>
         ret (Render (BookFormEjs (Some row) ("/books/" ++ id ++ "/edit")
                                  "POST" "Edit book"))
     end)
    (fun _ => ret (Send 500 "Error loading book")).

(** [app.post("/books", ...)] *)
Definition post_books (req : Request) : M Response :=
  let title := field (body req) "title" in
  let author := field (body req) "author" in
  let isbn := field (body req) "isbn" in
  let rating := field (body req) "rating" in
  let notes := field (body req) "notes" in
  let finished_on := field (body req) "finished_on" in
  try_catch
    (db_query env InsertBook
       [title; js_or author JNull; js_or isbn JNull; js_or rating JNull;
        js_or notes JNull; js_or finished_on JNull] ;;
     ret (Redirect "/"))
    (fun _ => ret (Send 500 "Error creating book")).

(** [app.post("/books/:id/edit", ...)] *)
Definition post_books_id_edit (id : string) (req : Request) : M Response :=
  let title := field (body req) "title" in
  let author := field (body req) "author" in
  let isbn := field (body req) "isbn" in
  let rating := field (body req) "rating" in
  let notes := field (body req) "notes" in
  let finished_on := field (body req) "finished_on" in
  try_catch
    (db_query env UpdateBook
       [title; js_or author JNull; js_or isbn JNull; js_or rating JNull;
        js_or notes JNull; js_or finished_on JNull; JStr id] ;;
     ret (Redirect "/"))
    (fun _ => ret (Send 500 "Error updating book")).

(** [app.post("/books/:id/delete", ...)] *)
Definition post_books_id_delete (id : string) (req : Request) : M Response :=
  try_catch
    (db_query env DeleteBook [JStr id] ;;
     ret (Redirect "/"))
    (fun _ => ret (Send 500 "Error deleting book")).

(** [app.get("/", ...)]: every row of [books], no ownership filter.  The
    catch block only logs, so a failed query leaves the request without a
    response ([None]). *)
Definition get_root (req : Request) : M (option Response) :=
  try_catch
    (let sort := js_or (query_field req "sort") (JStr "recent") in
     let orderBy := orderBy_of sort in
     books <- db_query env (SelectBooks orderBy) [] ;;
     ret (Some (Render (IndexEjs books sort))))
    (fun _ => ret None).

(** [app.get("/books/new", ...)] *)
Definition get_books_new (req : Request) : M Response :=
  ret (Render (BookFormEjs None "/books" "POST" "Add a book")).

End Handlers.
End IndexJs.

(* ===================================================================== *)
(** ** The session-authenticated server                                   *)
(* ===================================================================== *)

Module AuthServer.

(** What the verify callback of the local strategy reports through [cb]:
    [cb(err)], [cb(null, false, { message })] or [cb(null, user)]. *)
Inductive Verified : Type :=
| VError (err : Exn)
| VFail (message : string)
| VUser (u : SessionUser).

Inductive Route : Type :=
| GET_root
| GET_api_cover (isbn : string)
| GET_books_new
| GET_books_id_edit (id : string)
| POST_books
| POST_books_id_edit (id : string)
| POST_books_id_delete (id : string)
| GET_login
| GET_register
| POST_register
| POST_login
| POST_logout.

Section Handlers.
Variable env : Env.
Local Open Scope js_scope.

(** The verify callback given to [LocalStrategy]. *)
Definition verify (email password : jsval) : M Verified :=
  try_catch
    (rows <- db_query env SelectUserByEmail [email] ;;
     match rows with
     | [] => ret (VFail "Invalid email or password")
     | usr :: _ =>
         ok <- bcrypt_compare_js env password (User.password usr) ;;
         if negb ok then ret (VFail "Invalid email or password")
         else ret (VUser (mkSessionUser (User.id usr) (User.email usr)))
     end)
    (fun err => ret (VError err)).

(** [passport.deserializeUser]: [None] stands for [cb(null, false)]. *)
Definition deserializeUser (id : Z) : M (option SessionUser) :=
  rows <- db_query env SelectUserById [JNum (inject_Z id)] ;;
  match rows with
  | [] => ret None
  | row :: _ => ret (Some row)
  end.

(** [passport.session()]: resolves the identifier kept in the session to
    [req.user]; an identifier that no longer resolves is dropped from the
    session and the request goes on anonymously. *)
Definition passport_session : M (option SessionUser) :=
  fun w =>
    match session w with
    | None => (Ok None, w)
    | Some id =>
        match deserializeUser id w with
        | (Ok (Some u), w') => (Ok (Some u), w')
        | (Ok None, w') =>
            (Ok None, mkWorld (db w') None (entropy w') (trace w'))
        | (Throw e, w') => (Throw e, w')
        end
    end.

(** [req.isAuthenticated && req.isAuthenticated()]; passport defines the
    method on every request and it answers whether [req.user] is set. *)
Definition isAuthenticated (req : Request) : bool :=
  match user req with
  | Some _ => true
  | None => false
  end.

(** [requireAuth(req, res, next)] *)
Definition requireAuth (req : Request) (next : M Response) : M Response :=
  if negb (isAuthenticated req) then ret (Redirect "/login")
  else next.

(** [app.get("/", requireAuth, ...)] without the guard. *)
Definition get_root (req : Request) : M Response :=
  try_catch
    (let sort := js_or (query_field req "sort") (JStr "recent") in
     let orderBy := orderBy_of sort in
     uid <- req_user_id req ;;
     books <- db_query env (SelectBooksOfUser orderBy) [uid] ;;
     ret (Render (IndexEjs books sort)))
    (fun _ => ret (Send 500 "Error loading books")).

(** [app.get("/books/new", requireAuth, ...)] without the guard. *)
Definition get_books_new (req : Request) : M Response :=
  ret (Render (BookFormEjs None "/books" "POST" "Add a book")).

(** [app.get("/books/:id/edit", requireAuth, ...)] without the guard. *)
Definition get_books_id_edit (id : string) (req : Request) : M Response :=
  try_catch
    (uid <- req_user_id req ;;
     rows <- db_query env SelectBookOfUser [JStr id; uid] ;;
     match rows with
     | [] => ret (Send 404 "Book not found")
     | row :: _ =>
         ret (Render (BookFormEjs (Some row) ("/books/" ++ id ++ "/edit")
                                  "POST" "Edit book"))
     end)
    (fun _ => ret (Send 500 "Error loading book")).

(** [app.post("/books", requireAuth, ...)] without the guard. *)
Definition post_books (req : Request) : M Response :=
  let title := field (body req) "title" in
  let author := field (body req) "author" in
  let isbn := field (body req) "isbn" in
  let rating := field (body req) "rating" in
  let notes := field (body req) "notes" in
  let finished_on := field (body req) "finished_on" in
  try_catch
    (uid <- req_user_id req ;;
     db_query env InsertBookOfUser
       [title; js_or author JNull; js_or isbn JNull; js_or rating JNull;
        js_or notes JNull; js_or finished_on JNull; uid] ;;
     ret (Redirect "/"))
    (fun _ => ret (Send 500 "Error creating book")).

(** [app.post("/books/:id/edit", requireAuth, ...)] without the guard. *)
Definition post_books_id_edit (id : string) (req : Request) : M Response :=
  let title := field (body req) "title" in
  let author := field (body req) "author" in
  let isbn := field (body req) "isbn" in
  let rating := field (body req) "rating" in
  let notes := field (body req) "notes" in
  let finished_on := field (body req) "finished_on" in
  try_catch
    (uid <- req_user_id req ;;
     db_query env UpdateBookOfUser
       [title; js_or author JNull; js_or isbn JNull; js_or rating JNull;
        js_or notes JNull; js_or finished_on JNull; JStr id; uid] ;;
     ret (Redirect "/"))
    (fun _ => ret (Send 500 "Error updating book")).

(** [app.post("/books/:id/delete", requireAuth, ...)] without the guard. *)
Definition post_books_id_delete (id : string) (req : Request) : M Response :=
  try_catch
    (uid <- req_user_id req ;;
     db_query env DeleteBookOfUser [JStr id; uid] ;;
     ret (Redirect "/"))
    (fun _ => ret (Send 500 "Error deleting book")).

(** [app.get("/login", ...)] *)
Definition get_login (req : Request) : M Response :=
  if isAuthenticated req then ret (Redirect "/")
  else
    let error := if truthy (query_field req "error")
                 then Some "Invalid email or password" else None in
    ret (Render (LoginEjs error)).

(** [app.get("/register", ...)] *)
Definition get_register (req : Request) : M Response :=
  if isAuthenticated req then ret (Redirect "/")
  else ret (Render (RegisterEjs None)).

(** [app.post("/register", ...)] *)
Definition post_register (req : Request) : M Response :=
  let email := field (body req) "email" in
  let password := field (body req) "password" in
  try_catch
    (existing <- db_query env SelectUserIdByEmail [email] ;;
     if nonempty existing
     then ret (Render (RegisterEjs (Some "Email already registered")))
     else
       hash <- bcrypt_hash_js env password saltRounds ;;
       rows <- db_query env InsertUser [email; JStr hash] ;;
       match rows with
       | [] => throw TypeError
       | row :: _ =>
           err <- req_login (mkSessionUser (su_id row) (su_email row)) ;;
           match err with
           | Some _ => ret (Send 500 "Error logging in after registration")
           | None => ret (Redirect "/")
           end
       end)
    (fun _ => ret (Send 500 "Error registering user")).

(** [lookup(obj, field)] of passport-local for a field name without
    brackets: the property itself when it is a string, a number or a
    boolean, and [null] when it is missing, [null], an array or an
    object. *)
Definition lookup (obj : list (string * jsval)) (k : string) : jsval :=
  match field obj k with
  | JUndefined | JNull | JArr _ | JObj _ => JNull
  | v => v
  end.

(** The local strategy of passport-local with
    [{ usernameField: "email", passwordField: "password" }]: each
    credential is looked up in the form, else in the query string, and the
    verify callback runs only when both are present. *)
Definition local_strategy (req : Request) : M Verified :=
  let username := js_or (lookup (body req) "email") (lookup (query req) "email") in
  let password :=
    js_or (lookup (body req) "password") (lookup (query req) "password") in
  if js_not username || js_not password then ret (VFail "Missing credentials")
  else verify username password.

(** [passport.authenticate("local", { successRedirect: "/",
    failureRedirect: "/login?error=1" })], mounted on [POST /login]. *)
Definition post_login (req : Request) : M Response :=
  v <- local_strategy req ;;
  match v with
  | VError err => throw err
  | VFail _ => ret (Redirect "/login?error=1")
  | VUser u =>
      err <- req_login u ;;
      match err with
      | Some e => throw e
      | None => ret (Redirect "/")
      end
  end.

(** [app.post("/logout", ...)] *)
Definition post_logout (req : Request) : M Response :=
  err <- req_logout ;;
  match err with
  | Some _ => ret (Send 500 "Error logging out")
  | None => ret (Redirect "/login")
  end.

(** The last callback of each registration. *)
Definition handler (r : Route) (req : Request) : M Response :=
  match r with
  | GET_root => get_root req
  | GET_api_cover isbn => get_api_cover env isbn
  | GET_books_new => get_books_new req
  | GET_books_id_edit id => get_books_id_edit id req
  | POST_books => post_books req
  | POST_books_id_edit id => post_books_id_edit id req
  | POST_books_id_delete id => post_books_id_delete id req
  | GET_login => get_login req
  | GET_register => get_register req
  | POST_register => post_register req
  | POST_login => post_login req
  | POST_logout => post_logout req
  end.

(** Whether the registration names [requireAuth] before the handler:
    [app.get("/", requireAuth, ...)] does, [app.post("/logout", ...)]
    does not. *)
Definition guarded (r : Route) : bool :=
  match r with
  | GET_root | GET_books_new | POST_books
  | GET_books_id_edit _ | POST_books_id_edit _ | POST_books_id_delete _ => true
  | GET_api_cover _ | GET_login | GET_register
  | POST_register | POST_login | POST_logout => false
  end.

Definition route (r : Route) (req : Request) : M Response :=
  if guarded r then requireAuth req (handler r req) else handler r req.

(** One request through the middleware stack: the session is resolved,
    the route runs, and what is thrown past a handler ends in the default
    error response of Express. *)
Definition app (r : Route) (q b : list (string * jsval)) (w : World)
    : Response * World :=
  match passport_session w with
  | (Ok u, w1) =>
      match route r (mkRequest u q b) w1 with
      | (Ok res, w2) => (res, w2)
      | (Throw _, w2) => (Send 500 "Internal Server Error", w2)
      end
  | (Throw _, w1) => (Send 500 "Internal Server Error", w1)
  end.

(** The operations the interface table of the spec marks as requiring
    authentication. *)
Definition auth_required_in_spec (r : Route) : bool :=
  match r with
  | GET_root | GET_books_new | POST_books
  | GET_books_id_edit _ | POST_books_id_edit _ | POST_books_id_delete _
  | POST_logout => true
  | _ => false
  end.

End Handlers.
End AuthServer.

(* ===================================================================== *)
(** ** The orderings in the words of the specification                    *)
(* ===================================================================== *)

(** "descending, unset last" on one key: [x] sorts strictly before [y]. *)
Definition strictly_before (x y : option Z) : Prop :=
  match x, y with
  | Some a, Some b => b < a
  | Some _, None => True
  | None, _ => False
  end.

(** [rating]: by rating descending (unset ratings sort last), tie-broken
    by finished date descending (unset last). *)
Definition rating_order (a b : Book.t) : Prop :=
  strictly_before (Book.rating a) (Book.rating b) \/
  (Book.rating a = Book.rating b /\
   (strictly_before (Book.finished_on a) (Book.finished_on b) \/
    Book.finished_on a = Book.finished_on b)).

(** [recent]: by finished date descending (unset dates sort last),
    tie-broken by identifier descending. *)
Definition recent_order (a b : Book.t) : Prop :=
  strictly_before (Book.finished_on a) (Book.finished_on b) \/
  (Book.finished_on a = Book.finished_on b /\ Book.id b <= Book.id a).








(** The rows of one user. *)
Definition books_of (uid : Z) (d : Db) : list Book.t :=
  filter (where_user (Some uid)) (books d).

(** Primary keys: identifiers are unique in both tables and below the
    next value of their sequence; emails are unique. *)
Definition wf_db (d : Db) : Prop :=
  NoDup (map Book.id (books d)) /\
  (forall b, In b (books d) -> Book.id b < books_id_seq d) /\
  NoDup (map User.id (users d)) /\
  (forall u, In u (users d) -> User.id u < users_id_seq d) /\
  NoDup (map User.email (users d)).

(** No row of [books] is owned by [uid] under the identifier that the
    route parameter [id] denotes. *)
Definition no_row_of (env : Env) (uid : Z) (id : string) (d : Db) : Prop :=
  forall b, In b (books d) ->
            ~ (int4in env id = Some (Book.id b) /\ Book.user_id b = Some uid).

(** A computation keeps the tables well formed. *)
Definition keeps_wf {A : Type} (m : M A) : Prop :=
  forall w, wf_db (db w) -> wf_db (db (snd (m w))).

(** A computation relates the world it starts in to the world it
    leaves, whether it returns or throws. *)
Definition keeps {A : Type} (R : World -> World -> Prop) (m : M A) : Prop :=
  forall w, R w (snd (m w)).

(** The rows of [books] that [owner] does not own are as they were. *)
Definition others_kept (owner : option Z) (w w' : World) : Prop :=
  filter (fun b => negb (where_user owner b)) (books (db w'))
  = filter (fun b => negb (where_user owner b)) (books (db w)).

(** The tables are as they were. *)
Definition same_db (w w' : World) : Prop := db w' = db w.

(** Neither the tables nor the session changed. *)
Definition untouched (w w' : World) : Prop :=
  db w' = db w /\ session w' = session w.

(** No row of either table was written and the session is as it was; the
    one thing that may have moved is the identifier sequence of [books],
    by one value. *)
Definition no_row_written (w w' : World) : Prop :=
  books (db w') = books (db w) /\
  users (db w') = users (db w) /\
  users_id_seq (db w') = users_id_seq (db w) /\
  books_id_seq (db w) <= books_id_seq (db w') <= books_id_seq (db w) + 1 /\
  session w' = session w.

(** The routes registered with [app.get]. *)
Definition is_get (r : AuthServer.Route) : bool :=
  match r with
  | AuthServer.GET_root | AuthServer.GET_api_cover _
  | AuthServer.GET_books_new | AuthServer.GET_books_id_edit _
  | AuthServer.GET_login | AuthServer.GET_register => true
  | _ => false
  end.

(** Cross-user access is refused by three handlers (the edit form, the
    update and the delete): whenever the route parameter names a book of
    another user, the edit form answers "Book not found" and neither the
    update nor the delete changes the tables. *)
Definition refuses_strangers
    (edit_form update delete : Env -> string -> Request -> M Response)
    : Prop :=
  forall (env : Env) (w : World) (u1 : SessionUser) (u2 : Z) (b : Book.t)
         (id : string) (q bd : list (string * jsval)),
    wf_db (db w) ->
    su_id u1 <> u2 ->
    In b (books (db w)) ->
    Book.user_id b = Some u2 ->
    int4in env id = Some (Book.id b) ->
    let req := mkRequest (Some u1) q bd in
    fst (edit_form env id req w) = Ok (Send 404 "Book not found") /\
    db (snd (update env id req w)) = db w /\
    db (snd (delete env id req w)) = db w.

(** What the urlencoded body parser can put in a form field: nothing, a
    string, an array or a nested object. *)
Definition is_form_value (v : jsval) : bool :=
  match v with
  | JUndefined | JStr _ | JArr _ | JObj _ => true
  | JNull | JBool _ | JNum _ => false
  end.

(** "Stored as absent/null when empty": an absent field and the empty
    string become NULL, anything else is kept. *)
Definition null_if_empty (v : jsval) : jsval :=
  match v with
  | JUndefined => JNull
  | JStr EmptyString => JNull
  | _ => v
  end.

(* ===================================================================== *)
(** ** A small environment and small tables for the examples              *)
(* ===================================================================== *)

Definition digit_of (c : ascii) : option Z :=
  let n := N_of_ascii c in
  if (48 <=? n)%N && (n <=? 57)%N then Some (Z.of_N (n - 48)) else None.

Fixpoint digits (acc : Z) (s : string) : option Z :=
  match s with
  | EmptyString => Some acc
  | String c rest =>
      match digit_of c with
      | Some k => digits (10 * acc + k) rest
      | None => None
      end
  end.

(** Unsigned decimal text. *)
Definition decimal (s : string) : option Z :=
  match s with
  | EmptyString => None
  | _ => digits 0 s
  end.

(** Dates written as eight digits, [yyyymmdd]. *)
Definition compact_date (s : string) : option Z :=
  if (String.length s =? 8)%nat then decimal s else None.

(** Open Library knows one book, with both image sizes. *)
Definition one_book_library (url : string) (params : list (string * string))
    (timeout : nat) : AxiosOutcome :=
  match params with
  | ("bibkeys", "ISBN:9780140328721") :: _ =>
      AxiosData
        (JObj [("ISBN:9780140328721",
                JObj [("cover", JObj [("medium", JStr "https://covers.openlibrary.org/b/id/8739161-M.jpg");
                                      ("large", JStr "https://covers.openlibrary.org/b/id/8739161-L.jpg")])])])
  | _ => AxiosError "timeout of 5000ms exceeded"
  end.

(** [LOWER] of a database created with the C locale: the letters A-Z are
    folded, every other byte is left as it is. *)
Definition lower_ascii (c : ascii) : ascii :=
  let n := N_of_ascii c in
  if (65 <=? n)%N && (n <=? 90)%N then ascii_of_N (n + 32) else c.

Fixpoint lower_C (s : string) : string :=
  match s with
  | EmptyString => EmptyString
  | String c rest => String (lower_ascii c) (lower_C rest)
  end.

(** A store with the C locale (text is compared byte by byte), unsigned
    decimal integers and compact dates. *)
Definition test_env : Env :=
  mkEnv decimal compact_date (fun _ => "{}")
        lower_C String.compare
        (fun data rounds salt => "$2b$10$" ++ data)
        (fun data hash => (hash =? "$2b$10$" ++ data)%string)
        one_book_library.

Definition alice : SessionUser := mkSessionUser 1 "alice@example.org".

Definition two_users : list User.t :=
  [User.mk 1 "alice@example.org" "$2b$10$wonderland";
   User.mk 2 "bob@example.org" "$2b$10$builder"].

(** One book, owned by bob. *)
Definition bobs_book : Book.t :=
  Book.mk 1 (Some 2) "Dune" (Some "Frank Herbert") None None (Some 5) None None.

Definition bobs_shelf : World :=
  mkWorld (mkDb two_users [bobs_book] 3 2) None 0%N [].

(** Three books of alice: titles banana, Apple, cherry; ratings 5, unset,
    3. *)
Definition banana : Book.t :=
  Book.mk 1 (Some 1) "banana" None None None (Some 5) None None.
Definition Apple : Book.t :=
  Book.mk 2 (Some 1) "Apple" None None None None None None.
Definition cherry : Book.t :=
  Book.mk 3 (Some 1) "cherry" None None None (Some 3) None None.

Definition dune : Book.t :=
  Book.mk 4 (Some 2) "Dune" None None None (Some 4) None None.

(** The three books of alice and one of bob. *)
Definition alices_shelf : World :=
  mkWorld (mkDb two_users [banana; Apple; cherry; dune] 3 5) (Some 1) 0%N [].



Definition sort_query (key : string) : list (string * jsval) :=
  [("sort", JStr key)].

Definition login_form (email password : string) : list (string * jsval) :=
  [("email", JStr email); ("password", JStr password)].

Definition book_form (title author isbn rating notes finished_on : string)
    : list (string * jsval) :=
  [("title", JStr title); ("author", JStr author); ("isbn", JStr isbn);
   ("rating", JStr rating); ("notes", JStr notes);
   ("finished_on", JStr finished_on)].

(* ===================================================================== *)
(** * Facts                                                               *)
(* ===================================================================== *)

(** ** Sorting *)

Section SortingFacts.
Variable A : Type.
Variable leb : A -> A -> bool.
Hypothesis leb_total : forall x y, leb x y = true \/ leb y x = true.
Hypothesis leb_trans :
  forall x y z, leb x y = true -> leb y z = true -> leb x z = true.

Let le (x y : A) : Prop := leb x y = true.

Lemma insert_sorted_perm (x : A) (l : list A) :
  Permutation (x :: l) (insert_sorted leb x l).
Proof.
  induction l as [|y l IH]; simpl.
  - apply Permutation_refl.
  - destruct (leb x y).
    + apply Permutation_refl.
    + eapply perm_trans; [apply perm_swap|].
      now apply perm_skip.
Qed.

Lemma sort_by_perm (l : list A) : Permutation l (sort_by leb l).
Proof.
  induction l as [|x l IH]; simpl.
  - constructor.
  - eapply perm_trans; [|apply insert_sorted_perm].
    now apply perm_skip.
Qed.

Lemma insert_sorted_Forall (P : A -> Prop) (x : A) (l : list A) :
  P x -> Forall P l -> Forall P (insert_sorted leb x l).
Proof.
  intros Hx Hl.
  eapply Permutation_Forall; [apply insert_sorted_perm|].
  now constructor.
Qed.

Lemma insert_sorted_sorted (x : A) (l : list A) :
  StronglySorted le l -> StronglySorted le (insert_sorted leb x l).
Proof.
  induction 1 as [|y l Hs IH Hy]; simpl.
  - repeat constructor.
  - destruct (leb x y) eqn:Hxy.
    + constructor; [now constructor|].
      constructor; [exact Hxy|].
      eapply Forall_impl; [|exact Hy].
      intros z Hz. unfold le in *. eauto.
    + constructor; [exact IH|].
      apply insert_sorted_Forall; [|exact Hy].
      destruct (leb_total x y) as [H|H]; [congruence|exact H].
Qed.

Lemma sort_by_sorted (l : list A) : StronglySorted le (sort_by leb l).
Proof.
  induction l as [|x l IH]; simpl.
  - constructor.
  - now apply insert_sorted_sorted.
Qed.

End SortingFacts.

(** ** The three orderings *)



Lemma ascii_compare_gt (a b : ascii) :
  Ascii.compare a b = Gt <-> (N_of_ascii b < N_of_ascii a)%N.
Proof. unfold Ascii.compare. apply N.compare_gt_iff. Qed.


Lemma desc_nulls_last_Lt (x y : option Z) :
  desc_nulls_last x y = Lt <-> strictly_before x y.
Proof.
  destruct x as [a|], y as [b|]; simpl; try easy;
    apply Z.compare_lt_iff.
Qed.

Lemma desc_nulls_last_Eq (x y : option Z) :
  desc_nulls_last x y = Eq <-> x = y.
Proof.
  destruct x as [a|], y as [b|]; simpl; try easy;
    rewrite Z.compare_eq_iff; split; congruence.
Qed.

Lemma desc_nulls_last_Gt (x y : option Z) :
  desc_nulls_last x y = Gt <-> strictly_before y x.
Proof.
  destruct x as [a|], y as [b|]; simpl; try easy;
    apply Z.compare_gt_iff.
Qed.

(** The comparator of the [rating] clause is the ordering the
    specification words. *)
Lemma rating_leb_order (env : Env) (a b : Book.t) :
  order_leb env ByRating a b = true <-> rating_order a b.
Proof.
  unfold order_leb, order_cmp, rating_cmp, rating_order.
  destruct (desc_nulls_last (Book.rating a) (Book.rating b)) eqn:Hr; simpl.
  - apply desc_nulls_last_Eq in Hr.
    destruct (desc_nulls_last (Book.finished_on a) (Book.finished_on b))
      eqn:Hf; simpl.
    + apply desc_nulls_last_Eq in Hf. tauto.
    + apply desc_nulls_last_Lt in Hf. tauto.
    + split; [discriminate|].
      intros [H|[_ [H|H]]].
      * apply desc_nulls_last_Lt in H. rewrite Hr in *.
        destruct (Book.rating b); simpl in H;
          [rewrite Z.compare_refl in H|]; discriminate.
      * apply desc_nulls_last_Lt in H. congruence.
      * apply desc_nulls_last_Eq in H. congruence.
  - apply desc_nulls_last_Lt in Hr. tauto.
  - split; [discriminate|].
    intros [H|[H _]].
    + apply desc_nulls_last_Lt in H. congruence.
    + apply desc_nulls_last_Eq in H. congruence.
Qed.

(** The comparator of the default clause is the [recent] ordering. *)
Lemma recent_leb_order (env : Env) (a b : Book.t) :
  order_leb env ByRecent a b = true <-> recent_order a b.
Proof.
  unfold order_leb, order_cmp, recent_cmp, recent_order.
  destruct (desc_nulls_last (Book.finished_on a) (Book.finished_on b))
    eqn:Hf; simpl.
  - apply desc_nulls_last_Eq in Hf.
    assert (Hirr : ~ strictly_before (Book.finished_on a) (Book.finished_on b)).
    { rewrite Hf. destruct (Book.finished_on b); simpl; lia. }
    destruct (Z.compare_spec (Book.id b) (Book.id a)) as [Hid|Hid|Hid]; simpl.
    + split; [|reflexivity]. intros _. right. split; [exact Hf|lia].
    + split; [|reflexivity]. intros _. right. split; [exact Hf|lia].
    + split; [discriminate|]. intros [Hs|[_ Hle]]; [tauto|lia].
  - apply desc_nulls_last_Lt in Hf. tauto.
  - split; [discriminate|].
    intros [Hs|[He _]].
    + apply desc_nulls_last_Lt in Hs. congruence.
    + apply desc_nulls_last_Eq in He. congruence.
Qed.

Ltac split_keys :=
  repeat match goal with
         | |- context [Z.compare ?x ?y] => destruct (Z.compare_spec x y)
         | H : context [Z.compare ?x ?y] |- _ => destruct (Z.compare_spec x y)
         end;
  simpl in *; subst; try reflexivity; try discriminate; try lia.

(** The two clauses on numbers and dates compare any two rows, whatever
    the store; the clause on titles compares them as the collation of the
    store does. *)
Lemma order_leb_total (env : Env) (o : OrderBy) (a b : Book.t) :
  o <> ByTitle ->
  order_leb env o a b = true \/ order_leb env o b a = true.
Proof.
  intros Ho. destruct o; [| now elim Ho |]; unfold order_leb, order_cmp.
  - unfold rating_cmp, desc_nulls_last.
    destruct (Book.rating a), (Book.rating b),
      (Book.finished_on a), (Book.finished_on b); simpl;
      split_keys; auto.
  - unfold recent_cmp, desc_nulls_last.
    destruct (Book.finished_on a), (Book.finished_on b); simpl;
      split_keys; auto.
Qed.

Lemma order_leb_trans (env : Env) (o : OrderBy) (a b c : Book.t) :
  o <> ByTitle ->
  order_leb env o a b = true -> order_leb env o b c = true ->
  order_leb env o a c = true.
Proof.
  intros Ho. destruct o; [| now elim Ho |].
  - unfold order_leb, order_cmp, rating_cmp, desc_nulls_last.
    destruct (Book.rating a), (Book.rating b), (Book.rating c),
      (Book.finished_on a), (Book.finished_on b), (Book.finished_on c);
      simpl; intros H1 H2; split_keys.
  - unfold order_leb, order_cmp, recent_cmp, desc_nulls_last.
    destruct (Book.finished_on a), (Book.finished_on b), (Book.finished_on c);
      simpl; intros H1 H2; split_keys.
Qed.

(** [ORDER BY] keeps the selected rows and puts them in order. *)
Lemma order_by_perm (env : Env) (o : OrderBy) (rows : list Book.t) :
  Permutation rows (order_by env o rows).
Proof. apply sort_by_perm. Qed.

Lemma order_by_sorted (env : Env) (o : OrderBy) (rows : list Book.t) :
  o <> ByTitle ->
  StronglySorted (fun a b => order_leb env o a b = true) (order_by env o rows).
Proof.
  intros Ho. apply sort_by_sorted.
  - intros x y. now apply order_leb_total.
  - intros x y z. now apply order_leb_trans.
Qed.





Lemma StronglySorted_impl (A : Type) (R S : A -> A -> Prop) (l : list A) :
  (forall x y, R x y -> S x y) -> StronglySorted R l -> StronglySorted S l.
Proof.
  intros HRS. induction 1 as [|x l Hs IH Hx]; constructor.
  - exact IH.
  - eapply Forall_impl; [|exact Hx]. intros y. apply HRS.
Qed.

Lemma where_user_owner (uid : Z) (b : Book.t) :
  where_user (Some uid) b = true <-> Book.user_id b = Some uid.
Proof.
  unfold where_user, sql_eqZ.
  destruct (Book.user_id b) as [o|]; [|easy].
  rewrite Z.eqb_eq. split; congruence.
Qed.

Lemma books_of_In (uid : Z) (d : Db) (b : Book.t) :
  In b (books_of uid d) <-> In b (books d) /\ Book.user_id b = Some uid.
Proof.
  unfold books_of. rewrite filter_In, where_user_owner. tauto.
Qed.

(** ** Listing *)

Section ListingFacts.
Variable env : Env.

Lemma int_param_number (z : Z) : int_param env (JNum (inject_Z z)) = Some (Some z).
Proof. reflexivity. Qed.

(** What [GET /] computes for a logged-in user: one ownership-filtered
    [SELECT], ordered by the clause picked from [?sort=]. *)
Lemma get_root_run (req : Request) (w : World) (u : SessionUser) :
  user req = Some u ->
  let sort := js_or (query_field req "sort") (JStr "recent") in
  AuthServer.get_root env req w =
  (Ok (Render (IndexEjs (order_by env (orderBy_of sort)
                                   (books_of (su_id u) (db w)))
                        sort)),
   emit (EQuery (sql (SelectBooksOfUser (orderBy_of sort)))
                [JNum (inject_Z (su_id u))]) w).
Proof.
  intros Hu sort.
  unfold AuthServer.get_root, try_catch, bind, req_user_id, db_query.
  rewrite Hu. reflexivity.
Qed.

Lemma orderBy_of_default (v : jsval) :
  v <> JStr "rating" -> v <> JStr "title" ->
  orderBy_of (js_or v (JStr "recent")) = ByRecent.
Proof.
  intros Hr Ht. unfold js_or.
  destruct (truthy v) eqn:Hv; [|reflexivity].
  unfold orderBy_of.
  destruct v as [| |b|q|s|l|l]; try reflexivity.
  simpl.
  destruct (String.eqb_spec s "rating") as [->|_]; [congruence|].
  destruct (String.eqb_spec s "title") as [->|_]; [congruence|].
  reflexivity.
Qed.

End ListingFacts.



(** C8.  For every user, listing with sort key [rating] returns exactly
    that user's books ordered by rating descending with unset ratings
    last, ties broken by finished date descending with unset dates last;
    with ratings 5, unset, 3 the order is 5, 3, unset. *)
Theorem list_by_rating :
  (forall (env : Env) (req : Request) (w : World) (u : SessionUser),
      user req = Some u ->
      query_field req "sort" = JStr "rating" ->
      exists bs,
        fst (AuthServer.get_root env req w)
        = Ok (Render (IndexEjs bs (JStr "rating"))) /\
        Permutation (books_of (su_id u) (db w)) bs /\
        StronglySorted rating_order bs) /\
  (forall env : Env,
      map Book.rating (books_of 1 (db alices_shelf))
      = [Some 5; None; Some 3] /\
      fst (AuthServer.get_root env
             (mkRequest (Some alice) (sort_query "rating") []) alices_shelf)
      = Ok (Render (IndexEjs [banana; cherry; Apple] (JStr "rating"))) /\
      map Book.rating [banana; cherry; Apple] = [Some 5; Some 3; None]).
Proof.
  split.
  - intros env req w u Hu Hs.
    rewrite (get_root_run env req w Hu). rewrite Hs. simpl.
    eexists. split; [reflexivity|]. split.
    + apply (order_by_perm env ByRating).
    + eapply StronglySorted_impl;
        [|apply (@order_by_sorted env ByRating); discriminate].
      intros x y. apply rating_leb_order.
  - intros env. repeat split.
Qed.

Lemma list_by_rating_witness :
  exists bs,
    fst (AuthServer.get_root test_env
           (mkRequest (Some alice) (sort_query "rating") []) alices_shelf)
    = Ok (Render (IndexEjs bs (JStr "rating"))) /\
    Permutation (books_of 1 (db alices_shelf)) bs /\
    StronglySorted rating_order bs.
Proof.
  apply (proj1 list_by_rating test_env
           (mkRequest (Some alice) (sort_query "rating") []) alices_shelf alice);
    reflexivity.
Defined.

(** C9.  For every user and every sort key other than [rating] and
    [title] (an unknown key, no key at all, or [recent] itself), listing
    returns all and only that user's books in the recent ordering:
    finished date descending with unset dates last, ties broken by
    identifier descending. *)
Theorem list_falls_back_to_recent
    (env : Env) (req : Request) (w : World) (u : SessionUser) :
  user req = Some u ->
  query_field req "sort" <> JStr "rating" ->
  query_field req "sort" <> JStr "title" ->
  exists bs sort,
    fst (AuthServer.get_root env req w) = Ok (Render (IndexEjs bs sort)) /\
    (forall b, In b bs <-> In b (books (db w)) /\ Book.user_id b = Some (su_id u)) /\
    Permutation (books_of (su_id u) (db w)) bs /\
    StronglySorted recent_order bs.
Proof.
  intros Hu Hr Ht.
  rewrite (get_root_run env req w Hu). simpl.
  rewrite (orderBy_of_default Hr Ht).
  eexists. eexists. split; [reflexivity|].
  assert (Hp := order_by_perm env ByRecent (books_of (su_id u) (db w))).
  split; [|split].
  - intros b. rewrite <- books_of_In.
    split; intros Hb.
    + eapply Permutation_in; [apply Permutation_sym|]; eassumption.
    + eapply Permutation_in; eassumption.
  - exact Hp.
  - eapply StronglySorted_impl;
      [|apply (@order_by_sorted env ByRecent); discriminate].
    intros x y. apply recent_leb_order.
Qed.

Lemma list_falls_back_to_recent_witness :
  exists bs sort,
    fst (AuthServer.get_root test_env
           (mkRequest (Some alice) (sort_query "newest") []) alices_shelf)
    = Ok (Render (IndexEjs bs sort)) /\
    (forall b, In b bs <->
               In b (books (db alices_shelf)) /\ Book.user_id b = Some 1) /\
    Permutation (books_of 1 (db alices_shelf)) bs /\
    StronglySorted recent_order bs.
Proof.
  apply (@list_falls_back_to_recent test_env
           (mkRequest (Some alice) (sort_query "newest") []) alices_shelf alice);
    [reflexivity | discriminate | discriminate].
Defined.

(** ** The tables stay well formed *)

Lemma NoDup_map_filter (A B : Type) (keep : A -> bool) (key : A -> B)
    (rows : list A) :
  NoDup (map key rows) -> NoDup (map key (filter keep rows)).
Proof.
  induction rows as [|x rows IH]; simpl; intros H; [exact H|].
  inversion H as [|? ? Hx Hl]; subst.
  destruct (keep x); simpl; [constructor|]; auto.
  intros Hin. apply Hx.
  apply in_map_iff in Hin. destruct Hin as [y [Hy Hin]].
  apply filter_In in Hin. apply in_map_iff. exists y. tauto.
Qed.

Lemma NoDup_snoc_fresh (l : list Z) (x : Z) :
  NoDup l -> (forall y, In y l -> y < x) -> NoDup (l ++ [x]).
Proof.
  intros Hl Hx.
  apply NoDup_rev in Hl. rewrite <- (rev_involutive (l ++ [x])).
  apply NoDup_rev. rewrite rev_app_distr. simpl.
  constructor; [|exact Hl].
  rewrite <- in_rev. intros Hin. specialize (Hx _ Hin). lia.
Qed.

Lemma update_keeps_ids (g : Book.t -> Book.t) (c : Book.t -> bool)
    (l : list Book.t) :
  (forall b, Book.id (g b) = Book.id b) ->
  map Book.id (map (fun b => if c b then g b else b) l) = map Book.id l.
Proof.
  intros Hg. rewrite map_map. apply map_ext.
  intros b. destruct (c b); auto.
Qed.

Section StoreFacts.
Variable env : Env.

Lemma update_books_wf (t a i r n f : jsval) (c : Book.t -> bool)
    (d d' : Db) (k : nat) :
  wf_db d -> update_books env t a i r n f c d = Some (k, d') -> wf_db d'.
Proof.
  intros (Hb & Hbs & Hu) H. unfold update_books, obind in H.
  destruct (int_param env r); [|discriminate].
  destruct (date_param env f); [|discriminate].
  destruct (text_param env t).
  - inversion H; subst; clear H. unfold wf_db, with_books; simpl.
    rewrite update_keeps_ids by reflexivity.
    split; [exact Hb|]. split; [|exact Hu].
    intros b Hin. apply in_map_iff in Hin. destruct Hin as [b0 [<- Hin]].
    specialize (Hbs _ Hin). destruct (c b0); exact Hbs.
  - destruct (existsb c (books d)); inversion H; subst.
    repeat split; tauto.
Qed.

Lemma insert_book_wf (t a i r n f : jsval) (uid : option Z)
    (d d' : Db) (k : nat) :
  wf_db d -> insert_book env t a i r n f uid d = Some (k, d') -> wf_db d'.
Proof.
  intros (Hb & Hbs & Hu) H. unfold insert_book, obind in H.
  destruct (int_param env r); [|discriminate].
  destruct (date_param env f); [|discriminate].
  destruct (text_param env t); [|discriminate].
  inversion H; subst; clear H. unfold wf_db; simpl.
  rewrite map_app. simpl.
  split; [now apply NoDup_snoc_fresh; [|intros y Hy; apply in_map_iff in Hy;
                                         destruct Hy as [b [<- Hy]]; auto]|].
  split; [|exact Hu].
  intros b Hin. apply in_app_or in Hin. destruct Hin as [Hin|[<-|[]]].
  - specialize (Hbs _ Hin). lia.
  - simpl. lia.
Qed.

Lemma delete_books_wf (c : Book.t -> bool) (d : Db) :
  wf_db d -> wf_db (snd (delete_books c d)).
Proof.
  intros (Hb & Hbs & Hu). unfold wf_db, delete_books, with_books; simpl.
  split; [now apply NoDup_map_filter|]. split; [|exact Hu].
  intros b Hin. apply filter_In in Hin. apply Hbs. tauto.
Qed.

Lemma insert_user_wf (e p : jsval) (d d' : Db) (rows : list SessionUser) :
  wf_db d -> insert_user env e p d = Some (rows, d') -> wf_db d'.
Proof.
  intros (Hb & Hbs & Hu & Hus & He) H. unfold insert_user, obind in H.
  destruct (text_param env e) as [e'|]; [|discriminate].
  destruct (text_param env p) as [p'|]; [|discriminate].
  destruct (existsb _ (users d)) eqn:Hex; [discriminate|].
  inversion H; subst; clear H. unfold wf_db; simpl.
  rewrite !map_app. simpl.
  split; [exact Hb|]. split; [exact Hbs|].
  split; [now apply NoDup_snoc_fresh; [|intros y Hy; apply in_map_iff in Hy;
                                         destruct Hy as [u [<- Hy]]; auto]|].
  split.
  - intros u Hin. apply in_app_or in Hin. destruct Hin as [Hin|[<-|[]]].
    + specialize (Hus _ Hin). lia.
    + simpl. lia.
  - apply NoDup_rev in He. rewrite <- (rev_involutive (_ ++ _)).
    apply NoDup_rev. rewrite rev_app_distr. simpl.
    constructor; [|exact He].
    rewrite <- in_rev. intros Hin.
    apply in_map_iff in Hin. destruct Hin as [u [Hue Hin]].
    assert (Hc : existsb (fun u => (User.email u =? e')%string) (users d) = true).
    { apply existsb_exists. exists u. split; [exact Hin|].
      now apply String.eqb_eq. }
    congruence.
Qed.

(** Every statement of either server keeps the keys unique. *)
Lemma exec_wf (R : Type) (s : Stmt R) (params : list jsval) (d d' : Db) (r : R) :
  wf_db d -> exec env s params d = Some (r, d') -> wf_db d'.
Proof.
  intros Hwf H.
  destruct s; simpl in H;
    repeat (destruct params as [|? params]; try discriminate);
    unfold obind in H;
    repeat match type of H with
           | context [int_param env ?v] =>
               destruct (int_param env v); [|discriminate]
           end;
    try (inversion H; subst; exact Hwf);
    try (eapply update_books_wf; eassumption);
    try (eapply insert_book_wf; eassumption);
    try (eapply insert_user_wf; eassumption);
    try (inversion H; subst; now apply delete_books_wf).
Qed.

(** A refused statement leaves the tables as they were, or as they were
    with one value drawn from one of the two sequences. *)
Lemma refused_cases (R : Type) (s : Stmt R) (params : list jsval) (d : Db) :
  refused env s params d = d \/
  refused env s params d = nextval_books d \/
  refused env s params d = nextval_users d.
Proof.
  destruct s; try (left; reflexivity); cbn [refused];
    repeat (destruct params as [|? params]; try (left; reflexivity)).
  - destruct (int_param env _); [|now left].
    destruct (book_params_bind env _ _); auto.
  - auto.
  - destruct (book_params_bind env _ _); auto.
Qed.

(** It changes no row of either table, and no sequence goes back. *)
Lemma refused_rows (R : Type) (s : Stmt R) (params : list jsval) (d : Db) :
  books (refused env s params d) = books d /\
  users (refused env s params d) = users d /\
  books_id_seq d <= books_id_seq (refused env s params d)
                 <= books_id_seq d + 1 /\
  users_id_seq d <= users_id_seq (refused env s params d)
                 <= users_id_seq d + 1.
Proof.
  destruct (refused_cases s params d) as [-> | [-> | ->]];
    unfold nextval_books, nextval_users; cbn; repeat split; lia.
Qed.

(** Only an INSERT into [users] draws from the sequence of [users]. *)
Lemma refused_books_only (R : Type) (s : Stmt R) (params : list jsval)
    (d : Db) :
  match s with
  | InsertUser => False
  | _ => True
  end ->
  users_id_seq (refused env s params d) = users_id_seq d.
Proof.
  destruct s; try contradiction; intros _; try reflexivity; cbn [refused];
    repeat (destruct params as [|? params]; try reflexivity).
  - destruct (int_param env _); [|reflexivity].
    destruct (book_params_bind env _ _); reflexivity.
  - destruct (book_params_bind env _ _); reflexivity.
Qed.

Lemma refused_wf (R : Type) (s : Stmt R) (params : list jsval) (d : Db) :
  wf_db d -> wf_db (refused env s params d).
Proof.
  intros (Hb & Hbs & Hu & Hus & He).
  destruct (refused_rows s params d) as (Eb & Eu & Lb & Lu).
  unfold wf_db. rewrite Eb, Eu. repeat split; try assumption.
  - intros b Hin. specialize (Hbs b Hin). lia.
  - intros u Hin. specialize (Hus u Hin). lia.
Qed.

End StoreFacts.

(** ** Every handler keeps the tables well formed *)

Lemma keeps_wf_ret (A : Type) (a : A) : keeps_wf (ret a).
Proof. intros w H. exact H. Qed.

Lemma keeps_wf_throw (A : Type) (e : Exn) : keeps_wf (@throw A e).
Proof. intros w H. exact H. Qed.

Lemma keeps_wf_bind (A B : Type) (m : M A) (k : A -> M B) :
  keeps_wf m -> (forall a, keeps_wf (k a)) -> keeps_wf (bind m k).
Proof.
  intros Hm Hk w H. unfold bind. specialize (Hm w H).
  destruct (m w) as [[a|e] w']; simpl in *; [now apply Hk|exact Hm].
Qed.

Lemma keeps_wf_try_catch (A : Type) (m : M A) (h : Exn -> M A) :
  keeps_wf m -> (forall e, keeps_wf (h e)) -> keeps_wf (try_catch m h).
Proof.
  intros Hm Hh w H. unfold try_catch. specialize (Hm w H).
  destruct (m w) as [[a|e] w']; simpl in *; [exact Hm|now apply Hh].
Qed.

Lemma keeps_wf_db_query (env : Env) (R : Type) (s : Stmt R)
    (params : list jsval) :
  keeps_wf (db_query env s params).
Proof.
  intros w H. unfold db_query.
  destruct (exec env s params (db w)) as [[r d']|] eqn:He; simpl;
    [|now apply refused_wf].
  eapply exec_wf; eassumption.
Qed.

Lemma keeps_wf_same_db (A : Type) (m : M A) :
  (forall w, db (snd (m w)) = db w) -> keeps_wf m.
Proof. intros Hm w H. now rewrite Hm. Qed.

Lemma keeps_wf_fetchCoverUrl (env : Env) (isbn : string) :
  keeps_wf (fetchCoverUrl env isbn).
Proof.
  apply keeps_wf_same_db. intros w.
  unfold fetchCoverUrl, try_catch, bind, axios_get_data, js_index.
  destruct (js_not (JStr isbn)); [reflexivity|].
  destruct (axios_get env _ _ _) as [data|msg]; [|reflexivity].
  destruct (js_get data _); reflexivity.
Qed.

Ltac keep_wf :=
  repeat first
    [ apply keeps_wf_ret
    | apply keeps_wf_throw
    | apply keeps_wf_db_query
    | apply keeps_wf_fetchCoverUrl
    | apply keeps_wf_same_db; intros ?; reflexivity
    | apply keeps_wf_bind; [|intros ?]
    | apply keeps_wf_try_catch; [|intros ?]
    | match goal with
      | |- keeps_wf (if ?c then _ else _) => destruct c
      | |- keeps_wf (match ?x with _ => _ end) => destruct x
      end ].

(** X21.  The four book handlers of [src/index.js] keep the identifiers of
    [books] unique and below the next value of the sequence. *)
Lemma keeps_wf_index_js (env : Env) (id : string) (req : Request) :
  keeps_wf (IndexJs.get_books_id_edit env id req) /\
  keeps_wf (IndexJs.post_books env req) /\
  keeps_wf (IndexJs.post_books_id_edit env id req) /\
  keeps_wf (IndexJs.post_books_id_delete env id req).
Proof.
  unfold IndexJs.get_books_id_edit, IndexJs.post_books,
    IndexJs.post_books_id_edit, IndexJs.post_books_id_delete.
  split; [|split; [|split]]; keep_wf.
Qed.

Lemma keeps_wf_route (env : Env) (r : AuthServer.Route) (req : Request) :
  keeps_wf (AuthServer.route env r req).
Proof.
  unfold AuthServer.route, AuthServer.requireAuth.
  destruct r; simpl;
    unfold AuthServer.get_root, AuthServer.get_books_new,
      AuthServer.get_books_id_edit, AuthServer.post_books,
      AuthServer.post_books_id_edit, AuthServer.post_books_id_delete,
      AuthServer.get_login, AuthServer.get_register,
      AuthServer.post_register, AuthServer.post_login,
      AuthServer.local_strategy, AuthServer.verify, AuthServer.post_logout,
      get_api_cover, req_user_id, bcrypt_hash_js, bcrypt_compare_js;
    keep_wf.
Qed.

(** X17.  The invariant behind the ownership statements: starting from well
    formed tables, every request leaves them well formed. *)
Lemma app_keeps_wf (env : Env) (r : AuthServer.Route)
    (q b : list (string * jsval)) (w : World) :
  wf_db (db w) -> wf_db (db (snd (AuthServer.app env r q b w))).
Proof.
  intros H. unfold AuthServer.app.
  assert (Hs : wf_db (db (snd (AuthServer.passport_session env w)))).
  { unfold AuthServer.passport_session.
    destruct (session w) as [sid|]; [|exact H].
    assert (Hd : keeps_wf (AuthServer.deserializeUser env sid))
      by (unfold AuthServer.deserializeUser; keep_wf).
    specialize (Hd w H).
    destruct (AuthServer.deserializeUser env sid w) as [[[u|]|e] w'];
      exact Hd. }
  destruct (AuthServer.passport_session env w) as [[u|e] w1]; simpl in *;
    [|exact Hs].
  assert (Hr := @keeps_wf_route env r (mkRequest u q b) w1 Hs).
  destruct (AuthServer.route env r (mkRequest u q b) w1) as [[res|e] w2];
    exact Hr.
Qed.

Lemma empty_db_wf : wf_db (mkDb [] [] 1 1).
Proof.
  unfold wf_db; simpl. repeat split; try constructor; intros ? [].
Qed.

(** ** Statements that match no row *)

Section NoMatch.
Variable c : Book.t -> bool.
Variable l : list Book.t.
Hypothesis none : forall b, In b l -> c b = false.

Lemma filter_none : filter c l = [].
Proof using none.
  induction l as [|x l' IH]; simpl; [reflexivity|].
  rewrite (none x) by (now left). apply IH.
  intros b Hb. apply none. now right.
Qed.

Lemma filter_out_none : filter (fun b => negb (c b)) l = l.
Proof using none.
  induction l as [|x l' IH]; simpl; [reflexivity|].
  rewrite (none x) by (now left). simpl. f_equal. apply IH.
  intros b Hb. apply none. now right.
Qed.

Lemma update_none (g : Book.t -> Book.t) :
  map (fun b => if c b then g b else b) l = l.
Proof using none.
  induction l as [|x l' IH]; simpl; [reflexivity|].
  rewrite (none x) by (now left). f_equal. apply IH.
  intros b Hb. apply none. now right.
Qed.

Lemma existsb_none : existsb c l = false.
Proof using none.
  induction l as [|x l' IH]; simpl; [reflexivity|].
  rewrite (none x) by (now left). apply IH.
  intros b Hb. apply none. now right.
Qed.

Lemma count_none : count c l = 0%nat.
Proof using none. unfold count. now rewrite filter_none. Qed.

End NoMatch.

Lemma with_books_same (d : Db) : with_books d (books d) = d.
Proof. now destruct d. Qed.

Section OwnershipFacts.
Variable env : Env.

Lemma update_books_none (t a i r n f : jsval) (c : Book.t -> bool) (d : Db)
    (r' f' : option Z) :
  (forall b, In b (books d) -> c b = false) ->
  int_param env r = Some r' ->
  date_param env f = Some f' ->
  update_books env t a i r n f c d = Some (0%nat, d).
Proof.
  intros Hc Hr Hf. unfold update_books, obind. rewrite Hr, Hf.
  destruct (text_param env t).
  - now rewrite count_none, update_none, with_books_same.
  - now rewrite existsb_none.
Qed.

Lemma update_books_none_db (t a i r n f : jsval) (c : Book.t -> bool)
    (d d' : Db) (k : nat) :
  (forall b, In b (books d) -> c b = false) ->
  update_books env t a i r n f c d = Some (k, d') -> d' = d.
Proof.
  intros Hc H.
  destruct (int_param env r) as [r'|] eqn:Hr;
    [|unfold update_books, obind in H; rewrite Hr in H; discriminate].
  destruct (date_param env f) as [f'|] eqn:Hf;
    [|unfold update_books, obind in H; rewrite Hr, Hf in H; discriminate].
  rewrite (@update_books_none t a i r n f c d r' f' Hc Hr Hf) in H.
  congruence.
Qed.

Lemma delete_books_none (c : Book.t -> bool) (d : Db) :
  (forall b, In b (books d) -> c b = false) ->
  delete_books c d = (0%nat, d).
Proof.
  intros Hc. unfold delete_books.
  now rewrite count_none, filter_out_none, with_books_same.
Qed.

(** The route parameter in the [id] position of a statement. *)
Lemma int_param_route (id : string) :
  int_param env (JStr id) = option_map Some (int4in env id).
Proof. reflexivity. Qed.

Lemma no_row_where (uid : Z) (id : string) (d : Db) (bid : Z) :
  no_row_of env uid id d ->
  int4in env id = Some bid ->
  forall b, In b (books d) -> where_id_user (Some bid) (Some uid) b = false.
Proof.
  intros Hno Hid b Hb. specialize (Hno b Hb).
  unfold where_id_user, sql_eqZ.
  destruct (Z.eqb_spec (Book.id b) bid) as [Heq|]; [|reflexivity].
  destruct (Book.user_id b) as [o|]; [|reflexivity]. simpl.
  destruct (Z.eqb_spec o uid) as [->|]; [|reflexivity].
  exfalso. apply Hno. split; congruence.
Qed.

(** [DELETE ... WHERE id = $1 AND user_id = $2] on a parameter pair that
    selects nothing. *)
Lemma delete_of_user_run (id : string) (req : Request) (w : World)
    (u : SessionUser) :
  user req = Some u ->
  no_row_of env (su_id u) id (db w) ->
  AuthServer.post_books_id_delete env id req w =
  (match int4in env id with
   | Some _ => Ok (Redirect "/")
   | None => Ok (Send 500 "Error deleting book")
   end,
   emit (EQuery (sql DeleteBookOfUser) [JStr id; JNum (inject_Z (su_id u))]) w).
Proof.
  intros Hu Hno.
  unfold AuthServer.post_books_id_delete, try_catch, bind, req_user_id,
    db_query, ret.
  rewrite Hu. simpl. unfold obind.
  change (match int4in env id with Some s => Some (Some s) | None => None end)
    with (option_map Some (int4in env id)).
  destruct (int4in env id) as [bid|] eqn:Hid; simpl; [|reflexivity].
  rewrite filter_out_none by (apply (no_row_where Hno Hid)).
  now rewrite with_books_same.
Qed.

End OwnershipFacts.

(** ** What each book handler does with its one statement *)

Ltac run_handler Hu :=
  unfold try_catch, bind, req_user_id, db_query, ret;
  try rewrite Hu; cbv beta iota;
  match goal with
  | |- context [exec ?e ?s ?p ?d] => destruct (exec e s p d) as [[? ?]|]
  end;
  reflexivity.

Section HandlerRuns.
Variable env : Env.
Variables (req : Request) (w : World) (u : SessionUser).
Hypothesis Hu : user req = Some u.

Let uid : jsval := JNum (inject_Z (su_id u)).
Let title := field (body req) "title".
Let author := js_or (field (body req) "author") JNull.
Let isbn := js_or (field (body req) "isbn") JNull.
Let rating := js_or (field (body req) "rating") JNull.
Let notes := js_or (field (body req) "notes") JNull.
Let finished_on := js_or (field (body req) "finished_on") JNull.

Lemma auth_edit_form_run (id : string) :
  AuthServer.get_books_id_edit env id req w =
  match exec env SelectBookOfUser [JStr id; uid] (db w) with
  | Some ([], d') =>
      (Ok (Send 404 "Book not found"),
       mkWorld d' (session w) (entropy w)
               (trace w ++ [EQuery (sql SelectBookOfUser) [JStr id; uid]]))
  | Some (row :: _, d') =>
      (Ok (Render (BookFormEjs (Some row) ("/books/" ++ id ++ "/edit")
                               "POST" "Edit book")),
       mkWorld d' (session w) (entropy w)
               (trace w ++ [EQuery (sql SelectBookOfUser) [JStr id; uid]]))
  | None =>
      (Ok (Send 500 "Error loading book"),
       emit (EQuery (sql SelectBookOfUser) [JStr id; uid]) w)
  end.
Proof using Hu.
  unfold AuthServer.get_books_id_edit, try_catch, bind, req_user_id,
    db_query, ret.
  rewrite Hu. cbv beta iota. subst uid.
  destruct (exec env SelectBookOfUser _ (db w)) as [[[|row rows] d']|];
    reflexivity.
Qed.

Lemma auth_create_run :
  let params := [title; author; isbn; rating; notes; finished_on; uid] in
  AuthServer.post_books env req w =
  match exec env InsertBookOfUser params (db w) with
  | Some (_, d') =>
      (Ok (Redirect "/"),
       mkWorld d' (session w) (entropy w)
               (trace w ++ [EQuery (sql InsertBookOfUser) params]))
  | None =>
      (Ok (Send 500 "Error creating book"),
       mkWorld (refused env InsertBookOfUser params (db w)) (session w)
               (entropy w)
               (trace w ++ [EQuery (sql InsertBookOfUser) params]))
  end.
Proof using Hu.
  intros params. subst params uid title author isbn rating notes finished_on.
  unfold AuthServer.post_books. run_handler Hu.
Qed.

Lemma auth_update_run (id : string) :
  let params :=
    [title; author; isbn; rating; notes; finished_on; JStr id; uid] in
  AuthServer.post_books_id_edit env id req w =
  match exec env UpdateBookOfUser params (db w) with
  | Some (_, d') =>
      (Ok (Redirect "/"),
       mkWorld d' (session w) (entropy w)
               (trace w ++ [EQuery (sql UpdateBookOfUser) params]))
  | None =>
      (Ok (Send 500 "Error updating book"),
       emit (EQuery (sql UpdateBookOfUser) params) w)
  end.
Proof using Hu.
  intros params. subst params uid title author isbn rating notes finished_on.
  unfold AuthServer.post_books_id_edit. run_handler Hu.
Qed.

Lemma auth_delete_run (id : string) :
  AuthServer.post_books_id_delete env id req w =
  match exec env DeleteBookOfUser [JStr id; uid] (db w) with
  | Some (_, d') =>
      (Ok (Redirect "/"),
       mkWorld d' (session w) (entropy w)
               (trace w ++ [EQuery (sql DeleteBookOfUser) [JStr id; uid]]))
  | None =>
      (Ok (Send 500 "Error deleting book"),
       emit (EQuery (sql DeleteBookOfUser) [JStr id; uid]) w)
  end.
Proof using Hu.
  subst uid. unfold AuthServer.post_books_id_delete. run_handler Hu.
Qed.

End HandlerRuns.

Section IndexJsRuns.
Variable env : Env.
Variables (req : Request) (w : World).

Let title := field (body req) "title".
Let author := js_or (field (body req) "author") JNull.
Let isbn := js_or (field (body req) "isbn") JNull.
Let rating := js_or (field (body req) "rating") JNull.
Let notes := js_or (field (body req) "notes") JNull.
Let finished_on := js_or (field (body req) "finished_on") JNull.

Lemma index_create_run :
  let params := [title; author; isbn; rating; notes; finished_on] in
  IndexJs.post_books env req w =
  match exec env InsertBook params (db w) with
  | Some (_, d') =>
      (Ok (Redirect "/"),
       mkWorld d' (session w) (entropy w)
               (trace w ++ [EQuery (sql InsertBook) params]))
  | None =>
      (Ok (Send 500 "Error creating book"),
       mkWorld (refused env InsertBook params (db w)) (session w) (entropy w)
               (trace w ++ [EQuery (sql InsertBook) params]))
  end.
Proof.
  intros params. subst params title author isbn rating notes finished_on.
  unfold IndexJs.post_books.
  unfold try_catch, bind, db_query, ret. cbv beta iota.
  destruct (exec env InsertBook _ (db w)) as [[? ?]|]; reflexivity.
Qed.

Lemma index_update_run (id : string) :
  let params := [title; author; isbn; rating; notes; finished_on; JStr id] in
  IndexJs.post_books_id_edit env id req w =
  match exec env UpdateBook params (db w) with
  | Some (_, d') =>
      (Ok (Redirect "/"),
       mkWorld d' (session w) (entropy w)
               (trace w ++ [EQuery (sql UpdateBook) params]))
  | None =>
      (Ok (Send 500 "Error updating book"),
       emit (EQuery (sql UpdateBook) params) w)
  end.
Proof.
  intros params. subst params title author isbn rating notes finished_on.
  unfold IndexJs.post_books_id_edit.
  unfold try_catch, bind, db_query, ret. cbv beta iota.
  destruct (exec env UpdateBook _ (db w)) as [[? ?]|]; reflexivity.
Qed.

End IndexJsRuns.

(** ** Ownership-scoped statements that select nothing *)

Lemma NoDup_map_inj (A B : Type) (f : A -> B) (l : list A) (x y : A) :
  NoDup (map f l) -> In x l -> In y l -> f x = f y -> x = y.
Proof.
  induction l as [|z l IH]; simpl; intros Hnd Hx Hy Hf; [contradiction|].
  inversion Hnd as [|? ? Hz Hl]; subst.
  destruct Hx as [->|Hx], Hy as [->|Hy]; auto.
  - exfalso. apply Hz. rewrite Hf. now apply in_map.
  - exfalso. apply Hz. rewrite <- Hf. now apply in_map.
Qed.

Section ScopedFacts.
Variable env : Env.
Variables (req : Request) (w : World) (u : SessionUser) (id : string).
Hypothesis Hu : user req = Some u.
Hypothesis Hno : no_row_of env (su_id u) id (db w).

Let uid : jsval := JNum (inject_Z (su_id u)).

Lemma exec_select_none (bid : Z) :
  int4in env id = Some bid ->
  exec env SelectBookOfUser [JStr id; uid] (db w) = Some ([], db w).
Proof using Hno.
  intros Hid. subst uid. simpl. rewrite Hid. simpl.
  unfold select_books. rewrite filter_none; [reflexivity|].
  now apply no_row_where with (id := id) (env := env).
Qed.

Lemma exec_delete_none (bid : Z) :
  int4in env id = Some bid ->
  exec env DeleteBookOfUser [JStr id; uid] (db w) = Some (0%nat, db w).
Proof using Hno.
  intros Hid. subst uid. simpl. rewrite Hid. simpl.
  rewrite delete_books_none; [reflexivity|].
  now apply no_row_where with (id := id) (env := env).
Qed.

Lemma exec_update_none (t a i r n f : jsval) (bid : Z) (r' f' : option Z) :
  int4in env id = Some bid ->
  int_param env r = Some r' ->
  date_param env f = Some f' ->
  exec env UpdateBookOfUser [t; a; i; r; n; f; JStr id; uid] (db w)
  = Some (0%nat, db w).
Proof using Hno.
  intros Hid Hr Hf. subst uid.
  unfold exec. rewrite int_param_route, Hid, int_param_number. simpl.
  eapply update_books_none; eauto.
  now apply no_row_where with (id := id) (env := env).
Qed.

Lemma exec_update_none_db (t a i r n f : jsval) (k : nat) (d' : Db) :
  exec env UpdateBookOfUser [t; a; i; r; n; f; JStr id; uid] (db w)
  = Some (k, d') ->
  d' = db w.
Proof using Hno.
  subst uid. unfold exec. rewrite int_param_route, int_param_number.
  destruct (int4in env id) as [bid|] eqn:Hid; simpl; [|discriminate].
  apply update_books_none_db.
  now apply no_row_where with (id := id) (env := env).
Qed.

(** The edit form for an identifier that selects none of the caller's
    rows. *)
Lemma auth_edit_form_not_found (bid : Z) :
  int4in env id = Some bid ->
  AuthServer.get_books_id_edit env id req w =
  (Ok (Send 404 "Book not found"),
   emit (EQuery (sql SelectBookOfUser) [JStr id; uid]) w).
Proof using Hu Hno.
  intros Hid. rewrite (@auth_edit_form_run env req w u Hu id).
  fold uid. rewrite (exec_select_none Hid). reflexivity.
Qed.

Lemma auth_update_noop_db :
  db (snd (AuthServer.post_books_id_edit env id req w)) = db w.
Proof using Hu Hno.
  rewrite (@auth_update_run env req w u Hu id). cbv zeta. fold uid.
  destruct (exec env UpdateBookOfUser _ (db w)) as [[k d']|] eqn:He;
    [|reflexivity].
  apply exec_update_none_db in He. now subst.
Qed.

Lemma auth_update_noop_ok (bid : Z) (r' f' : option Z) :
  int4in env id = Some bid ->
  int_param env (js_or (field (body req) "rating") JNull) = Some r' ->
  date_param env (js_or (field (body req) "finished_on") JNull) = Some f' ->
  fst (AuthServer.post_books_id_edit env id req w) = Ok (Redirect "/").
Proof using Hu Hno.
  intros Hid Hr Hf.
  rewrite (@auth_update_run env req w u Hu id). cbv zeta. fold uid.
  now rewrite (@exec_update_none _ _ _ _ _ _ _ _ _ Hid Hr Hf).
Qed.

Lemma auth_delete_noop_db :
  db (snd (AuthServer.post_books_id_delete env id req w)) = db w.
Proof using Hu Hno.
  now rewrite (@delete_of_user_run env id req w u Hu Hno).
Qed.

Lemma auth_delete_noop_ok (bid : Z) :
  int4in env id = Some bid ->
  fst (AuthServer.post_books_id_delete env id req w) = Ok (Redirect "/").
Proof using Hu Hno.
  intros Hid. rewrite (@delete_of_user_run env id req w u Hu Hno).
  now rewrite Hid.
Qed.

End ScopedFacts.

(** C5.  When no row matches both the book identifier and the caller's
    identifier, the update and the delete are silent no-ops: the tables
    are left as they were and, the statement being accepted, zero rows
    are affected and the handler answers with its usual redirect.  A
    book identifier that does not exist at all is one such case. *)
Theorem unmatched_update_and_delete_are_noops
    (env : Env) (req : Request) (w : World) (u : SessionUser) (id : string) :
  user req = Some u ->
  no_row_of env (su_id u) id (db w) ->
  let uid := JNum (inject_Z (su_id u)) in
  let fields :=
    [field (body req) "title";
     js_or (field (body req) "author") JNull;
     js_or (field (body req) "isbn") JNull;
     js_or (field (body req) "rating") JNull;
     js_or (field (body req) "notes") JNull;
     js_or (field (body req) "finished_on") JNull] in
  db (snd (AuthServer.post_books_id_edit env id req w)) = db w /\
  db (snd (AuthServer.post_books_id_delete env id req w)) = db w /\
  (forall bid, int4in env id = Some bid ->
     exec env DeleteBookOfUser [JStr id; uid] (db w) = Some (0%nat, db w) /\
     fst (AuthServer.post_books_id_delete env id req w) = Ok (Redirect "/")) /\
  (forall bid r f,
     int4in env id = Some bid ->
     int_param env (js_or (field (body req) "rating") JNull) = Some r ->
     date_param env (js_or (field (body req) "finished_on") JNull) = Some f ->
     exec env UpdateBookOfUser (fields ++ [JStr id; uid]) (db w)
     = Some (0%nat, db w) /\
     fst (AuthServer.post_books_id_edit env id req w) = Ok (Redirect "/")).
Proof.
  intros Hu Hno uid fields. repeat split.
  - now apply auth_update_noop_db with (u := u).
  - now apply auth_delete_noop_db with (u := u).
  - now apply exec_delete_none with (bid := bid).
  - now apply auth_delete_noop_ok with (u := u) (bid := bid).
  - subst fields. simpl. eapply exec_update_none; eauto.
  - eapply auth_update_noop_ok; eauto.
Qed.

Lemma alice_has_no_book_99 : no_row_of test_env 1 "99" (db alices_shelf).
Proof.
  intros b Hb [Hid _]. vm_compute in Hid.
  simpl in Hb. destruct Hb as [<-|[<-|[<-|[<-|[]]]]]; discriminate.
Defined.

Lemma unmatched_update_and_delete_are_noops_witness :
  let req := mkRequest (Some alice) []
               (book_form "Emma" "Jane Austen" "9780141439587" "4" "reread"
                          "20240131") in
  db (snd (AuthServer.post_books_id_edit test_env "99" req alices_shelf))
  = db alices_shelf /\
  db (snd (AuthServer.post_books_id_delete test_env "99" req alices_shelf))
  = db alices_shelf.
Proof.
  intros req.
  destruct (@unmatched_update_and_delete_are_noops test_env req alices_shelf
              alice "99" eq_refl alice_has_no_book_99) as (Hupd & Hdel & _).
  split; [exact Hupd | exact Hdel].
Defined.

(** ** Cross-user access *)

Section IsolationFacts.
Variable env : Env.

Lemma stranger_has_no_row (d : Db) (u1 u2 : Z) (b : Book.t) (id : string) :
  wf_db d ->
  u1 <> u2 ->
  In b (books d) ->
  Book.user_id b = Some u2 ->
  int4in env id = Some (Book.id b) ->
  no_row_of env u1 id d.
Proof.
  intros (Hnd & _) Hne Hb Hown Hid b' Hb' [Hid' Hown'].
  assert (b' = b).
  { apply (NoDup_map_inj Book.id (books d)); auto. congruence. }
  subst b'. congruence.
Qed.

Lemma auth_list_owned (req : Request) (w : World) (u : SessionUser)
    (bs : list Book.t) (sort : jsval) (b : Book.t) :
  user req = Some u ->
  fst (AuthServer.get_root env req w) = Ok (Render (IndexEjs bs sort)) ->
  In b bs ->
  In b (books (db w)) /\ Book.user_id b = Some (su_id u).
Proof.
  intros Hu Hrun Hb. rewrite (@get_root_run env req w u Hu) in Hrun.
  simpl in Hrun. inversion Hrun; subst; clear Hrun.
  apply books_of_In.
  eapply Permutation_in; [apply Permutation_sym, order_by_perm|exact Hb].
Qed.

End IsolationFacts.

(** C1, as the code has it.  In the session-authenticated server a user
    cannot read, edit or delete a book of another user: the edit form
    answers "Book not found", the update and the delete leave the tables
    as they were, the listing never shows the book, and each of the three
    statements carries the book identifier and the caller's identifier in
    its WHERE clause.  (The server of [src/index.js] has no users and
    filters on the book identifier alone.) *)
Theorem cross_user_isolation :
  refuses_strangers AuthServer.get_books_id_edit
                    AuthServer.post_books_id_edit
                    AuthServer.post_books_id_delete /\
  (forall (env : Env) (w : World) (u1 : SessionUser) (u2 : Z) (b : Book.t)
          (q bd : list (string * jsval)) (bs : list Book.t) (sort : jsval),
      su_id u1 <> u2 ->
      Book.user_id b = Some u2 ->
      fst (AuthServer.get_root env (mkRequest (Some u1) q bd) w)
      = Ok (Render (IndexEjs bs sort)) ->
      ~ In b bs) /\
  (forall (env : Env) (w : World) (u : SessionUser) (id : string)
          (q bd : list (string * jsval)),
      let req := mkRequest (Some u) q bd in
      let uid := JNum (inject_Z (su_id u)) in
      trace (snd (AuthServer.get_books_id_edit env id req w))
      = (trace w ++
         [EQuery "SELECT * FROM books WHERE id = $1 AND user_id = $2"
                 [JStr id; uid]])%list /\
      trace (snd (AuthServer.post_books_id_delete env id req w))
      = (trace w ++
         [EQuery "DELETE FROM books WHERE id = $1 AND user_id = $2"
                 [JStr id; uid]])%list /\
      exists t a i r n f,
        trace (snd (AuthServer.post_books_id_edit env id req w))
        = (trace w ++
           [EQuery "UPDATE books SET title = $1, author = $2, isbn = $3, rating = $4, notes = $5, finished_on = $6 WHERE id = $7 AND user_id = $8"
                   [t; a; i; r; n; f; JStr id; uid]])%list).
Proof.
  split; [|split].
  - intros env w u1 u2 b id q bd Hwf Hne Hb Hown Hid req.
    assert (Hno : no_row_of env (su_id u1) id (db w))
      by (eapply stranger_has_no_row; eauto).
    assert (Hu : user req = Some u1) by reflexivity.
    split; [|split].
    + now rewrite (@auth_edit_form_not_found env req w u1 id Hu Hno _ Hid).
    + now apply auth_update_noop_db with (u := u1).
    + now apply auth_delete_noop_db with (u := u1).
  - intros env w u1 u2 b q bd bs sort Hne Hown Hrun Hin.
    destruct (@auth_list_owned env (mkRequest (Some u1) q bd) w u1 bs sort b
                eq_refl Hrun Hin) as [_ Hown'].
    congruence.
  - intros env w u id q bd req uid.
    assert (Hu : user req = Some u) by reflexivity.
    split; [|split].
    + rewrite (@auth_edit_form_run env req w u Hu id). fold uid.
      destruct (exec env SelectBookOfUser _ (db w)) as [[[|row rows] d']|];
        reflexivity.
    + rewrite (@auth_delete_run env req w u Hu id). fold uid.
      destruct (exec env DeleteBookOfUser _ (db w)) as [[k d']|];
        reflexivity.
    + do 6 eexists.
      rewrite (@auth_update_run env req w u Hu id). cbv zeta. fold uid.
      destruct (exec env UpdateBookOfUser _ (db w)) as [[k d']|];
        reflexivity.
Qed.

Lemma bobs_shelf_wf : wf_db (db bobs_shelf).
Proof.
  unfold wf_db; simpl. repeat split.
  - repeat constructor; simpl; tauto.
  - intros b [<-|[]]. reflexivity.
  - repeat constructor; simpl; intuition discriminate.
  - intros u [<-|[<-|[]]]; reflexivity.
  - repeat constructor; simpl; intuition discriminate.
Defined.

Lemma cross_user_isolation_witness :
  let req := mkRequest (Some alice) [] (book_form "Mine" "me" "1" "5" "mine" "20240101") in
  fst (AuthServer.get_books_id_edit test_env "1" req bobs_shelf)
  = Ok (Send 404 "Book not found") /\
  db (snd (AuthServer.post_books_id_edit test_env "1" req bobs_shelf))
  = db bobs_shelf /\
  db (snd (AuthServer.post_books_id_delete test_env "1" req bobs_shelf))
  = db bobs_shelf.
Proof.
  apply (proj1 cross_user_isolation test_env bobs_shelf alice 2 bobs_book "1"
           [] (book_form "Mine" "me" "1" "5" "mine" "20240101") bobs_shelf_wf).
  - discriminate.
  - left. reflexivity.
  - reflexivity.
  - reflexivity.
Defined.

(** C1 as stated fails on [src/index.js]: there the edit form shows bob's
    book to any caller. *)
Lemma index_js_serves_strangers :
  ~ refuses_strangers IndexJs.get_books_id_edit IndexJs.post_books_id_edit
                      IndexJs.post_books_id_delete.
Proof.
  intros H.
  destruct (H test_env bobs_shelf alice 2 bobs_book "1" [] []
              bobs_shelf_wf) as (Hform & _).
  - discriminate.
  - left. reflexivity.
  - reflexivity.
  - reflexivity.
  - vm_compute in Hform. discriminate.
Qed.

(** On [src/index.js] the delete removes bob's book whoever asks. *)
Example index_js_deletes_for_strangers :
  books (db (snd (IndexJs.post_books_id_delete test_env "1"
                    (mkRequest (Some alice) [] []) bobs_shelf))) = [].
Proof. reflexivity. Qed.

Lemma filter_head (A : Type) (p : A -> bool) (l : list A) (x : A)
    (rest : list A) :
  filter p l = x :: rest -> In x l /\ p x = true.
Proof.
  intros H. apply filter_In. rewrite H. now left.
Qed.

Lemma filter_nil_iff (A : Type) (p : A -> bool) (l : list A) :
  filter p l = [] <-> forall x, In x l -> p x = false.
Proof.
  split.
  - intros H x Hx. destruct (p x) eqn:Hp; [|reflexivity].
    assert (Hin : In x (filter p l)) by (apply filter_In; tauto).
    rewrite H in Hin. contradiction.
  - intros H. induction l as [|y l IH]; simpl; [reflexivity|].
    rewrite (H y) by (now left). apply IH. intros x Hx. apply H. now right.
Qed.

(** ** The guard *)

Section GuardFacts.
Variable env : Env.

Lemma requireAuth_anonymous (req : Request) (next : M Response) (w : World) :
  user req = None ->
  AuthServer.requireAuth req next w = (Ok (Redirect "/login"), w).
Proof.
  intros Hu. unfold AuthServer.requireAuth, AuthServer.isAuthenticated.
  now rewrite Hu.
Qed.

Lemma requireAuth_logged_in (req : Request) (next : M Response) (w : World)
    (u : SessionUser) :
  user req = Some u ->
  AuthServer.requireAuth req next w = next w.
Proof.
  intros Hu. unfold AuthServer.requireAuth, AuthServer.isAuthenticated.
  now rewrite Hu.
Qed.

Lemma guarded_route_anonymous (r : AuthServer.Route) (req : Request)
    (w : World) :
  AuthServer.guarded r = true ->
  user req = None ->
  AuthServer.route env r req w = (Ok (Redirect "/login"), w).
Proof.
  intros Hg Hu. unfold AuthServer.route. rewrite Hg.
  now apply requireAuth_anonymous.
Qed.

(** A session whose identifier no longer resolves is dropped by
    [passport.session()] and the request goes on anonymously. *)
Lemma stale_session_is_anonymous (sid : Z) (w : World) :
  session w = Some sid ->
  (forall usr, In usr (users (db w)) -> User.id usr <> sid) ->
  AuthServer.passport_session env w =
  (Ok None,
   mkWorld (db w) None (entropy w)
           (trace w ++ [EQuery (sql SelectUserById) [JNum (inject_Z sid)]])).
Proof.
  intros Hs Hnone.
  unfold AuthServer.passport_session, AuthServer.deserializeUser, bind,
    db_query.
  rewrite Hs. unfold exec. rewrite int_param_number. unfold obind.
  replace (filter _ (users (db w))) with (@nil User.t); [reflexivity|].
  symmetry. apply filter_nil_iff. intros usr Hin. simpl.
  apply Z.eqb_neq. now apply Hnone.
Qed.

Lemma logout_runs (req : Request) (w : World) :
  AuthServer.route env AuthServer.POST_logout req w =
  (Ok (Redirect "/login"),
   mkWorld (db w) None (entropy w) (trace w ++ [ELogOut])).
Proof. reflexivity. Qed.

End GuardFacts.

(** C2, as the code has it.  Without a valid session (no identifier in
    the session, or one that no longer resolves to a user) each of the six
    book operations (the listing, the two book forms, create, update,
    delete) answers with a redirect to the login page instead of running
    its handler, and the guard changes nothing: no table, no session, no
    effect of any kind.  [POST /logout] is registered without the guard:
    its handler runs for every request, logs the session out and then
    redirects to the login page. *)
Theorem book_routes_are_gated :
  (forall (env : Env) (r : AuthServer.Route) (req : Request) (w : World),
      AuthServer.guarded r = true ->
      user req = None ->
      AuthServer.route env r req w = (Ok (Redirect "/login"), w)) /\
  (forall r : AuthServer.Route,
      AuthServer.guarded r = true <->
      r = AuthServer.GET_root \/ r = AuthServer.GET_books_new \/
      r = AuthServer.POST_books \/
      (exists id, r = AuthServer.GET_books_id_edit id) \/
      (exists id, r = AuthServer.POST_books_id_edit id) \/
      (exists id, r = AuthServer.POST_books_id_delete id)) /\
  (forall (req : Request) (next : M Response) (w : World),
      user req = None ->
      AuthServer.requireAuth req next w = (Ok (Redirect "/login"), w)) /\
  (forall (env : Env) (r : AuthServer.Route) (q b : list (string * jsval))
          (w : World),
      AuthServer.guarded r = true ->
      session w = None ->
      AuthServer.app env r q b w = (Redirect "/login", w)) /\
  (forall (env : Env) (r : AuthServer.Route) (q b : list (string * jsval))
          (w : World) (sid : Z),
      AuthServer.guarded r = true ->
      session w = Some sid ->
      (forall usr, In usr (users (db w)) -> User.id usr <> sid) ->
      fst (AuthServer.app env r q b w) = Redirect "/login" /\
      db (snd (AuthServer.app env r q b w)) = db w) /\
  (forall (env : Env) (req : Request) (w : World),
      AuthServer.route env AuthServer.POST_logout req w =
      (Ok (Redirect "/login"),
       mkWorld (db w) None (entropy w) (trace w ++ [ELogOut]))).
Proof.
  split; [|split; [|split; [|split; [|split]]]].
  - intros env r req w. apply guarded_route_anonymous.
  - intros r. split.
    + destruct r; simpl; try discriminate; intros _; eauto 10.
    + intros [->|[->|[->|[[id ->]|[[id ->]|[id ->]]]]]]; reflexivity.
  - intros req next w. apply requireAuth_anonymous.
  - intros env r q b w Hg Hs.
    unfold AuthServer.app, AuthServer.passport_session. rewrite Hs.
    now rewrite guarded_route_anonymous.
  - intros env r q b w sid Hg Hs Hnone.
    unfold AuthServer.app.
    rewrite (@stale_session_is_anonymous env sid w Hs Hnone).
    now rewrite guarded_route_anonymous.
  - intros env req w. apply logout_runs.
Qed.

Lemma book_routes_are_gated_witness :
  AuthServer.route test_env AuthServer.GET_root (mkRequest None [] [])
                   bobs_shelf
  = (Ok (Redirect "/login"), bobs_shelf).
Proof.
  apply (proj1 book_routes_are_gated test_env AuthServer.GET_root
           (mkRequest None [] []) bobs_shelf); reflexivity.
Defined.

(** C2 as stated fails on [POST /logout]: without a session the handler
    still runs, and the world afterwards records the logout. *)
Lemma logout_is_not_gated :
  ~ (forall (env : Env) (r : AuthServer.Route) (req : Request) (w : World),
        AuthServer.auth_required_in_spec r = true ->
        user req = None ->
        AuthServer.route env r req w = (Ok (Redirect "/login"), w)).
Proof.
  intros H.
  specialize (H test_env AuthServer.POST_logout (mkRequest None [] [])
                bobs_shelf eq_refl eq_refl).
  vm_compute in H. discriminate.
Qed.

(** ** Login *)

Section LoginFacts.
Variable env : Env.
Variable w : World.

Let select (e : string) : Effect :=
  EQuery (sql SelectUserByEmail) [JStr e].

Lemma verify_unknown_email (e : string) (password : jsval) :
  (forall usr, In usr (users (db w)) -> User.email usr <> e) ->
  AuthServer.verify env (JStr e) password w =
  (Ok (AuthServer.VFail "Invalid email or password"), emit (select e) w).
Proof.
  intros Hnone.
  unfold AuthServer.verify, try_catch, bind, db_query. simpl.
  replace (filter _ (users (db w))) with (@nil User.t); [reflexivity|].
  symmetry. apply filter_nil_iff. intros usr Hin.
  apply String.eqb_neq. now apply Hnone.
Qed.

Lemma verify_wrong_password (e p : string) :
  (exists usr, In usr (users (db w)) /\ User.email usr = e) ->
  (forall usr, In usr (users (db w)) -> User.email usr = e ->
               bcrypt_compare env p (User.password usr) = false) ->
  AuthServer.verify env (JStr e) (JStr p) w =
  (Ok (AuthServer.VFail "Invalid email or password"), emit (select e) w).
Proof.
  intros [usr [Hin He]] Hbad.
  unfold AuthServer.verify, try_catch, bind, db_query. simpl.
  destruct (filter _ (users (db w))) as [|row rows] eqn:Hf.
  - exfalso. rewrite filter_nil_iff in Hf. specialize (Hf usr Hin).
    simpl in Hf. apply String.eqb_neq in Hf. contradiction.
  - apply filter_head in Hf. destruct Hf as [Hrow Hmail].
    simpl in Hmail. apply String.eqb_eq in Hmail.
    unfold ret. simpl. now rewrite (Hbad row Hrow Hmail).
Qed.

(** A failed verification, or missing credentials, ends in the same
    redirect and leaves tables and session alone. *)
Lemma post_login_failure (req : Request) (message : string) (w' : World) :
  let username :=
    js_or (AuthServer.lookup (body req) "email")
          (AuthServer.lookup (query req) "email") in
  let password :=
    js_or (AuthServer.lookup (body req) "password")
          (AuthServer.lookup (query req) "password") in
  (js_not username || js_not password = false ->
   AuthServer.verify env username password w
   = (Ok (AuthServer.VFail message), w')) ->
  db w' = db w ->
  session w' = session w ->
  fst (AuthServer.post_login env req w) = Ok (Redirect "/login?error=1") /\
  db (snd (AuthServer.post_login env req w)) = db w /\
  session (snd (AuthServer.post_login env req w)) = session w.
Proof.
  intros username password Hv Hd Hs.
  unfold AuthServer.post_login, AuthServer.local_strategy, bind.
  fold username password.
  destruct (js_not username || js_not password); [repeat split|].
  rewrite (Hv eq_refl). repeat split; assumption.
Qed.

End LoginFacts.

Lemma login_form_credentials (su : option SessionUser) (e p : string) :
  let req := mkRequest su [] (login_form e p) in
  js_or (AuthServer.lookup (body req) "email")
        (AuthServer.lookup (query req) "email")
  = (if (e =? EmptyString)%string then JNull else JStr e) /\
  js_or (AuthServer.lookup (body req) "password")
        (AuthServer.lookup (query req) "password")
  = (if (p =? EmptyString)%string then JNull else JStr p).
Proof.
  simpl. unfold js_or. simpl.
  destruct (e =? EmptyString)%string, (p =? EmptyString)%string; split;
    reflexivity.
Qed.

Lemma login_form_rejected (env : Env) (w : World) (su : option SessionUser)
    (e p : string) :
  AuthServer.verify env (JStr e) (JStr p) w
  = (Ok (AuthServer.VFail "Invalid email or password"),
     emit (EQuery (sql SelectUserByEmail) [JStr e]) w) ->
  let run := AuthServer.post_login env (mkRequest su [] (login_form e p)) w in
  fst run = Ok (Redirect "/login?error=1") /\
  db (snd run) = db w /\
  session (snd run) = session w.
Proof.
  intros Hv run. subst run.
  apply post_login_failure
    with (message := "Invalid email or password")
         (w' := emit (EQuery (sql SelectUserByEmail) [JStr e]) w);
    try reflexivity.
  destruct (login_form_credentials su e p) as [-> ->].
  destruct (e =? EmptyString)%string eqn:He; [intros H; discriminate H|].
  destruct (p =? EmptyString)%string eqn:Hp.
  - unfold js_not. simpl. rewrite He. intros H. discriminate H.
  - intros _. exact Hv.
Qed.

(** C3.  A login with a registered email and a password that fails the
    hash comparison, and a login with an email nobody registered, are
    answered alike: the verify callback reports the same message, the
    response is the same redirect to the login form, which then shows the
    same message, and neither attempt touches the tables or the
    session. *)
Theorem login_failures_are_indistinguishable
    (env : Env) (w : World) (su : option SessionUser)
    (known unknown pw pw' : string) :
  (exists usr, In usr (users (db w)) /\ User.email usr = known) ->
  (forall usr, In usr (users (db w)) -> User.email usr = known ->
               bcrypt_compare env pw (User.password usr) = false) ->
  (forall usr, In usr (users (db w)) -> User.email usr <> unknown) ->
  let wrong_password :=
    AuthServer.post_login env (mkRequest su [] (login_form known pw)) w in
  let unknown_email :=
    AuthServer.post_login env (mkRequest su [] (login_form unknown pw')) w in
  fst wrong_password = Ok (Redirect "/login?error=1") /\
  fst unknown_email = fst wrong_password /\
  fst (AuthServer.verify env (JStr known) (JStr pw) w)
  = Ok (AuthServer.VFail "Invalid email or password") /\
  fst (AuthServer.verify env (JStr unknown) (JStr pw') w)
  = fst (AuthServer.verify env (JStr known) (JStr pw) w) /\
  db (snd wrong_password) = db w /\
  session (snd wrong_password) = session w /\
  db (snd unknown_email) = db w /\
  session (snd unknown_email) = session w /\
  (forall w' : World,
      AuthServer.get_login (mkRequest None [("error", JStr "1")] []) w'
      = (Ok (Render (LoginEjs (Some "Invalid email or password"))), w')).
Proof.
  intros Hknown Hbad Hunknown wrong_password unknown_email.
  assert (Hv1 := @verify_wrong_password env w known pw Hknown Hbad).
  assert (Hv2 := @verify_unknown_email env w unknown (JStr pw') Hunknown).
  destruct (@login_form_rejected env w su known pw Hv1) as (R1 & D1 & S1).
  destruct (@login_form_rejected env w su unknown pw' Hv2) as (R2 & D2 & S2).
  subst wrong_password unknown_email.
  rewrite Hv1, Hv2, R1, R2. repeat split; assumption.
Qed.

Lemma login_failures_are_indistinguishable_witness :
  let wrong_password :=
    AuthServer.post_login test_env
      (mkRequest None [] (login_form "alice@example.org" "rabbit")) bobs_shelf in
  let unknown_email :=
    AuthServer.post_login test_env
      (mkRequest None [] (login_form "carol@example.org" "rabbit")) bobs_shelf in
  fst wrong_password = Ok (Redirect "/login?error=1") /\
  fst unknown_email = fst wrong_password.
Proof.
  intros wrong_password unknown_email.
  destruct (@login_failures_are_indistinguishable test_env bobs_shelf None
              "alice@example.org" "carol@example.org" "rabbit" "rabbit")
    as (H1 & H2 & _).
  - exists (User.mk 1 "alice@example.org" "$2b$10$wonderland").
    split; [left; reflexivity | reflexivity].
  - intros usr [<-|[<-|[]]] He; [reflexivity | discriminate He].
  - intros usr [<-|[<-|[]]]; discriminate.
  - split; [exact H1 | exact H2].
Defined.

(** ** Registration *)

Section RegisterFacts.
Variable env : Env.
Variables (req : Request) (w : World) (e : string).
Hypothesis Hemail : field (body req) "email" = JStr e.

Lemma register_duplicate :
  (exists usr, In usr (users (db w)) /\ User.email usr = e) ->
  AuthServer.post_register env req w =
  (Ok (Render (RegisterEjs (Some "Email already registered"))),
   emit (EQuery (sql SelectUserIdByEmail) [JStr e]) w).
Proof using Hemail.
  intros [usr [Hin He]].
  unfold AuthServer.post_register, try_catch, bind, db_query.
  rewrite Hemail. simpl.
  destruct (filter _ (users (db w))) as [|row rows] eqn:Hf; [|reflexivity].
  exfalso. rewrite filter_nil_iff in Hf. specialize (Hf usr Hin).
  simpl in Hf. apply String.eqb_neq in Hf. contradiction.
Qed.

Lemma register_fresh (p : string) :
  field (body req) "password" = JStr p ->
  (forall usr, In usr (users (db w)) -> User.email usr <> e) ->
  let hash := bcrypt_hash env p 10 (entropy w) in
  let uid := users_id_seq (db w) in
  AuthServer.post_register env req w =
  (Ok (Redirect "/"),
   mkWorld (mkDb (users (db w) ++ [User.mk uid e hash]) (books (db w))
                 (uid + 1) (books_id_seq (db w)))
           (Some uid) (entropy w + 1)%N
           (trace w ++ [EQuery (sql SelectUserIdByEmail) [JStr e];
                        EQuery (sql InsertUser) [JStr e; JStr hash];
                        ELogIn uid])).
Proof using Hemail.
  intros Hpw Hfresh hash uid.
  assert (Hnone : filter (fun u => (User.email u =? e)%string)
                         (users (db w)) = []).
  { apply filter_nil_iff. intros usr Hin.
    apply String.eqb_neq. now apply Hfresh. }
  assert (Hex : existsb (fun u => (User.email u =? e)%string) (users (db w))
                = false).
  { destruct (existsb _ _) eqn:Hx; [|reflexivity].
    apply existsb_exists in Hx. destruct Hx as [usr [Hin Hmail]].
    apply String.eqb_eq in Hmail. now elim (Hfresh usr Hin). }
  unfold AuthServer.post_register, try_catch, bind, db_query.
  rewrite Hemail, Hpw. simpl. rewrite Hnone. simpl.
  unfold insert_user, obind. simpl. rewrite Hex. simpl.
  unfold ret. subst hash uid. unfold saltRounds.
  rewrite <- !app_assoc. reflexivity.
Qed.

End RegisterFacts.

(** C4.  Registering an email that is already in [users] is refused with
    "Email already registered" and inserts nothing.  Registering a new
    email hashes the password with bcrypt at work factor 10 under a fresh
    salt, appends the user row, logs the new user in and redirects home;
    a second registration of that email is then refused. *)
Theorem registration
    (env : Env) (req : Request) (w : World) (e : string) :
  field (body req) "email" = JStr e ->
  let run := AuthServer.post_register env req w in
  ((exists usr, In usr (users (db w)) /\ User.email usr = e) ->
   fst run = Ok (Render (RegisterEjs (Some "Email already registered"))) /\
   db (snd run) = db w /\
   session (snd run) = session w) /\
  (forall p : string,
      field (body req) "password" = JStr p ->
      (forall usr, In usr (users (db w)) -> User.email usr <> e) ->
      fst run = Ok (Redirect "/") /\
      users (db (snd run))
      = (users (db w) ++
         [User.mk (users_id_seq (db w)) e
                  (bcrypt_hash env p 10 (entropy w))])%list /\
      books (db (snd run)) = books (db w) /\
      session (snd run) = Some (users_id_seq (db w)) /\
      forall again : Request,
        field (body again) "email" = JStr e ->
        fst (AuthServer.post_register env again (snd run))
        = Ok (Render (RegisterEjs (Some "Email already registered"))) /\
        db (snd (AuthServer.post_register env again (snd run)))
        = db (snd run)).
Proof.
  intros Hemail run. split.
  - intros Hdup. subst run.
    rewrite (@register_duplicate env req w e Hemail Hdup). repeat split.
  - intros p Hpw Hfresh. subst run.
    rewrite (@register_fresh env req w e Hemail p Hpw Hfresh). simpl.
    repeat split.
    + rewrite register_duplicate with (e := e); [reflexivity|assumption|].
      simpl. eexists. split; [apply in_or_app; right; left; reflexivity|].
      reflexivity.
    + rewrite register_duplicate with (e := e); [reflexivity|assumption|].
      simpl. eexists. split; [apply in_or_app; right; left; reflexivity|].
      reflexivity.
Qed.

Lemma registration_witness :
  let req := mkRequest None [] (login_form "carol@example.org" "s3cret") in
  let run := AuthServer.post_register test_env req bobs_shelf in
  fst run = Ok (Redirect "/") /\
  users (db (snd run))
  = (two_users ++ [User.mk 3 "carol@example.org" "$2b$10$s3cret"])%list /\
  session (snd run) = Some 3.
Proof.
  intros req run.
  destruct (@registration test_env req bobs_shelf "carol@example.org" eq_refl)
    as [_ Hfresh].
  destruct (Hfresh "s3cret" eq_refl) as (H1 & H2 & _ & H3 & _).
  - intros usr [<-|[<-|[]]]; discriminate.
  - repeat split; assumption.
Defined.

(** ** Cover lookup *)

Section CoverFacts.
Variable env : Env.
Variables (isbn : string) (w : World).

Let params : list (string * string) :=
  [("bibkeys", "ISBN:" ++ isbn); ("format", "json"); ("jscmd", "data")].
Let call : Effect := EHttpGet OPEN_LIBRARY_API params 5000.

(** [entry?.cover?.medium || entry?.cover?.large || null] *)
Lemma preferred_size (entry : jsval) :
  let medium := js_opt_get (js_opt_get entry "cover") "medium" in
  let large := js_opt_get (js_opt_get entry "cover") "large" in
  js_or (js_or medium large) JNull
  = if truthy medium then medium else if truthy large then large else JNull.
Proof.
  intros medium large. unfold js_or.
  destruct (truthy medium) eqn:Hm.
  - now rewrite Hm.
  - reflexivity.
Qed.

Lemma fetchCoverUrl_empty (w0 : World) :
  fetchCoverUrl env EmptyString w0 = (Ok JNull, w0).
Proof. reflexivity. Qed.

Lemma fetchCoverUrl_run :
  isbn <> EmptyString ->
  fetchCoverUrl env isbn w =
  (Ok match axios_get env OPEN_LIBRARY_API params 5000 with
      | AxiosError _ => JNull
      | AxiosData data =>
          match js_get data ("ISBN:" ++ isbn) with
          | None => JNull
          | Some entry =>
              js_or (js_or (js_opt_get (js_opt_get entry "cover") "medium")
                           (js_opt_get (js_opt_get entry "cover") "large"))
                    JNull
          end
      end,
   emit call w).
Proof.
  intros Hne. apply String.eqb_neq in Hne.
  unfold fetchCoverUrl, js_not, truthy. rewrite Hne. cbn [negb].
  unfold try_catch, bind, axios_get_data, js_index. fold params. fold call.
  destruct (axios_get env OPEN_LIBRARY_API params 5000) as [data|msg];
    [|reflexivity].
  destruct (js_get data ("ISBN:" ++ isbn)); reflexivity.
Qed.

Lemma get_api_cover_run (url : jsval) (w' : World) :
  fetchCoverUrl env isbn w = (Ok url, w') ->
  get_api_cover env isbn w =
  (Ok (SendJson 200 [("isbn", JStr isbn);
                     ("cover_url",
                      if truthy url then url else JStr PLACEHOLDER_COVER)]),
   w').
Proof.
  intros Hf. unfold get_api_cover, try_catch, bind. now rewrite Hf.
Qed.

End CoverFacts.

(** C6.  [fetchCoverUrl] answers "no result" at once, with no outbound
    call, for the empty ISBN; otherwise it makes exactly one lookup with a
    5000 ms timeout and never throws: a rejected request, a body without
    usable structure and a missing entry all give "no result"; on a
    successful lookup it returns the medium image if there is one, else
    the large one, else "no result".  [GET /api/cover/:isbn] puts the
    placeholder image in [cover_url] whenever there is no result. *)
Theorem cover_lookup_degrades_to_placeholder
    (env : Env) (isbn : string) (w : World) :
  let params :=
    [("bibkeys", "ISBN:" ++ isbn); ("format", "json"); ("jscmd", "data")] in
  let call := EHttpGet OPEN_LIBRARY_API params 5000 in
  let lookup := axios_get env OPEN_LIBRARY_API params 5000 in
  fetchCoverUrl env EmptyString w = (Ok JNull, w) /\
  (exists url,
      fetchCoverUrl env isbn w
      = (Ok url, if (isbn =? EmptyString)%string then w else emit call w)) /\
  (isbn <> EmptyString ->
   (forall msg, lookup = AxiosError msg ->
                fst (fetchCoverUrl env isbn w) = Ok JNull) /\
   (forall data, lookup = AxiosData data ->
                 js_get data ("ISBN:" ++ isbn) = None ->
                 fst (fetchCoverUrl env isbn w) = Ok JNull) /\
   (forall raw, lookup = AxiosData (JStr raw) ->
                fst (fetchCoverUrl env isbn w) = Ok JNull) /\
   (forall data entry,
       lookup = AxiosData data ->
       js_get data ("ISBN:" ++ isbn) = Some entry ->
       let medium := js_opt_get (js_opt_get entry "cover") "medium" in
       let large := js_opt_get (js_opt_get entry "cover") "large" in
       fst (fetchCoverUrl env isbn w)
       = Ok (if truthy medium then medium
             else if truthy large then large else JNull))) /\
  (forall url w',
      fetchCoverUrl env isbn w = (Ok url, w') ->
      get_api_cover env isbn w
      = (Ok (SendJson 200
               [("isbn", JStr isbn);
                ("cover_url",
                 if truthy url then url else JStr PLACEHOLDER_COVER)]),
         w')) /\
  (fst (fetchCoverUrl env isbn w) = Ok JNull ->
   fst (get_api_cover env isbn w)
   = Ok (SendJson 200 [("isbn", JStr isbn);
                       ("cover_url", JStr PLACEHOLDER_COVER)])).
Proof.
  intros params call lookup.
  assert (Htotal : exists url,
             fetchCoverUrl env isbn w
             = (Ok url,
                if (isbn =? EmptyString)%string then w else emit call w)).
  { destruct (String.eqb_spec isbn EmptyString) as [->|Hne].
    - eexists. apply fetchCoverUrl_empty.
    - eexists. apply (fetchCoverUrl_run env w Hne). }
  split; [apply fetchCoverUrl_empty|].
  split; [exact Htotal|].
  split; [|split].
  - intros Hne. rewrite (fetchCoverUrl_run env w Hne).
    fold params. fold lookup. simpl fst.
    split; [|split; [|split]].
    + now intros msg ->.
    + intros data Hd Hg. rewrite Hd. cbv beta iota.
      simpl in Hg. now rewrite Hg.
    + now intros raw ->.
    + intros data entry Hd Hg medium large.
      rewrite Hd. cbv beta iota. simpl in Hg. rewrite Hg.
      f_equal. apply preferred_size.
  - intros url w'. apply get_api_cover_run.
  - destruct Htotal as [url Hrun]. rewrite Hrun. simpl fst.
    intros Hnull. inversion Hnull; subst.
    now rewrite (get_api_cover_run env isbn w Hrun).
Qed.

Lemma cover_lookup_degrades_to_placeholder_witness :
  fst (fetchCoverUrl test_env "9780140328721" bobs_shelf)
  = Ok (JStr "https://covers.openlibrary.org/b/id/8739161-M.jpg") /\
  fst (fetchCoverUrl test_env "0000000000" bobs_shelf) = Ok JNull.
Proof.
  split.
  - destruct (cover_lookup_degrades_to_placeholder test_env "9780140328721"
                bobs_shelf) as (_ & _ & Hrun & _).
    destruct Hrun as (_ & _ & _ & Hok); [discriminate|].
    exact (Hok _ _ eq_refl eq_refl).
  - destruct (cover_lookup_degrades_to_placeholder test_env "0000000000"
                bobs_shelf) as (_ & _ & Hrun & _).
    destruct Hrun as (Hfail & _); [discriminate|].
    exact (Hfail _ eq_refl).
Defined.

(** ** Form fields on their way to the store *)

Lemma js_or_null (v : jsval) :
  is_form_value v = true -> js_or v JNull = null_if_empty v.
Proof.
  destruct v as [| |b|q|s|l|l]; simpl; try discriminate; try reflexivity.
  intros _. now destruct s.
Qed.

Section FormFacts.
Variable env : Env.
Variables (req : Request) (w : World).
Hypothesis Hform : forall k, is_form_value (field (body req) k) = true.

Let f (k : string) : jsval := field (body req) k.
Let author := text_param env (null_if_empty (f "author")).
Let isbn := text_param env (null_if_empty (f "isbn")).
Let notes := text_param env (null_if_empty (f "notes")).

Lemma insert_book_empty_title (uid r d : option Z) :
  f "title" = JStr EmptyString ->
  int_param env (null_if_empty (f "rating")) = Some r ->
  date_param env (null_if_empty (f "finished_on")) = Some d ->
  insert_book env (f "title") (null_if_empty (f "author"))
    (null_if_empty (f "isbn")) (null_if_empty (f "rating"))
    (null_if_empty (f "notes")) (null_if_empty (f "finished_on")) uid (db w)
  = Some (1%nat,
          mkDb (users (db w))
               (books (db w) ++
                [Book.mk (books_id_seq (db w)) uid EmptyString author isbn
                         None r d notes])
               (users_id_seq (db w)) (books_id_seq (db w) + 1)).
Proof.
  intros Ht Hr Hd. unfold insert_book, obind. now rewrite Hr, Hd, Ht.
Qed.

Lemma update_books_empty_title (c : Book.t -> bool) (r d : option Z) :
  f "title" = JStr EmptyString ->
  int_param env (null_if_empty (f "rating")) = Some r ->
  date_param env (null_if_empty (f "finished_on")) = Some d ->
  update_books env (f "title") (null_if_empty (f "author"))
    (null_if_empty (f "isbn")) (null_if_empty (f "rating"))
    (null_if_empty (f "notes")) (null_if_empty (f "finished_on")) c (db w)
  = Some (count c (books (db w)),
          with_books (db w)
            (map (fun b => if c b
                           then set_fields EmptyString author isbn r notes d b
                           else b)
                 (books (db w)))).
Proof.
  intros Ht Hr Hd. unfold update_books, obind. now rewrite Hr, Hd, Ht.
Qed.

End FormFacts.

(** C10.  The create and the update of both servers hand the title to the
    store exactly as submitted and turn only the five optional fields
    (author, isbn, rating, notes, finished date) from empty into NULL.
    No handler validates the title: a submission with an empty title is
    answered with the usual redirect, and the empty string is what the
    new or the updated row holds. *)
Theorem empty_title_is_forwarded
    (env : Env) (req : Request) (w : World) (u : SessionUser) (id : string) :
  user req = Some u ->
  (forall k, is_form_value (field (body req) k) = true) ->
  let f := field (body req) in
  let optional :=
    [null_if_empty (f "author"); null_if_empty (f "isbn");
     null_if_empty (f "rating"); null_if_empty (f "notes");
     null_if_empty (f "finished_on")] in
  let uid := JNum (inject_Z (su_id u)) in
  trace (snd (AuthServer.post_books env req w))
  = (trace w ++ [EQuery (sql InsertBookOfUser)
                        (f "title" :: optional ++ [uid])])%list /\
  trace (snd (AuthServer.post_books_id_edit env id req w))
  = (trace w ++ [EQuery (sql UpdateBookOfUser)
                        (f "title" :: optional ++ [JStr id; uid])])%list /\
  trace (snd (IndexJs.post_books env req w))
  = (trace w ++ [EQuery (sql InsertBook) (f "title" :: optional)])%list /\
  trace (snd (IndexJs.post_books_id_edit env id req w))
  = (trace w ++ [EQuery (sql UpdateBook)
                        (f "title" :: optional ++ [JStr id])])%list /\
  (f "title" = JStr EmptyString ->
   forall r d : option Z,
     int_param env (null_if_empty (f "rating")) = Some r ->
     date_param env (null_if_empty (f "finished_on")) = Some d ->
     let author := text_param env (null_if_empty (f "author")) in
     let isbn := text_param env (null_if_empty (f "isbn")) in
     let notes := text_param env (null_if_empty (f "notes")) in
     let row owner :=
       Book.mk (books_id_seq (db w)) owner EmptyString author isbn None r d
               notes in
     let overwrite := set_fields EmptyString author isbn r notes d in
     fst (AuthServer.post_books env req w) = Ok (Redirect "/") /\
     books (db (snd (AuthServer.post_books env req w)))
     = (books (db w) ++ [row (Some (su_id u))])%list /\
     fst (IndexJs.post_books env req w) = Ok (Redirect "/") /\
     books (db (snd (IndexJs.post_books env req w)))
     = (books (db w) ++ [row None])%list /\
     forall bid : Z,
       int4in env id = Some bid ->
       fst (AuthServer.post_books_id_edit env id req w) = Ok (Redirect "/") /\
       books (db (snd (AuthServer.post_books_id_edit env id req w)))
       = map (fun b => if where_id_user (Some bid) (Some (su_id u)) b
                       then overwrite b else b)
             (books (db w)) /\
       fst (IndexJs.post_books_id_edit env id req w) = Ok (Redirect "/") /\
       books (db (snd (IndexJs.post_books_id_edit env id req w)))
       = map (fun b => if where_id (Some bid) b then overwrite b else b)
             (books (db w))).
Proof.
  intros Hu Hform f optional uid.
  rewrite (@auth_create_run env req w u Hu).
  rewrite (@auth_update_run env req w u Hu id).
  rewrite (index_create_run env req w).
  rewrite (index_update_run env req w id).
  cbv zeta.
  rewrite !js_or_null by apply Hform.
  subst f optional uid.
  split; [|split; [|split; [|split]]].
  - destruct (exec env InsertBookOfUser _ (db w)) as [[k d']|]; reflexivity.
  - destruct (exec env UpdateBookOfUser _ (db w)) as [[k d']|]; reflexivity.
  - destruct (exec env InsertBook _ (db w)) as [[k d']|]; reflexivity.
  - destruct (exec env UpdateBook _ (db w)) as [[k d']|]; reflexivity.
  - intros Ht r d Hr Hd.
    assert (Hins := fun o =>
              @insert_book_empty_title env req w o r d Ht Hr Hd).
    assert (Hupd := fun c =>
              @update_books_empty_title env req w c r d Ht Hr Hd).
    cbv beta in Hins, Hupd.
    unfold exec, obind. rewrite !int_param_number. cbv beta iota.
    rewrite !Hins.
    split; [reflexivity|]. split; [reflexivity|].
    split; [reflexivity|]. split; [reflexivity|].
    intros bid Hid.
    rewrite !int_param_route, Hid. simpl option_map. cbv beta iota.
    rewrite !Hupd.
    repeat split.
Qed.

Lemma obj_get_form_value (props : list (string * jsval)) (k : string) :
  Forall (fun kv => is_form_value (snd kv) = true) props ->
  is_form_value (obj_get props k) = true.
Proof.
  induction 1 as [|[k' v] rest Hv Hrest IH]; simpl in *; [reflexivity|].
  destruct (obj_get rest k); try exact IH.
  destruct (k' =? k)%string; [exact Hv|reflexivity].
Defined.

Lemma blank_form_fields (k : string) :
  is_form_value
    (field (book_form EmptyString EmptyString EmptyString EmptyString
                      EmptyString EmptyString) k) = true.
Proof.
  apply obj_get_form_value. repeat constructor.
Defined.

Lemma empty_title_is_forwarded_witness :
  let req :=
    mkRequest (Some alice) []
      (book_form EmptyString EmptyString EmptyString EmptyString EmptyString
                 EmptyString) in
  fst (AuthServer.post_books test_env req alices_shelf) = Ok (Redirect "/") /\
  books (db (snd (AuthServer.post_books test_env req alices_shelf)))
  = (books (db alices_shelf) ++
     [Book.mk 5 (Some 1) EmptyString None None None None None None])%list.
Proof.
  intros req.
  destruct (@empty_title_is_forwarded test_env req alices_shelf alice "2"
              eq_refl blank_form_fields) as (_ & _ & _ & _ & Hempty).
  destruct (Hempty eq_refl None None eq_refl eq_refl) as (H1 & H2 & _).
  split; [exact H1 | exact H2].
Defined.

(* ===================================================================== *)
(** * Further facts about the two servers                                 *)
(* ===================================================================== *)

(** ** What a computation leaves alone *)

Section KeepsFacts.
Variable R : World -> World -> Prop.
Context {R_preorder : PreOrder R}.

Lemma keeps_ret (A : Type) (a : A) : keeps R (ret a).
Proof. intros w. reflexivity. Qed.

Lemma keeps_throw (A : Type) (e : Exn) : keeps R (@throw A e).
Proof. intros w. reflexivity. Qed.

Lemma keeps_bind (A B : Type) (m : M A) (k : A -> M B) :
  keeps R m -> (forall a, keeps R (k a)) -> keeps R (bind m k).
Proof.
  intros Hm Hk w. unfold bind. specialize (Hm w).
  destruct (m w) as [[a|e] w']; simpl in *; [|exact Hm].
  etransitivity; [exact Hm|apply Hk].
Qed.

Lemma keeps_bind_ret (A B : Type) (a : A) (k : A -> M B) :
  keeps R (k a) -> keeps R (bind (ret a) k).
Proof. intros Hk w. apply Hk. Qed.

Lemma keeps_bind_throw (A B : Type) (e : Exn) (k : A -> M B) :
  keeps R (bind (throw e) k).
Proof. intros w. reflexivity. Qed.

Lemma keeps_try_catch (A : Type) (m : M A) (h : Exn -> M A) :
  keeps R m -> (forall e, keeps R (h e)) -> keeps R (try_catch m h).
Proof.
  intros Hm Hh w. unfold try_catch. specialize (Hm w).
  destruct (m w) as [[a|e] w']; simpl in *; [exact Hm|].
  etransitivity; [exact Hm|apply Hh].
Qed.

End KeepsFacts.

#[local] Instance others_kept_preorder (owner : option Z) :
  PreOrder (others_kept owner).
Proof.
  split.
  - intros w. reflexivity.
  - intros w1 w2 w3 H12 H23. unfold others_kept in *. congruence.
Qed.

#[local] Instance same_db_preorder : PreOrder same_db.
Proof.
  split.
  - intros w. reflexivity.
  - intros w1 w2 w3 H12 H23. unfold same_db in *. congruence.
Qed.

#[local] Instance untouched_preorder : PreOrder untouched.
Proof.
  split.
  - intros w. split; reflexivity.
  - intros w1 w2 w3 [D12 S12] [D23 S23]. split; congruence.
Qed.

Lemma same_db_others_kept (owner : option Z) (w w' : World) :
  same_db w w' -> others_kept owner w w'.
Proof. unfold same_db, others_kept. now intros ->. Qed.

Lemma untouched_same_db (w w' : World) : untouched w w' -> same_db w w'.
Proof. now intros [H _]. Qed.

Lemma others_kept_nobody (w w' : World) :
  others_kept None w w' <-> books (db w') = books (db w).
Proof.
  unfold others_kept.
  assert (Hall : forall l : list Book.t,
             filter (fun b => negb (where_user None b)) l = l).
  { assert (Hno : forall x, where_user None x = false)
      by (intros x; unfold where_user, sql_eqZ;
          now destruct (Book.user_id x)).
    induction l as [|x l IH]; [reflexivity|].
    cbn [filter]. rewrite Hno. cbn [negb]. now rewrite IH. }
  now rewrite !Hall.
Qed.

(** Which statements write to [books]. *)
Lemma exec_reads_books (env : Env) (R : Type) (s : Stmt R)
    (params : list jsval) (d d' : Db) (r : R) :
  match s with
  | InsertBookOfUser | UpdateBookOfUser | DeleteBookOfUser
  | InsertBook | UpdateBook | DeleteBook => False
  | _ => True
  end ->
  exec env s params d = Some (r, d') ->
  books d' = books d.
Proof.
  intros Hs H.
  destruct s; try contradiction; simpl in H;
    repeat (destruct params as [|? params]; try discriminate);
    unfold obind in H;
    repeat match type of H with
           | context [int_param env ?v] =>
               destruct (int_param env v); [|discriminate]
           end;
    try (inversion H; subst; reflexivity).
  unfold insert_user, obind in H.
  destruct (text_param env j); [|discriminate].
  destruct (text_param env j0); [|discriminate].
  destruct (existsb _ _); [discriminate|].
  inversion H; subst. reflexivity.
Qed.

(** The statements that only read. *)
Lemma exec_select_same (env : Env) (R : Type) (s : Stmt R)
    (params : list jsval) (d d' : Db) (r : R) :
  match s with
  | InsertBookOfUser | UpdateBookOfUser | DeleteBookOfUser
  | InsertBook | UpdateBook | DeleteBook | InsertUser => False
  | _ => True
  end ->
  exec env s params d = Some (r, d') ->
  d' = d.
Proof.
  intros Hs H.
  destruct s; try contradiction; simpl in H;
    repeat (destruct params as [|? params]; try discriminate);
    unfold obind in H;
    repeat match type of H with
           | context [int_param env ?v] =>
               destruct (int_param env v); [|discriminate]
           end;
    inversion H; subst; reflexivity.
Qed.

Ltac k_ret := apply keeps_ret; solve [typeclasses eauto].
Ltac k_throw := apply keeps_throw; solve [typeclasses eauto].
Ltac k_bind_ret := apply keeps_bind_ret.
Ltac k_bind_throw := apply keeps_bind_throw; solve [typeclasses eauto].
Ltac k_bind :=
  apply keeps_bind; try (solve [typeclasses eauto]); [|intros ?].
Ltac k_try :=
  apply keeps_try_catch; try (solve [typeclasses eauto]); [|intros ?].

Lemma keeps_weaken (A : Type) (R1 R2 : World -> World -> Prop) (m : M A) :
  (forall w w', R1 w w' -> R2 w w') -> keeps R1 m -> keeps R2 m.
Proof. intros H12 Hm w. apply H12, Hm. Qed.

Lemma untouched_others_kept (owner : option Z) (w w' : World) :
  untouched w w' -> others_kept owner w w'.
Proof. intros H. now apply same_db_others_kept, untouched_same_db. Qed.

Section PrimitiveFacts.
Variable env : Env.

Lemma db_query_select_untouched (R : Type) (s : Stmt R)
    (params : list jsval) :
  match s with
  | InsertBookOfUser | UpdateBookOfUser | DeleteBookOfUser
  | InsertBook | UpdateBook | DeleteBook | InsertUser => False
  | _ => True
  end ->
  keeps untouched (db_query env s params).
Proof.
  intros Hs w. unfold db_query.
  destruct (exec env s params (db w)) as [[r d']|] eqn:He; simpl;
    [|destruct s; try contradiction; split; reflexivity].
  apply (exec_select_same env s params (db w) Hs) in He. now subst.
Qed.

Lemma axios_untouched (url : string) (params : list (string * string))
    (timeout : nat) :
  keeps untouched (axios_get_data env url params timeout).
Proof.
  intros w. unfold axios_get_data.
  destruct (axios_get env url params timeout); split; reflexivity.
Qed.

Lemma js_index_untouched (v : jsval) (k : string) :
  keeps untouched (js_index v k).
Proof. intros w. unfold js_index. destruct (js_get v k); split; reflexivity. Qed.

Lemma bcrypt_hash_untouched (data : jsval) (rounds : nat) :
  keeps untouched (bcrypt_hash_js env data rounds).
Proof. intros w. destruct data; split; reflexivity. Qed.

Lemma bcrypt_compare_untouched (data : jsval) (hash : string) :
  keeps untouched (bcrypt_compare_js env data hash).
Proof. intros w. destruct data; split; reflexivity. Qed.

Lemma req_user_id_untouched (req : Request) : keeps untouched (req_user_id req).
Proof. intros w. unfold req_user_id. destruct (user req); split; reflexivity. Qed.

Lemma req_login_same_db (u : SessionUser) : keeps same_db (req_login u).
Proof. intros w. reflexivity. Qed.

Lemma req_logout_same_db : keeps same_db req_logout.
Proof. intros w. reflexivity. Qed.

(** The cover lookup touches neither the tables nor the session. *)
Lemma fetchCoverUrl_untouched (isbn : string) :
  keeps untouched (fetchCoverUrl env isbn).
Proof.
  unfold fetchCoverUrl. destruct (js_not (JStr isbn)); [k_ret|].
  k_try; [|k_ret].
  k_bind; [apply axios_untouched|].
  k_bind; [apply js_index_untouched|].
  k_ret.
Qed.

Lemma get_api_cover_untouched (isbn : string) :
  keeps untouched (get_api_cover env isbn).
Proof.
  unfold get_api_cover.
  k_try; [|k_ret].
  k_bind; [apply fetchCoverUrl_untouched|].
  k_ret.
Qed.

Lemma where_user_set_fields (owner : option Z) (t : string)
    (a i : option string) (r : option Z) (n : option string) (f : option Z)
    (b : Book.t) :
  where_user owner (set_fields t a i r n f b) = where_user owner b.
Proof. reflexivity. Qed.

Lemma where_id_user_owned (bid : option Z) (u : Z) (b : Book.t) :
  where_id_user bid (Some u) b = true -> where_user (Some u) b = true.
Proof.
  unfold where_id_user, where_user. intros H.
  now apply andb_prop in H.
Qed.

(** The three writes of the authenticated server, with the caller's
    identifier in the last parameter, leave every row of another owner
    as it was. *)
Lemma insert_of_user_others (t a i r n f : jsval) (u : Z) (d d' : Db)
    (k : nat) :
  exec env InsertBookOfUser [t; a; i; r; n; f; JNum (inject_Z u)] d
  = Some (k, d') ->
  filter (fun b => negb (where_user (Some u) b)) (books d')
  = filter (fun b => negb (where_user (Some u) b)) (books d).
Proof.
  unfold exec. rewrite int_param_number. unfold obind, insert_book.
  destruct (int_param env r); [|discriminate].
  destruct (date_param env f); [|discriminate].
  destruct (text_param env t); [|discriminate].
  intros H. inversion H; subst; clear H. cbn [books].
  rewrite filter_app. cbn [filter].
  unfold where_user at 2, sql_eqZ. cbn [Book.user_id].
  rewrite Z.eqb_refl. cbn [negb]. apply app_nil_r.
Qed.

Lemma update_of_user_others (t a i r n f b : jsval) (u : Z) (d d' : Db)
    (k : nat) :
  exec env UpdateBookOfUser [t; a; i; r; n; f; b; JNum (inject_Z u)] d
  = Some (k, d') ->
  filter (fun x => negb (where_user (Some u) x)) (books d')
  = filter (fun x => negb (where_user (Some u) x)) (books d).
Proof.
  unfold exec. rewrite int_param_number. unfold obind, update_books.
  destruct (int_param env b) as [bid|]; [|discriminate].
  destruct (int_param env r); [|discriminate].
  destruct (date_param env f); [|discriminate].
  destruct (text_param env t).
  - intros H. inversion H; subst; clear H. unfold with_books. cbn [books].
    induction (books d) as [|x l IH]; [reflexivity|].
    cbn [map filter].
    destruct (where_id_user bid (Some u) x) eqn:Hc.
    + rewrite where_user_set_fields.
      rewrite (where_id_user_owned _ _ _ Hc). cbn [negb]. exact IH.
    + destruct (negb (where_user (Some u) x)); [f_equal|]; exact IH.
  - destruct (existsb _ _); [discriminate|].
    intros H. now inversion H.
Qed.

Lemma delete_of_user_others (b : jsval) (u : Z) (d d' : Db) (k : nat) :
  exec env DeleteBookOfUser [b; JNum (inject_Z u)] d = Some (k, d') ->
  filter (fun x => negb (where_user (Some u) x)) (books d')
  = filter (fun x => negb (where_user (Some u) x)) (books d).
Proof.
  unfold exec. rewrite int_param_number. unfold obind, delete_books.
  destruct (int_param env b) as [bid|]; [|discriminate].
  intros H. inversion H; subst; clear H. unfold with_books. cbn [books].
  induction (books d) as [|x l IH]; [reflexivity|].
  cbn [filter].
  destruct (where_id_user bid (Some u) x) eqn:Hc; cbn [negb].
  - rewrite (where_id_user_owned _ _ _ Hc). cbn [negb]. exact IH.
  - cbn [filter]. destruct (negb (where_user (Some u) x)); [f_equal|];
      exact IH.
Qed.

Lemma db_query_others (owner : option Z) (R : Type) (s : Stmt R)
    (params : list jsval) :
  (forall d r d', exec env s params d = Some (r, d') ->
                  filter (fun x => negb (where_user owner x)) (books d')
                  = filter (fun x => negb (where_user owner x)) (books d)) ->
  keeps (others_kept owner) (db_query env s params).
Proof.
  intros Hs w. unfold db_query, others_kept.
  destruct (exec env s params (db w)) as [[r d']|] eqn:He; simpl;
    [|now rewrite (proj1 (refused_rows env s params (db w)))].
  eapply Hs; eassumption.
Qed.

End PrimitiveFacts.

Ltac k_bind_ret ::= apply keeps_bind_ret; cbv beta.

Ltac prim_untouched :=
  first [ apply db_query_select_untouched; exact I
        | apply axios_untouched
        | apply js_index_untouched
        | apply bcrypt_hash_untouched
        | apply bcrypt_compare_untouched
        | apply req_user_id_untouched
        | apply fetchCoverUrl_untouched
        | apply get_api_cover_untouched ].

Ltac prim_same_db :=
  first [ apply req_login_same_db
        | apply req_logout_same_db
        | eapply keeps_weaken; [apply untouched_same_db | prim_untouched] ].

Ltac prim_others :=
  first [ apply db_query_others;
          let He := fresh "He" in
          intros ? ? ? He;
          first [ eapply exec_reads_books in He; [|exact I]; now rewrite He
                | eapply insert_of_user_others; eassumption
                | eapply update_of_user_others; eassumption
                | eapply delete_of_user_others; eassumption ]
        | eapply keeps_weaken; [apply same_db_others_kept | prim_same_db] ].

Ltac keep prim :=
  repeat first
    [ k_ret | k_throw | k_bind_ret | k_bind_throw | prim | k_bind | k_try
    | match goal with
      | |- keeps _ (if ?c then _ else _) => destruct c
      | |- keeps _ (match ?x with _ => _ end) => destruct x
      end ].

Ltac open_route :=
  unfold AuthServer.route;
  cbn [AuthServer.guarded AuthServer.handler];
  unfold AuthServer.requireAuth, AuthServer.isAuthenticated,
    AuthServer.get_root, AuthServer.get_books_new,
    AuthServer.get_books_id_edit, AuthServer.post_books,
    AuthServer.post_books_id_edit, AuthServer.post_books_id_delete,
    AuthServer.get_login, AuthServer.get_register,
    AuthServer.post_register, AuthServer.post_login,
    AuthServer.local_strategy, AuthServer.verify, AuthServer.post_logout,
    req_user_id.

Section RouteFacts.
Variable env : Env.

(** Whatever the route and the request, the rows of [books] that the
    caller does not own come out as they went in. *)
Lemma route_keeps_others (r : AuthServer.Route) (req : Request) :
  keeps (others_kept (option_map su_id (user req)))
        (AuthServer.route env r req).
Proof.
  destruct r; open_route;
    destruct (user req) as [u|]; cbn [option_map negb];
    keep prim_others.
Qed.

(** The routes registered with [app.get] change neither the tables nor
    the session. *)
Lemma get_route_untouched (r : AuthServer.Route) (req : Request) :
  is_get r = true -> keeps untouched (AuthServer.route env r req).
Proof.
  destruct r; try discriminate; intros _; open_route;
    destruct (user req) as [u|]; cbn [negb];
    keep prim_untouched.
Qed.

(** Login and logout never write to the tables. *)
Lemma login_logout_same_db (req : Request) :
  keeps same_db (AuthServer.post_login env req) /\
  keeps same_db (AuthServer.post_logout req).
Proof.
  unfold AuthServer.post_login, AuthServer.local_strategy, AuthServer.verify,
    AuthServer.post_logout.
  split; keep prim_same_db.
Qed.

End RouteFacts.

(** ** One request through the whole stack *)

Section AppFacts.
Variable env : Env.

(** [passport.session()] never throws on a stored identifier and never
    writes to the tables; it yields the user the identifier resolves to,
    or nobody, in which case the session ends up without identifier. *)
Lemma passport_session_run (w : World) :
  exists ou w1,
    AuthServer.passport_session env w = (Ok ou, w1) /\
    db w1 = db w /\
    match ou with
    | Some u =>
        session w = Some (su_id u) /\ session w1 = session w /\
        exists usr, In usr (users (db w)) /\ User.id usr = su_id u /\
                    User.email usr = su_email u
    | None =>
        session w1 = None /\
        (session w = None \/
         exists sid, session w = Some sid /\
                     forall usr, In usr (users (db w)) -> User.id usr <> sid)
    end.
Proof.
  unfold AuthServer.passport_session.
  destruct (session w) as [sid|] eqn:Hs.
  - unfold AuthServer.deserializeUser, bind, db_query, exec.
    rewrite int_param_number. unfold obind.
    destruct (filter (fun u => sql_eqZ (Some (User.id u)) (Some sid))
                     (users (db w))) as [|usr rest] eqn:Hf; cbn.
    + do 2 eexists. split; [reflexivity|]. split; [reflexivity|].
      split; [reflexivity|]. right. exists sid. split; [reflexivity|].
      intros usr Hin. rewrite filter_nil_iff in Hf. specialize (Hf usr Hin).
      simpl in Hf. now apply Z.eqb_neq.
    + do 2 eexists. split; [reflexivity|]. split; [reflexivity|].
      apply filter_head in Hf. destruct Hf as [Hin Hid].
      simpl in Hid. apply Z.eqb_eq in Hid. cbn.
      split; [now rewrite Hid|]. split; [exact Hs|].
      exists usr. auto.
  - do 2 eexists. split; [reflexivity|]. split; [reflexivity|].
    split; [exact Hs|]. now left.
Qed.

Lemma app_run (r : AuthServer.Route) (q b : list (string * jsval))
    (w : World) (ou : option SessionUser) (w1 : World) :
  AuthServer.passport_session env w = (Ok ou, w1) ->
  snd (AuthServer.app env r q b w)
  = snd (AuthServer.route env r (mkRequest ou q b) w1).
Proof.
  intros Hp. unfold AuthServer.app. rewrite Hp.
  destruct (AuthServer.route env r (mkRequest ou q b) w1) as [[res|e] w2];
    reflexivity.
Qed.

Lemma anonymous_route_same_db (r : AuthServer.Route) (req : Request) :
  user req = None ->
  r <> AuthServer.POST_register ->
  keeps same_db (AuthServer.route env r req).
Proof.
  intros Hu Hr. destruct r; try (now elim Hr); open_route;
    try rewrite Hu; cbn [negb]; keep prim_same_db.
Qed.

End AppFacts.

(** X1.  No request, whatever its route, query and form, changes a book of
    anybody but the user the session identifies: the rows of other owners
    come out of [app] exactly as they went in. *)
Theorem requests_leave_other_owners_rows
    (env : Env) (r : AuthServer.Route) (q b : list (string * jsval))
    (w : World) :
  filter (fun x => negb (where_user (session w) x))
         (books (db (snd (AuthServer.app env r q b w))))
  = filter (fun x => negb (where_user (session w) x)) (books (db w)).
Proof.
  destruct (passport_session_run env w) as (ou & w1 & Hp & Hd & Hou).
  rewrite (app_run env r q b w Hp).
  assert (Hr := @route_keeps_others env r (mkRequest ou q b) w1).
  unfold others_kept in Hr. cbn [user] in Hr.
  destruct ou as [u|]; cbn [option_map] in Hr.
  - destruct Hou as (Hs & _). rewrite Hs, Hr, Hd. reflexivity.
  - apply others_kept_nobody in Hr. now rewrite Hr, Hd.
Qed.

(** X2.  A request without a session identifier never changes a book, and
    changes the tables at all only on [POST /register]. *)
Theorem anonymous_requests_write_no_book
    (env : Env) (r : AuthServer.Route) (q b : list (string * jsval))
    (w : World) :
  session w = None ->
  books (db (snd (AuthServer.app env r q b w))) = books (db w) /\
  (r <> AuthServer.POST_register ->
   db (snd (AuthServer.app env r q b w)) = db w).
Proof.
  intros Hs.
  assert (Hp : AuthServer.passport_session env w = (Ok None, w))
    by (unfold AuthServer.passport_session; now rewrite Hs).
  rewrite (app_run env r q b w Hp). split.
  - assert (Hr := @route_keeps_others env r (mkRequest None q b) w).
    now apply others_kept_nobody in Hr.
  - intros Hne.
    apply (@anonymous_route_same_db env r (mkRequest None q b) eq_refl Hne).
Qed.

Lemma anonymous_requests_write_no_book_witness :
  books (db (snd (AuthServer.app test_env (AuthServer.POST_books_id_delete "1")
                    [] [] bobs_shelf)))
  = books (db bobs_shelf).
Proof.
  apply (@anonymous_requests_write_no_book test_env
           (AuthServer.POST_books_id_delete "1") [] [] bobs_shelf eq_refl).
Defined.

(** X3.  The routes registered with [app.get] never write to the tables, and
    the only change a GET request makes to the session is the one
    [passport.session()] makes before any route runs: dropping an
    identifier that no longer resolves to a user. *)
Theorem get_requests_are_read_only
    (env : Env) (r : AuthServer.Route) (q b : list (string * jsval))
    (w : World) :
  is_get r = true ->
  let w' := snd (AuthServer.app env r q b w) in
  db w' = db w /\
  (session w' = session w \/
   (session w' = None /\
    exists sid, session w = Some sid /\
                forall usr, In usr (users (db w)) -> User.id usr <> sid)).
Proof.
  intros Hg w'. subst w'.
  destruct (passport_session_run env w) as (ou & w1 & Hp & Hd & Hou).
  rewrite (app_run env r q b w Hp).
  destruct (@get_route_untouched env r (mkRequest ou q b) Hg w1) as [Hd2 Hs2].
  split; [congruence|].
  destruct ou as [u|].
  - destruct Hou as (_ & Hs1 & _). left. congruence.
  - destruct Hou as (Hs1 & [Hnone|Hstale]).
    + left. congruence.
    + right. split; [congruence|exact Hstale].
Qed.

Lemma get_requests_are_read_only_witness :
  let w' := snd (AuthServer.app test_env (AuthServer.GET_books_id_edit "2")
                   [] [] alices_shelf) in
  db w' = db alices_shelf /\
  (session w' = session alices_shelf \/
   (session w' = None /\
    exists sid, session alices_shelf = Some sid /\
                forall usr, In usr (users (db alices_shelf)) ->
                            User.id usr <> sid)).
Proof.
  apply (@get_requests_are_read_only test_env
           (AuthServer.GET_books_id_edit "2") [] [] alices_shelf eq_refl).
Defined.

Lemma app_ok (env : Env) (r : AuthServer.Route) (q b : list (string * jsval))
    (w w1 w2 : World) (ou : option SessionUser) (res : Response) :
  AuthServer.passport_session env w = (Ok ou, w1) ->
  AuthServer.route env r (mkRequest ou q b) w1 = (Ok res, w2) ->
  AuthServer.app env r q b w = (res, w2).
Proof. intros Hp Hr. unfold AuthServer.app. now rewrite Hp, Hr. Qed.

(** X4.  A request whose session resolves to a user passes the guard of
    [GET /] and gets a page that holds that user's books and no others,
    each of them once, under the sort key the request asked for; nothing
    is written and the session stays as it was. *)
Theorem valid_session_lists_own_books
    (env : Env) (q b : list (string * jsval)) (w : World) (sid : Z) :
  session w = Some sid ->
  (exists usr, In usr (users (db w)) /\ User.id usr = sid) ->
  let run := AuthServer.app env AuthServer.GET_root q b w in
  exists bs,
    fst run = Render (IndexEjs bs (js_or (field q "sort") (JStr "recent"))) /\
    Permutation (books_of sid (db w)) bs /\
    (forall x, In x bs <->
               In x (books (db w)) /\ Book.user_id x = Some sid) /\
    db (snd run) = db w /\
    session (snd run) = Some sid.
Proof.
  intros Hs [usr [Hin Hid]] run. subst run.
  destruct (passport_session_run env w) as (ou & w1 & Hp & Hd & Hou).
  destruct ou as [u|].
  - destruct Hou as (Hsu & Hs1 & _).
    assert (Hu : su_id u = sid) by congruence.
    assert (Hrun := @get_root_run env (mkRequest (Some u) q b) w1 u eq_refl).
    cbv zeta in Hrun.
    assert (Hroute : AuthServer.route env AuthServer.GET_root
                       (mkRequest (Some u) q b) w1
                     = AuthServer.get_root env (mkRequest (Some u) q b) w1)
      by reflexivity.
    rewrite Hrun in Hroute.
    rewrite (app_ok env AuthServer.GET_root q b w Hp Hroute).
    cbn [fst snd]. unfold query_field, emit. cbn [query db session].
    rewrite Hu, Hd, Hs1.
    assert (Hperm := order_by_perm env
                       (orderBy_of (js_or (field q "sort") (JStr "recent")))
                       (books_of sid (db w))).
    eexists. split; [reflexivity|]. split; [exact Hperm|].
    split; [|split; [reflexivity|exact Hs]].
    intros x. rewrite <- books_of_In. split; intros Hx.
    + eapply Permutation_in; [apply Permutation_sym|]; eassumption.
    + eapply Permutation_in; eassumption.
  - destruct Hou as (_ & [Hnone|[sid' [Hs' Hno]]]); [congruence|].
    exfalso. apply (Hno usr Hin). congruence.
Qed.

Lemma valid_session_lists_own_books_witness :
  let run := AuthServer.app test_env AuthServer.GET_root (sort_query "rating")
               [] alices_shelf in
  exists bs,
    fst run = Render (IndexEjs bs (JStr "rating")) /\
    Permutation [banana; Apple; cherry] bs /\
    (forall x, In x bs <->
               In x (books (db alices_shelf)) /\ Book.user_id x = Some 1) /\
    db (snd run) = db alices_shelf /\
    session (snd run) = Some 1.
Proof.
  apply (@valid_session_lists_own_books test_env (sort_query "rating") []
           alices_shelf 1 eq_refl).
  exists (User.mk 1 "alice@example.org" "$2b$10$wonderland").
  split; [left; reflexivity|reflexivity].
Defined.

(** X5.  After [POST /logout] the session holds no identifier, the tables are
    as before, and every gated route of the next request redirects to the
    login page. *)
Theorem logout_closes_the_gate
    (env : Env) (r : AuthServer.Route) (q b q' b' : list (string * jsval))
    (w : World) :
  AuthServer.guarded r = true ->
  let out := AuthServer.app env AuthServer.POST_logout q b w in
  fst out = Redirect "/login" /\
  session (snd out) = None /\
  db (snd out) = db w /\
  fst (AuthServer.app env r q' b' (snd out)) = Redirect "/login".
Proof.
  intros Hg out. subst out.
  destruct (passport_session_run env w) as (ou & w1 & Hp & Hd & _).
  rewrite (app_ok env AuthServer.POST_logout q b w Hp
             (logout_runs env (mkRequest ou q b) w1)).
  cbn [fst snd session db]. repeat split; [exact Hd|].
  unfold AuthServer.app, AuthServer.passport_session. cbn [session].
  now rewrite guarded_route_anonymous.
Qed.

Lemma logout_closes_the_gate_witness :
  fst (AuthServer.app test_env AuthServer.GET_root [] []
         (snd (AuthServer.app test_env AuthServer.POST_logout [] []
                 alices_shelf)))
  = Redirect "/login".
Proof.
  apply (@logout_closes_the_gate test_env AuthServer.GET_root [] [] [] []
           alices_shelf eq_refl).
Defined.

(** ** Logging in *)

Lemma filter_unique (A B : Type) (key : A -> B) (same : A -> bool)
    (rows : list A) (x : A) :
  NoDup (map key rows) ->
  In x rows ->
  same x = true ->
  (forall y, same y = true -> key y = key x) ->
  filter same rows = [x].
Proof.
  intros Hnd Hin Hx Hsame.
  induction rows as [|y rows IH]; [contradiction|].
  inversion Hnd as [|? ? Hy Hrest]; subst. cbn [filter].
  destruct Hin as [->|Hin].
  - rewrite Hx. f_equal.
    apply filter_nil_iff. intros z Hz.
    destruct (same z) eqn:Hsz; [|reflexivity].
    exfalso. apply Hy. apply Hsame in Hsz. rewrite <- Hsz. now apply in_map.
  - destruct (same y) eqn:Hsy.
    + exfalso. apply Hy. apply Hsame in Hsy. rewrite Hsy. now apply in_map.
    + now apply IH.
Qed.

Section LoginSuccess.
Variable env : Env.
Variables (w : World) (e p : string) (usr : User.t) (rest : list User.t).
Hypothesis Hrows :
  filter (fun u => (User.email u =? e)%string) (users (db w)) = usr :: rest.
Hypothesis Hok : bcrypt_compare env p (User.password usr) = true.

Lemma verify_accepts :
  AuthServer.verify env (JStr e) (JStr p) w =
  (Ok (AuthServer.VUser (mkSessionUser (User.id usr) (User.email usr))),
   emit (EQuery (sql SelectUserByEmail) [JStr e]) w).
Proof using Hrows Hok.
  unfold AuthServer.verify, try_catch, bind, db_query. simpl.
  rewrite Hrows. unfold ret. simpl. now rewrite Hok.
Qed.

Lemma post_login_accepts (su : option SessionUser) :
  e <> EmptyString ->
  p <> EmptyString ->
  AuthServer.post_login env (mkRequest su [] (login_form e p)) w =
  (Ok (Redirect "/"),
   mkWorld (db w) (Some (User.id usr)) (entropy w)
           (trace w ++ [EQuery (sql SelectUserByEmail) [JStr e];
                        ELogIn (User.id usr)])).
Proof using Hrows Hok.
  intros He Hp. apply String.eqb_neq in He, Hp.
  unfold AuthServer.post_login, AuthServer.local_strategy, bind.
  destruct (login_form_credentials su e p) as [-> ->].
  rewrite He, Hp. unfold js_not, truthy. rewrite He, Hp. cbn [negb orb].
  rewrite verify_accepts. cbn. rewrite <- app_assoc. reflexivity.
Qed.

End LoginSuccess.

(** X6.  A login with a registered email and a password that passes the hash
    comparison redirects home, stores that user's identifier in the
    session and writes nothing to the tables. *)
Theorem login_establishes_session
    (env : Env) (w : World) (su : option SessionUser) (usr : User.t)
    (p : string) :
  wf_db (db w) ->
  In usr (users (db w)) ->
  User.email usr <> EmptyString ->
  p <> EmptyString ->
  bcrypt_compare env p (User.password usr) = true ->
  let run :=
    AuthServer.post_login env
      (mkRequest su [] (login_form (User.email usr) p)) w in
  fst run = Ok (Redirect "/") /\
  session (snd run) = Some (User.id usr) /\
  db (snd run) = db w.
Proof.
  intros (_ & _ & _ & _ & Hmail) Hin He Hp Hok run. subst run.
  assert (Hrows : filter (fun u => (User.email u =? User.email usr)%string)
                         (users (db w)) = [usr]).
  { apply filter_unique with (key := User.email); auto.
    - apply String.eqb_refl.
    - intros y. apply String.eqb_eq. }
  rewrite (@post_login_accepts env w (User.email usr) p usr [] Hrows Hok su
             He Hp).
  repeat split.
Qed.

Lemma login_establishes_session_witness :
  let run :=
    AuthServer.post_login test_env
      (mkRequest None [] (login_form "alice@example.org" "wonderland"))
      bobs_shelf in
  fst run = Ok (Redirect "/") /\
  session (snd run) = Some 1 /\
  db (snd run) = db bobs_shelf.
Proof.
  apply (@login_establishes_session test_env bobs_shelf None
           (User.mk 1 "alice@example.org" "$2b$10$wonderland") "wonderland"
           bobs_shelf_wf).
  - left. reflexivity.
  - discriminate.
  - discriminate.
  - reflexivity.
Defined.

(** ** Registration, then logging in *)

Lemma filter_fresh_email (us : list User.t) (new : User.t) :
  (forall usr, In usr us -> User.email usr <> User.email new) ->
  filter (fun u => (User.email u =? User.email new)%string) (us ++ [new])
  = [new].
Proof.
  intros Hfresh. rewrite filter_app. cbn [filter].
  rewrite String.eqb_refl.
  replace (filter _ us) with (@nil User.t); [reflexivity|].
  symmetry. apply filter_nil_iff. intros usr Hin.
  apply String.eqb_neq. now apply Hfresh.
Qed.

(** X7.  Register, log out, log in again with the same credentials: provided
    bcrypt accepts the password against the hash it has just produced,
    the login succeeds and the session holds the identifier the
    registration issued. *)
Theorem register_logout_login
    (env : Env) (w : World) (e p : string) :
  session w = None ->
  (forall usr, In usr (users (db w)) -> User.email usr <> e) ->
  e <> EmptyString ->
  p <> EmptyString ->
  bcrypt_compare env p (bcrypt_hash env p 10 (entropy w)) = true ->
  let w1 := snd (AuthServer.app env AuthServer.POST_register []
                   (login_form e p) w) in
  let w2 := snd (AuthServer.app env AuthServer.POST_logout [] [] w1) in
  let back := AuthServer.app env AuthServer.POST_login []
                (login_form e p) w2 in
  session w1 = Some (users_id_seq (db w)) /\
  session w2 = None /\
  fst back = Redirect "/" /\
  session (snd back) = Some (users_id_seq (db w)).
Proof.
  intros Hs Hfresh He Hp Hok w1 w2 back.
  assert (Hp0 : AuthServer.passport_session env w = (Ok None, w))
    by (unfold AuthServer.passport_session; now rewrite Hs).
  assert (Hreg := @register_fresh env (mkRequest None [] (login_form e p)) w e
                    eq_refl p eq_refl Hfresh).
  cbv zeta in Hreg.
  assert (Hw1 := app_ok env AuthServer.POST_register [] (login_form e p) w
                   Hp0 Hreg).
  assert (Hs1 : session w1 = Some (users_id_seq (db w)))
    by (subst w1; now rewrite Hw1).
  assert (Hd1 : users (db w1)
                = (users (db w) ++
                   [User.mk (users_id_seq (db w)) e
                            (bcrypt_hash env p 10 (entropy w))])%list)
    by (subst w1; now rewrite Hw1).
  destruct (passport_session_run env w1) as (ou & w1' & Hp1 & Hd1' & _).
  assert (Hw2 := app_ok env AuthServer.POST_logout [] [] w1 Hp1
                   (logout_runs env (mkRequest ou [] []) w1')).
  assert (Hs2 : session w2 = None) by (subst w2; now rewrite Hw2).
  assert (Hd2 : db w2 = db w1) by (subst w2; now rewrite Hw2).
  assert (Hp2 : AuthServer.passport_session env w2 = (Ok None, w2))
    by (unfold AuthServer.passport_session; now rewrite Hs2).
  assert (Hrows : filter (fun u => (User.email u =? e)%string)
                         (users (db w2))
                  = [User.mk (users_id_seq (db w)) e
                             (bcrypt_hash env p 10 (entropy w))]).
  { rewrite Hd2, Hd1.
    apply (filter_fresh_email (users (db w))
             (User.mk (users_id_seq (db w)) e
                      (bcrypt_hash env p 10 (entropy w)))).
    exact Hfresh. }
  assert (Hlogin := @post_login_accepts env w2 e p _ _ Hrows Hok None He Hp).
  assert (Hback := app_ok env AuthServer.POST_login [] (login_form e p) w2
                     Hp2 Hlogin).
  subst back. rewrite Hback. repeat split; assumption.
Qed.

Lemma register_logout_login_witness :
  let w1 := snd (AuthServer.app test_env AuthServer.POST_register []
                   (login_form "carol@example.org" "s3cret") bobs_shelf) in
  let w2 := snd (AuthServer.app test_env AuthServer.POST_logout [] [] w1) in
  let back := AuthServer.app test_env AuthServer.POST_login []
                (login_form "carol@example.org" "s3cret") w2 in
  session w1 = Some 3 /\
  session w2 = None /\
  fst back = Redirect "/" /\
  session (snd back) = Some 3.
Proof.
  apply (@register_logout_login test_env bobs_shelf "carol@example.org"
           "s3cret" eq_refl).
  - intros usr [<-|[<-|[]]]; discriminate.
  - discriminate.
  - discriminate.
  - reflexivity.
Defined.



(** X9.  A registration whose password field is missing or is not a string
    ends in the generic server error and creates no account. *)
Theorem registration_without_password
    (env : Env) (req : Request) (w : World) (e : string) :
  field (body req) "email" = JStr e ->
  (forall usr, In usr (users (db w)) -> User.email usr <> e) ->
  (forall s, field (body req) "password" <> JStr s) ->
  let run := AuthServer.post_register env req w in
  fst run = Ok (Send 500 "Error registering user") /\
  db (snd run) = db w /\
  session (snd run) = session w.
Proof.
  intros Hemail Hfresh Hpw run. subst run.
  assert (Hnone : filter (fun u => (User.email u =? e)%string)
                         (users (db w)) = []).
  { apply filter_nil_iff. intros usr Hin.
    apply String.eqb_neq. now apply Hfresh. }
  unfold AuthServer.post_register, try_catch, bind, db_query.
  rewrite Hemail. simpl. rewrite Hnone. simpl.
  destruct (field (body req) "password") as [| |b|q|s|l|l];
    try (repeat split; reflexivity).
  now elim (Hpw s).
Qed.

Lemma registration_without_password_witness :
  let run :=
    AuthServer.post_register test_env
      (mkRequest None [] [("email", JStr "carol@example.org")]) bobs_shelf in
  fst run = Ok (Send 500 "Error registering user") /\
  db (snd run) = db bobs_shelf /\
  session (snd run) = session bobs_shelf.
Proof.
  apply (@registration_without_password test_env
           (mkRequest None [] [("email", JStr "carol@example.org")])
           bobs_shelf "carol@example.org" eq_refl).
  - intros usr [<-|[<-|[]]]; discriminate.
  - intros s. discriminate.
Defined.

(** ** The owner's own books: read, create, update, delete *)

Lemma where_id_user_iff (bid uid : Z) (b : Book.t) :
  where_id_user (Some bid) (Some uid) b = true <->
  Book.id b = bid /\ Book.user_id b = Some uid.
Proof.
  unfold where_id_user, sql_eqZ. rewrite andb_true_iff, Z.eqb_eq.
  destruct (Book.user_id b) as [o|]; [rewrite Z.eqb_eq|];
    intuition congruence.
Qed.

Section OwnBook.
Variable env : Env.
Variables (req : Request) (w : World) (u : SessionUser) (id : string)
          (b : Book.t).
Hypothesis Hu : user req = Some u.
Hypothesis Hwf : wf_db (db w).
Hypothesis Hin : In b (books (db w)).
Hypothesis Hown : Book.user_id b = Some (su_id u).
Hypothesis Hid : int4in env id = Some (Book.id b).

Let cond := where_id_user (Some (Book.id b)) (Some (su_id u)).

Lemma own_row_selected : filter cond (books (db w)) = [b].
Proof using Hwf Hin Hown.
  destruct Hwf as (Hnd & _).
  apply filter_unique with (key := Book.id); auto.
  - now apply where_id_user_iff.
  - intros y Hy. now apply where_id_user_iff in Hy.
Qed.

(** On the rows of the table the ownership filter picks out the row with
    the identifier of [b], that is [b] itself. *)
Lemma own_row_cond (x : Book.t) :
  In x (books (db w)) -> cond x = (Book.id x =? Book.id b).
Proof using Hwf Hin Hown.
  intros Hx. destruct Hwf as (Hnd & _).
  destruct (Z.eqb_spec (Book.id x) (Book.id b)) as [Heq|Hne].
  - assert (x = b) by (eapply NoDup_map_inj; eauto). subst x.
    now apply where_id_user_iff.
  - destruct (cond x) eqn:Hc; [|reflexivity].
    apply where_id_user_iff in Hc. tauto.
Qed.

Lemma edit_form_finds :
  AuthServer.get_books_id_edit env id req w =
  (Ok (Render (BookFormEjs (Some b) ("/books/" ++ id ++ "/edit") "POST"
                           "Edit book")),
   emit (EQuery (sql SelectBookOfUser) [JStr id; JNum (inject_Z (su_id u))])
        w).
Proof using Hu Hwf Hin Hown Hid.
  rewrite (@auth_edit_form_run env req w u Hu id).
  unfold exec. rewrite int_param_route, Hid, int_param_number.
  cbn [option_map obind]. unfold select_books.
  fold cond. rewrite own_row_selected. reflexivity.
Qed.

Lemma delete_removes_own_row :
  AuthServer.post_books_id_delete env id req w =
  (Ok (Redirect "/"),
   mkWorld (with_books (db w)
              (filter (fun x => negb (Book.id x =? Book.id b)) (books (db w))))
           (session w) (entropy w)
           (trace w ++ [EQuery (sql DeleteBookOfUser)
                               [JStr id; JNum (inject_Z (su_id u))]])).
Proof using Hu Hwf Hin Hown Hid.
  rewrite (@auth_delete_run env req w u Hu id).
  unfold exec. rewrite int_param_route, Hid, int_param_number.
  cbn [option_map obind]. unfold delete_books. fold cond.
  replace (filter (fun x => negb (cond x)) (books (db w)))
    with (filter (fun x => negb (Book.id x =? Book.id b)) (books (db w)));
    [reflexivity|].
  apply filter_ext_in. intros x Hx. now rewrite own_row_cond.
Qed.

Lemma update_overwrites_own_row (t : string) (r f : option Z) :
  text_param env (field (body req) "title") = Some t ->
  int_param env (js_or (field (body req) "rating") JNull) = Some r ->
  date_param env (js_or (field (body req) "finished_on") JNull) = Some f ->
  let a := text_param env (js_or (field (body req) "author") JNull) in
  let i := text_param env (js_or (field (body req) "isbn") JNull) in
  let n := text_param env (js_or (field (body req) "notes") JNull) in
  exists tr,
    AuthServer.post_books_id_edit env id req w =
    (Ok (Redirect "/"),
     mkWorld (with_books (db w)
                (map (fun x => if Book.id x =? Book.id b
                               then set_fields t a i r n f b else x)
                     (books (db w))))
             (session w) (entropy w) tr).
Proof using Hu Hwf Hin Hown Hid.
  intros Ht Hr Hf a i n.
  rewrite (@auth_update_run env req w u Hu id). cbv zeta.
  unfold exec. rewrite int_param_route, Hid, int_param_number.
  cbn [option_map obind]. unfold update_books, obind.
  rewrite Hr, Hf, Ht. fold cond. fold a i n.
  eexists. f_equal. f_equal. f_equal.
  apply map_ext_in. intros x Hx. rewrite (own_row_cond x Hx).
  destruct (Z.eqb_spec (Book.id x) (Book.id b)) as [Heq|]; [|reflexivity].
  destruct Hwf as (Hnd & _).
  assert (x = b) by (eapply NoDup_map_inj; eauto). now subst.
Qed.

End OwnBook.

Lemma logged_in_route (env : Env) (r : AuthServer.Route) (req : Request)
    (u : SessionUser) (w : World) :
  user req = Some u ->
  AuthServer.route env r req w = AuthServer.handler env r req w.
Proof.
  intros Hu. unfold AuthServer.route.
  destruct (AuthServer.guarded r); [|reflexivity].
  now apply requireAuth_logged_in with (u := u).
Qed.

Lemma handler_keeps_wf (env : Env) (r : AuthServer.Route) (req : Request)
    (u : SessionUser) (w : World) :
  user req = Some u ->
  wf_db (db w) ->
  wf_db (db (snd (AuthServer.handler env r req w))).
Proof.
  intros Hu Hwf. rewrite <- (logged_in_route env r req w Hu).
  now apply keeps_wf_route.
Qed.

(** X10.  The owner of a book gets it back from the edit form, prefilled, and
    the request writes nothing. *)
Theorem owner_reads_own_book
    (env : Env) (req : Request) (w : World) (u : SessionUser) (id : string)
    (b : Book.t) :
  user req = Some u ->
  wf_db (db w) ->
  In b (books (db w)) ->
  Book.user_id b = Some (su_id u) ->
  int4in env id = Some (Book.id b) ->
  let run := AuthServer.get_books_id_edit env id req w in
  fst run = Ok (Render (BookFormEjs (Some b) ("/books/" ++ id ++ "/edit")
                                    "POST" "Edit book")) /\
  db (snd run) = db w /\
  session (snd run) = session w.
Proof.
  intros Hu Hwf Hin Hown Hid run. subst run.
  rewrite (@edit_form_finds env req w u id b Hu Hwf Hin Hown Hid).
  repeat split.
Qed.

Lemma alices_shelf_wf : wf_db (db alices_shelf).
Proof.
  unfold wf_db; simpl. repeat split.
  - repeat constructor; simpl; intuition discriminate.
  - intros b [<-|[<-|[<-|[<-|[]]]]]; reflexivity.
  - repeat constructor; simpl; intuition discriminate.
  - intros u [<-|[<-|[]]]; reflexivity.
  - repeat constructor; simpl; intuition discriminate.
Defined.

Lemma owner_reads_own_book_witness :
  fst (AuthServer.get_books_id_edit test_env "3" (mkRequest (Some alice) [] [])
         alices_shelf)
  = Ok (Render (BookFormEjs (Some cherry) "/books/3/edit" "POST" "Edit book")).
Proof.
  apply (@owner_reads_own_book test_env (mkRequest (Some alice) [] [])
           alices_shelf alice "3" cherry eq_refl alices_shelf_wf).
  - right. right. left. reflexivity.
  - reflexivity.
  - reflexivity.
Defined.

(** X11.  An accepted update by the owner replaces exactly the one row: its six
    editable columns take the submitted values, its identifier, owner and
    cover stay, every other row and the [users] table are as before; the
    edit form then shows the row as overwritten. *)
Theorem update_overwrites_exactly_own_row
    (env : Env) (req : Request) (w : World) (u : SessionUser) (id : string)
    (b : Book.t) (t : string) (r f : option Z) :
  user req = Some u ->
  wf_db (db w) ->
  In b (books (db w)) ->
  Book.user_id b = Some (su_id u) ->
  int4in env id = Some (Book.id b) ->
  text_param env (field (body req) "title") = Some t ->
  int_param env (js_or (field (body req) "rating") JNull) = Some r ->
  date_param env (js_or (field (body req) "finished_on") JNull) = Some f ->
  let a := text_param env (js_or (field (body req) "author") JNull) in
  let i := text_param env (js_or (field (body req) "isbn") JNull) in
  let n := text_param env (js_or (field (body req) "notes") JNull) in
  let b' :=
    Book.mk (Book.id b) (Book.user_id b) t a i (Book.cover_url b) r f n in
  let run := AuthServer.post_books_id_edit env id req w in
  fst run = Ok (Redirect "/") /\
  books (db (snd run))
  = map (fun x => if Book.id x =? Book.id b then b' else x) (books (db w)) /\
  users (db (snd run)) = users (db w) /\
  forall again : Request,
    user again = Some u ->
    fst (AuthServer.get_books_id_edit env id again (snd run))
    = Ok (Render (BookFormEjs (Some b') ("/books/" ++ id ++ "/edit")
                              "POST" "Edit book")).
Proof.
  intros Hu Hwf Hin Hown Hid Ht Hr Hf a i n b' run.
  assert (Hwf' : wf_db (db (snd run)))
    by (apply (@handler_keeps_wf env (AuthServer.POST_books_id_edit id)
                 req u w Hu Hwf)).
  destruct (@update_overwrites_own_row env req w u id b Hu Hwf Hin Hown Hid
              t r f Ht Hr Hf) as [tr Hrun].
  cbv zeta in Hrun. fold a i n in Hrun.
  change (set_fields t a i r n f b) with b' in Hrun.
  subst run. rewrite Hrun in *. cbn [fst snd] in *.
  split; [reflexivity|]. split; [reflexivity|]. split; [reflexivity|].
  intros again Hagain.
  rewrite (@edit_form_finds env again _ u id b' Hagain Hwf');
    [reflexivity| |exact Hown|exact Hid].
  cbn [db books with_books]. apply in_map_iff. exists b.
  rewrite Z.eqb_refl. auto.
Qed.

Lemma update_overwrites_exactly_own_row_witness :
  let req :=
    mkRequest (Some alice) []
      (book_form "Cherry Orchard" "Chekhov" "9780140449563" "4" "play"
                 "19040117") in
  let run := AuthServer.post_books_id_edit test_env "3" req alices_shelf in
  fst run = Ok (Redirect "/") /\
  books (db (snd run))
  = [banana; Apple;
     Book.mk 3 (Some 1) "Cherry Orchard" (Some "Chekhov")
             (Some "9780140449563") None (Some 4) (Some 19040117)
             (Some "play");
     dune].
Proof.
  intros req run.
  destruct (@update_overwrites_exactly_own_row test_env req alices_shelf alice
              "3" cherry "Cherry Orchard" (Some 4) (Some 19040117) eq_refl
              alices_shelf_wf) as (H1 & H2 & _).
  - right. right. left. reflexivity.
  - reflexivity.
  - reflexivity.
  - reflexivity.
  - reflexivity.
  - reflexivity.
  - split; [exact H1|exact H2].
Defined.

(** X12.  An accepted create appends one row that carries the caller as owner
    and the next value of the identifier sequence, leaves every existing
    row in place, and the new book is then served to its owner by the
    edit form and shown in the owner's listing. *)
Theorem create_then_read_back
    (env : Env) (req : Request) (w : World) (u : SessionUser)
    (t : string) (r f : option Z) (id : string) :
  user req = Some u ->
  wf_db (db w) ->
  text_param env (field (body req) "title") = Some t ->
  int_param env (js_or (field (body req) "rating") JNull) = Some r ->
  date_param env (js_or (field (body req) "finished_on") JNull) = Some f ->
  int4in env id = Some (books_id_seq (db w)) ->
  let a := text_param env (js_or (field (body req) "author") JNull) in
  let i := text_param env (js_or (field (body req) "isbn") JNull) in
  let n := text_param env (js_or (field (body req) "notes") JNull) in
  let new :=
    Book.mk (books_id_seq (db w)) (Some (su_id u)) t a i None r f n in
  let run := AuthServer.post_books env req w in
  fst run = Ok (Redirect "/") /\
  books (db (snd run)) = (books (db w) ++ [new])%list /\
  In new (books_of (su_id u) (db (snd run))) /\
  forall again : Request,
    user again = Some u ->
    fst (AuthServer.get_books_id_edit env id again (snd run))
    = Ok (Render (BookFormEjs (Some new) ("/books/" ++ id ++ "/edit")
                              "POST" "Edit book")).
Proof.
  intros Hu Hwf Ht Hr Hf Hid a i n new run.
  assert (Hwf' : wf_db (db (snd run)))
    by (apply (@handler_keeps_wf env AuthServer.POST_books req u w Hu Hwf)).
  assert (Hrun : exists tr,
             run = (Ok (Redirect "/"),
                    mkWorld (mkDb (users (db w)) (books (db w) ++ [new])
                                  (users_id_seq (db w))
                                  (books_id_seq (db w) + 1))
                            (session w) (entropy w) tr)).
  { subst run. rewrite (@auth_create_run env req w u Hu). cbv zeta.
    unfold exec. rewrite int_param_number. cbn [obind].
    unfold insert_book, obind. rewrite Hr, Hf, Ht.
    eexists. reflexivity. }
  destruct Hrun as [tr Hrun]. rewrite Hrun in *. cbn [fst snd] in *.
  assert (Hnew : In new (books_of (su_id u)
                           (mkDb (users (db w)) (books (db w) ++ [new])
                                 (users_id_seq (db w))
                                 (books_id_seq (db w) + 1)))).
  { apply books_of_In. split; [|reflexivity].
    cbn [books]. apply in_or_app. right. now left. }
  split; [reflexivity|]. split; [reflexivity|]. split; [exact Hnew|].
  intros again Hagain.
  rewrite (@edit_form_finds env again _ u id new Hagain Hwf');
    [reflexivity| |reflexivity|exact Hid].
  cbn [db books]. apply in_or_app. right. now left.
Qed.

Lemma create_then_read_back_witness :
  let req :=
    mkRequest (Some alice) []
      (book_form "Emma" "Jane Austen" "9780141439587" "4" "reread"
                 "20240131") in
  let new :=
    Book.mk 5 (Some 1) "Emma" (Some "Jane Austen") (Some "9780141439587")
            None (Some 4) (Some 20240131) (Some "reread") in
  let run := AuthServer.post_books test_env req alices_shelf in
  fst run = Ok (Redirect "/") /\
  fst (AuthServer.get_books_id_edit test_env "5"
         (mkRequest (Some alice) [] []) (snd run))
  = Ok (Render (BookFormEjs (Some new) "/books/5/edit" "POST" "Edit book")).
Proof.
  intros req new run.
  destruct (@create_then_read_back test_env req alices_shelf alice "Emma"
              (Some 4) (Some 20240131) "5" eq_refl alices_shelf_wf eq_refl
              eq_refl eq_refl eq_refl) as (H1 & _ & _ & H4).
  split; [exact H1|].
  apply (H4 (mkRequest (Some alice) [] []) eq_refl).
Defined.

(** X13.  A delete by the owner removes exactly the one row, keeps every other
    row of every owner in place and in order, and the edit form for that
    identifier then answers "Book not found". *)
Theorem delete_then_gone
    (env : Env) (req : Request) (w : World) (u : SessionUser) (id : string)
    (b : Book.t) :
  user req = Some u ->
  wf_db (db w) ->
  In b (books (db w)) ->
  Book.user_id b = Some (su_id u) ->
  int4in env id = Some (Book.id b) ->
  let run := AuthServer.post_books_id_delete env id req w in
  fst run = Ok (Redirect "/") /\
  books (db (snd run))
  = filter (fun x => negb (Book.id x =? Book.id b)) (books (db w)) /\
  ~ In b (books (db (snd run))) /\
  users (db (snd run)) = users (db w) /\
  forall again : Request,
    user again = Some u ->
    fst (AuthServer.get_books_id_edit env id again (snd run))
    = Ok (Send 404 "Book not found").
Proof.
  intros Hu Hwf Hin Hown Hid run. subst run.
  rewrite (@delete_removes_own_row env req w u id b Hu Hwf Hin Hown Hid).
  cbn [fst snd db books with_books users].
  split; [reflexivity|]. split; [reflexivity|]. split; [|split].
  - intros Hb. apply filter_In in Hb. destruct Hb as [_ Hb].
    now rewrite Z.eqb_refl in Hb.
  - reflexivity.
  - intros again Hagain.
    rewrite (@auth_edit_form_not_found env again _ u id Hagain) with
      (bid := Book.id b); [reflexivity| |exact Hid].
    intros x Hx [Hxid _]. cbn [db books with_books] in Hx.
    apply filter_In in Hx. destruct Hx as [_ Hx].
    assert (Book.id x = Book.id b) by congruence.
    apply negb_true_iff, Z.eqb_neq in Hx. contradiction.
Qed.

Lemma delete_then_gone_witness :
  let run :=
    AuthServer.post_books_id_delete test_env "2"
      (mkRequest (Some alice) [] []) alices_shelf in
  fst run = Ok (Redirect "/") /\
  books (db (snd run)) = [banana; cherry; dune].
Proof.
  intros run.
  destruct (@delete_then_gone test_env (mkRequest (Some alice) [] [])
              alices_shelf alice "2" Apple eq_refl alices_shelf_wf)
    as (H1 & H2 & _).
  - right. left. reflexivity.
  - reflexivity.
  - reflexivity.
  - split; [exact H1|exact H2].
Defined.

(** ** Repeating a write *)

Lemma filter_twice (A : Type) (p : A -> bool) (l : list A) :
  filter p (filter p l) = filter p l.
Proof.
  induction l as [|x l IH]; [reflexivity|]. cbn [filter].
  destruct (p x) eqn:Hp; [|exact IH].
  cbn [filter]. rewrite Hp. now f_equal.
Qed.

Section RepeatFacts.
Variable env : Env.

Lemma delete_books_twice (c : Book.t -> bool) (d : Db) :
  snd (delete_books c (snd (delete_books c d))) = snd (delete_books c d).
Proof.
  unfold delete_books, with_books. cbn [snd books users users_id_seq
                                          books_id_seq].
  now rewrite filter_twice.
Qed.

Lemma update_books_twice (t a i r n f : jsval) (bid uid : option Z)
    (d d1 : Db) (k : nat) :
  update_books env t a i r n f (where_id_user bid uid) d = Some (k, d1) ->
  exists k',
    update_books env t a i r n f (where_id_user bid uid) d1 = Some (k', d1).
Proof.
  unfold update_books, obind.
  destruct (int_param env r) as [r'|]; [|discriminate].
  destruct (date_param env f) as [f'|]; [|discriminate].
  destruct (text_param env t) as [ttl|].
  - intros H. inversion H; subst; clear H. eexists. f_equal. f_equal.
    unfold with_books. cbn [books users users_id_seq books_id_seq].
    f_equal. rewrite map_map. apply map_ext. intros x.
    destruct (where_id_user bid uid x) eqn:Hc.
    + change (where_id_user bid uid (set_fields ttl _ _ r' _ f' x))
        with (where_id_user bid uid x).
      now rewrite Hc.
    + now rewrite Hc.
  - destruct (existsb _ (books d)) eqn:Hex; [discriminate|].
    intros H. inversion H; subst; clear H. rewrite Hex. eauto.
Qed.

End RepeatFacts.

(** X14.  Deleting twice is deleting once, and submitting the same edit twice is
    submitting it once: the second request leaves the tables exactly as
    the first one left them. *)
Theorem repeated_write_changes_nothing
    (env : Env) (id : string) (req : Request) (w : World) :
  (let w1 := snd (AuthServer.post_books_id_delete env id req w) in
   db (snd (AuthServer.post_books_id_delete env id req w1)) = db w1) /\
  (let w1 := snd (AuthServer.post_books_id_edit env id req w) in
   db (snd (AuthServer.post_books_id_edit env id req w1)) = db w1).
Proof.
  destruct (user req) as [u|] eqn:Hu.
  - split; intros w1; subst w1.
    + rewrite !(@auth_delete_run env req _ u Hu id).
      unfold exec. rewrite int_param_route, int_param_number.
      destruct (int4in env id) as [bid|]; cbn [option_map obind];
        [|reflexivity].
      cbn [snd db].
      destruct (delete_books _ (db w)) as [k d1] eqn:Hd1. cbn [snd db].
      assert (H2 := delete_books_twice
                      (where_id_user (Some bid) (Some (su_id u))) (db w)).
      rewrite Hd1 in H2. cbn [snd] in H2.
      destruct (delete_books _ d1) as [k2 d2]. cbn [snd] in *.
      cbn [db]. exact H2.
    + rewrite !(@auth_update_run env req _ u Hu id). cbv zeta.
      unfold exec. rewrite int_param_route, int_param_number.
      destruct (int4in env id) as [bid|]; cbn [option_map obind];
        [|reflexivity].
      destruct (update_books env _ _ _ _ _ _ _ (db w)) as [[k d1]|] eqn:Hd1;
        cbn [snd db].
      * destruct (update_books_twice env _ _ _ _ _ _ _ _ _ Hd1) as [k' Hd2].
        now rewrite Hd2.
      * unfold emit. cbn [db]. now rewrite Hd1.
  - split; intros w1; subst w1;
      unfold AuthServer.post_books_id_delete, AuthServer.post_books_id_edit,
        try_catch, bind, req_user_id;
      rewrite Hu; reflexivity.
Qed.

(** ** How many rows one statement writes *)

Lemma filter_at_most_one (A B : Type) (key : A -> B) (same : A -> bool)
    (rows : list A) :
  NoDup (map key rows) ->
  (forall x y, same x = true -> same y = true -> key x = key y) ->
  (List.length (filter same rows) <= 1)%nat.
Proof.
  intros Hnd Hsame. induction rows as [|x rows IH]; [simpl; lia|].
  inversion Hnd as [|? ? Hx Hrest]; subst. cbn [filter].
  destruct (same x) eqn:Hsx; [|now apply IH].
  replace (filter same rows) with (@nil A); [simpl; lia|].
  symmetry. apply filter_nil_iff. intros y Hy.
  destruct (same y) eqn:Hsy; [|reflexivity].
  exfalso. apply Hx. rewrite (Hsame x y Hsx Hsy). now apply in_map.
Qed.

Lemma where_id_same_key (bid : option Z) (x y : Book.t) :
  where_id bid x = true -> where_id bid y = true -> Book.id x = Book.id y.
Proof.
  unfold where_id, sql_eqZ. destruct bid as [z|]; [|discriminate].
  rewrite !Z.eqb_eq. congruence.
Qed.

Lemma where_id_user_same_key (bid uid : option Z) (x y : Book.t) :
  where_id_user bid uid x = true -> where_id_user bid uid y = true ->
  Book.id x = Book.id y.
Proof.
  unfold where_id_user. rewrite !andb_true_iff.
  intros [Hx _] [Hy _]. now apply where_id_same_key with (bid := bid).
Qed.

(** X15.  With unique identifiers, an update or a delete of either server
    writes at most one row, whatever its parameters. *)
Theorem at_most_one_row_written
    (env : Env) (d : Db) (params : list jsval) (k : nat) (d' : Db) :
  wf_db d ->
  (exec env UpdateBookOfUser params d = Some (k, d') -> (k <= 1)%nat) /\
  (exec env DeleteBookOfUser params d = Some (k, d') -> (k <= 1)%nat) /\
  (exec env UpdateBook params d = Some (k, d') -> (k <= 1)%nat) /\
  (exec env DeleteBook params d = Some (k, d') -> (k <= 1)%nat).
Proof.
  intros (Hnd & _).
  assert (Hu : forall bid uid,
             (count (where_id_user bid uid) (books d) <= 1)%nat).
  { intros bid uid. unfold count.
    apply filter_at_most_one with (key := Book.id); [exact Hnd|].
    apply where_id_user_same_key. }
  assert (Hi : forall bid, (count (where_id bid) (books d) <= 1)%nat).
  { intros bid. unfold count.
    apply filter_at_most_one with (key := Book.id); [exact Hnd|].
    apply where_id_same_key. }
  repeat split; intros H; simpl in H;
    repeat (destruct params as [|? params]; try discriminate);
    unfold obind, update_books, delete_books in H;
    repeat match type of H with
           | context [int_param env ?v] =>
               destruct (int_param env v); [|discriminate]
           | context [date_param env ?v] =>
               destruct (date_param env v); [|discriminate]
           end;
    try (destruct (text_param env j); [|destruct (existsb _ _)]);
    try discriminate; inversion H; subst; auto; lia.
Qed.

Lemma at_most_one_row_written_witness :
  exec test_env DeleteBookOfUser [JStr "2"; JNum (inject_Z 1)]
       (db alices_shelf)
  = Some (1%nat, with_books (db alices_shelf) [banana; cherry; dune]) /\
  (1 <= 1)%nat.
Proof.
  split; [reflexivity|].
  apply (proj1 (proj2 (@at_most_one_row_written test_env (db alices_shelf)
                         [JStr "2"; JNum (inject_Z 1)] 1%nat
                         (with_books (db alices_shelf) [banana; cherry; dune])
                         alices_shelf_wf))).
  reflexivity.
Defined.

(** ** When a book route writes *)

Lemma untouched_no_row_written (w w' : World) :
  untouched w w' -> no_row_written w w'.
Proof.
  intros [Hd Hs]. unfold no_row_written. rewrite Hd.
  repeat split; try lia. exact Hs.
Qed.

Lemma refused_no_row_written (env : Env) (R : Type) (s : Stmt R)
    (params : list jsval) (w : World) (tr : list Effect) :
  match s with
  | InsertUser => False
  | _ => True
  end ->
  no_row_written w (mkWorld (refused env s params (db w)) (session w)
                            (entropy w) tr).
Proof.
  intros Hs. unfold no_row_written. cbn [db session].
  destruct (refused_rows env s params (db w)) as (Eb & Eu & Lb & _).
  rewrite (refused_books_only env s params (db w) Hs).
  repeat split; try assumption; lia.
Qed.

(** X16.  A gated route that answers with anything but the redirect home (the
    login redirect, a rendered page, "Book not found", a server error)
    has written no row to either table and has left the session alone.
    What a refused request may leave behind is one value drawn from the
    identifier sequence of [books]: a create without a title, its rating
    and date being acceptable, is answered with the server error, adds no
    row, and has used up the identifier the row would have had. *)
Theorem only_the_redirect_home_writes :
  (forall (env : Env) (r : AuthServer.Route) (req : Request) (w : World),
      AuthServer.guarded r = true ->
      fst (AuthServer.route env r req w) <> Ok (Redirect "/") ->
      no_row_written w (snd (AuthServer.route env r req w))) /\
  (forall (env : Env) (req : Request) (w : World) (u : SessionUser)
          (r f : option Z),
      user req = Some u ->
      text_param env (field (body req) "title") = None ->
      int_param env (js_or (field (body req) "rating") JNull) = Some r ->
      date_param env (js_or (field (body req) "finished_on") JNull) = Some f ->
      let run := AuthServer.route env AuthServer.POST_books req w in
      fst run = Ok (Send 500 "Error creating book") /\
      books (db (snd run)) = books (db w) /\
      books_id_seq (db (snd run)) = books_id_seq (db w) + 1).
Proof.
  split.
  - intros env r req w Hg.
    destruct (user req) as [u|] eqn:Hu.
    2:{ rewrite (guarded_route_anonymous env r req w Hg Hu). intros _.
        apply untouched_no_row_written. split; reflexivity. }
    destruct r; try discriminate Hg; intros Hres;
      try (apply untouched_no_row_written; now apply get_route_untouched);
      rewrite (logged_in_route env _ req w Hu) in *;
      cbn [AuthServer.handler] in *.
    + rewrite (@auth_create_run env req w u Hu) in *. cbv zeta in *.
      destruct (exec env InsertBookOfUser _ (db w)) as [[k d']|];
        [now elim Hres|].
      cbn [snd]. now apply refused_no_row_written.
    + rewrite (@auth_update_run env req w u Hu id) in *. cbv zeta in *.
      destruct (exec env UpdateBookOfUser _ (db w)) as [[k d']|];
        [now elim Hres|].
      cbn [snd]. apply untouched_no_row_written. split; reflexivity.
    + rewrite (@auth_delete_run env req w u Hu id) in *.
      destruct (exec env DeleteBookOfUser _ (db w)) as [[k d']|];
        [now elim Hres|].
      cbn [snd]. apply untouched_no_row_written. split; reflexivity.
  - intros env req w u r f Hu Ht Hr Hf run. subst run.
    rewrite (logged_in_route env _ req w Hu). cbn [AuthServer.handler].
    rewrite (@auth_create_run env req w u Hu). cbv zeta.
    unfold exec, refused. rewrite int_param_number. cbn [obind].
    unfold insert_book, book_params_bind, obind. rewrite Hr, Hf, Ht.
    repeat split.
Qed.

Lemma only_the_redirect_home_writes_witness :
  let run :=
    AuthServer.route test_env AuthServer.POST_books
      (mkRequest (Some alice) [] [("author", JStr "Jane Austen")])
      alices_shelf in
  fst run = Ok (Send 500 "Error creating book") /\
  books (db (snd run)) = [banana; Apple; cherry; dune] /\
  books_id_seq (db (snd run)) = 6 /\
  no_row_written alices_shelf (snd run).
Proof.
  intros run.
  destruct (proj2 only_the_redirect_home_writes test_env
              (mkRequest (Some alice) [] [("author", JStr "Jane Austen")])
              alices_shelf alice None None eq_refl eq_refl eq_refl eq_refl)
    as (H1 & H2 & H3).
  split; [exact H1|]. split; [exact H2|]. split; [exact H3|].
  apply (proj1 only_the_redirect_home_writes test_env AuthServer.POST_books
           (mkRequest (Some alice) [] [("author", JStr "Jane Austen")])
           alices_shelf eq_refl).
  vm_compute. discriminate.
Defined.

Lemma app_keeps_wf_witness :
  wf_db (db (snd (AuthServer.app test_env AuthServer.POST_books []
                    (book_form "Emma" "Jane Austen" "9780141439587" "4"
                               "reread" "20240131")
                    alices_shelf))).
Proof.
  apply (@app_keeps_wf test_env AuthServer.POST_books []
           (book_form "Emma" "Jane Austen" "9780141439587" "4" "reread"
                      "20240131")
           alices_shelf alices_shelf_wf).
Defined.

(** ** The listing of src/index.js *)

(** X18.  [GET /] of [src/index.js] shows the rows of every owner: the page
    holds every row of the table, each once, whoever owns it, and the
    request writes nothing.  With the sort key [rating] the page is in the
    rating ordering of the specification, and with any key other than
    [rating] and [title] (or none) it is in the recent ordering. *)
Theorem index_js_lists_every_book
    (env : Env) (req : Request) (w : World) :
  let sort := js_or (query_field req "sort") (JStr "recent") in
  exists bs,
    fst (IndexJs.get_root env req w) = Ok (Some (Render (IndexEjs bs sort))) /\
    Permutation (books (db w)) bs /\
    (forall b, In b (books (db w)) -> In b bs) /\
    (query_field req "sort" = JStr "rating" ->
     StronglySorted rating_order bs) /\
    (query_field req "sort" <> JStr "rating" ->
     query_field req "sort" <> JStr "title" ->
     StronglySorted recent_order bs) /\
    db (snd (IndexJs.get_root env req w)) = db w.
Proof.
  intros sort.
  exists (order_by env (orderBy_of sort) (books (db w))).
  assert (Hall : filter (fun _ : Book.t => true) (books (db w)) = books (db w)).
  { induction (books (db w)) as [|x l IH]; [reflexivity|].
    cbn [filter]. now rewrite IH. }
  assert (Hrun : IndexJs.get_root env req w
                 = (Ok (Some (Render (IndexEjs
                                        (order_by env (orderBy_of sort)
                                                  (books (db w)))
                                        sort))),
                    emit (EQuery (sql (SelectBooks (orderBy_of sort))) []) w)).
  { unfold IndexJs.get_root, try_catch, bind, db_query, exec, select_books.
    fold sort. rewrite Hall. reflexivity. }
  rewrite Hrun. cbn [fst snd].
  split; [reflexivity|]. split; [apply order_by_perm|].
  split; [|split; [|split; [|reflexivity]]].
  - intros b Hb. eapply Permutation_in; [apply order_by_perm|exact Hb].
  - intros Hs. subst sort. rewrite Hs.
    change (orderBy_of (js_or (JStr "rating") (JStr "recent"))) with ByRating.
    eapply StronglySorted_impl;
      [|apply (@order_by_sorted env ByRating); discriminate].
    intros x y. apply rating_leb_order.
  - intros Hr Ht. subst sort. rewrite (orderBy_of_default Hr Ht).
    eapply StronglySorted_impl;
      [|apply (@order_by_sorted env ByRecent); discriminate].
    intros x y. apply recent_leb_order.
Qed.

Lemma index_js_lists_every_book_witness :
  exists bs,
    fst (IndexJs.get_root test_env (mkRequest None (sort_query "rating") [])
           alices_shelf)
    = Ok (Some (Render (IndexEjs bs (JStr "rating")))) /\
    Permutation [banana; Apple; cherry; dune] bs /\
    StronglySorted rating_order bs.
Proof.
  destruct (@index_js_lists_every_book test_env
              (mkRequest None (sort_query "rating") []) alices_shelf)
    as (bs & Hrun & Hperm & _ & Hrating & _).
  exists bs. split; [exact Hrun|]. split; [exact Hperm|].
  apply Hrating. reflexivity.
Defined.

(** ** The cover endpoint *)

(** X19.  [GET /api/cover/:isbn] always answers 200 with the ISBN echoed and a
    [cover_url] that is never empty or null, whatever Open Library does,
    and it touches neither the tables nor the session. *)
Theorem cover_endpoint_always_has_an_image
    (env : Env) (isbn : string) (w : World) :
  exists url w',
    get_api_cover env isbn w
    = (Ok (SendJson 200 [("isbn", JStr isbn); ("cover_url", url)]), w') /\
    truthy url = true /\
    db w' = db w /\
    session w' = session w.
Proof.
  assert (Hfetch : exists v w', fetchCoverUrl env isbn w = (Ok v, w')).
  { destruct (String.eqb_spec isbn EmptyString) as [->|Hne].
    - do 2 eexists. apply fetchCoverUrl_empty.
    - do 2 eexists. apply (fetchCoverUrl_run env w Hne). }
  destruct Hfetch as (v & w' & Hf).
  destruct (get_api_cover_untouched env isbn w) as [Hd Hs].
  rewrite (get_api_cover_run env isbn w Hf) in *. cbn [snd] in *.
  do 2 eexists. split; [reflexivity|].
  split; [|split; assumption].
  destruct (truthy v) eqn:Hv; [exact Hv|reflexivity].
Qed.

(** ** src/index.js: create, read back, delete *)

Section IndexJsRoundTrip.
Variable env : Env.
Variables (d : Db) (new : Book.t).
Hypothesis Hwf : wf_db d.
Hypothesis Hnew : Book.id new = books_id_seq d.

Lemma fresh_id_selects_nothing :
  filter (where_id (Some (books_id_seq d))) (books d) = [].
Proof using Hwf.
  destruct Hwf as (_ & Hlt & _).
  apply filter_nil_iff. intros x Hx. specialize (Hlt x Hx).
  unfold where_id, sql_eqZ. apply Z.eqb_neq. lia.
Qed.

Lemma fresh_row_selected :
  filter (where_id (Some (books_id_seq d))) (books d ++ [new]) = [new].
Proof using Hwf Hnew.
  rewrite filter_app, fresh_id_selects_nothing. cbn [filter app].
  unfold where_id, sql_eqZ. now rewrite Hnew, Z.eqb_refl.
Qed.

Lemma fresh_row_deleted :
  filter (fun x => negb (where_id (Some (books_id_seq d)) x))
         (books d ++ [new]) = books d.
Proof using Hwf Hnew.
  rewrite filter_app. cbn [filter].
  unfold where_id at 2, sql_eqZ. rewrite Hnew, Z.eqb_refl. cbn [negb].
  rewrite app_nil_r. apply filter_out_none.
  apply filter_nil_iff. apply fresh_id_selects_nothing.
Qed.

End IndexJsRoundTrip.

(** X20.  On [src/index.js] an accepted create appends one row without owner
    under the next identifier; the edit form for that identifier serves
    it to any caller; deleting it brings the [books] table back to what it
    was before the create, and the edit form then answers "Book not
    found". *)
Theorem index_js_create_read_delete
    (env : Env) (req : Request) (w : World) (t : string) (r f : option Z)
    (id : string) :
  wf_db (db w) ->
  text_param env (field (body req) "title") = Some t ->
  int_param env (js_or (field (body req) "rating") JNull) = Some r ->
  date_param env (js_or (field (body req) "finished_on") JNull) = Some f ->
  int4in env id = Some (books_id_seq (db w)) ->
  let a := text_param env (js_or (field (body req) "author") JNull) in
  let i := text_param env (js_or (field (body req) "isbn") JNull) in
  let n := text_param env (js_or (field (body req) "notes") JNull) in
  let new := Book.mk (books_id_seq (db w)) None t a i None r f n in
  let w1 := snd (IndexJs.post_books env req w) in
  let w2 := snd (IndexJs.post_books_id_delete env id req w1) in
  fst (IndexJs.post_books env req w) = Ok (Redirect "/") /\
  books (db w1) = (books (db w) ++ [new])%list /\
  (forall again : Request,
      fst (IndexJs.get_books_id_edit env id again w1)
      = Ok (Render (BookFormEjs (Some new) ("/books/" ++ id ++ "/edit")
                                "POST" "Edit book"))) /\
  fst (IndexJs.post_books_id_delete env id req w1) = Ok (Redirect "/") /\
  books (db w2) = books (db w) /\
  (forall again : Request,
      fst (IndexJs.get_books_id_edit env id again w2)
      = Ok (Send 404 "Book not found")).
Proof.
  intros Hwf Ht Hr Hf Hid a i n new w1 w2.
  assert (Hsel := @fresh_row_selected (db w) new Hwf eq_refl).
  assert (Hdel := @fresh_row_deleted (db w) new Hwf eq_refl).
  assert (Hnone := @fresh_id_selects_nothing (db w) Hwf).
  assert (Hrun1 : exists tr,
             IndexJs.post_books env req w
             = (Ok (Redirect "/"),
                mkWorld (mkDb (users (db w)) (books (db w) ++ [new])
                              (users_id_seq (db w))
                              (books_id_seq (db w) + 1))
                        (session w) (entropy w) tr)).
  { rewrite (index_create_run env req w). cbv zeta.
    unfold exec, insert_book, obind. rewrite Hr, Hf, Ht.
    eexists. reflexivity. }
  destruct Hrun1 as [tr1 Hrun1].
  subst w2 w1. rewrite Hrun1. cbn [fst snd].
  assert (Hrun2 : exists tr,
             IndexJs.post_books_id_delete env id req
               (mkWorld (mkDb (users (db w)) (books (db w) ++ [new])
                              (users_id_seq (db w))
                              (books_id_seq (db w) + 1))
                        (session w) (entropy w) tr1)
             = (Ok (Redirect "/"),
                mkWorld (mkDb (users (db w)) (books (db w))
                              (users_id_seq (db w))
                              (books_id_seq (db w) + 1))
                        (session w) (entropy w) tr)).
  { unfold IndexJs.post_books_id_delete, try_catch, bind, db_query, exec.
    rewrite int_param_route, Hid. cbn [option_map obind db].
    unfold delete_books, with_books. cbn [books users users_id_seq
                                            books_id_seq].
    rewrite Hdel. eexists. reflexivity. }
  destruct Hrun2 as [tr2 Hrun2]. rewrite Hrun2. cbn [fst snd db books].
  split; [reflexivity|]. split; [reflexivity|].
  split; [|split; [reflexivity|split; [reflexivity|]]].
  - intros again.
    unfold IndexJs.get_books_id_edit, try_catch, bind, db_query, exec.
    rewrite int_param_route, Hid. cbn [option_map obind db].
    unfold select_books. cbn [books]. now rewrite Hsel.
  - intros again.
    unfold IndexJs.get_books_id_edit, try_catch, bind, db_query, exec.
    rewrite int_param_route, Hid. cbn [option_map obind db].
    unfold select_books. cbn [books]. now rewrite Hnone.
Qed.

Lemma index_js_create_read_delete_witness :
  let req :=
    mkRequest None []
      (book_form "Emma" "Jane Austen" "9780141439587" "4" "reread"
                 "20240131") in
  let w1 := snd (IndexJs.post_books test_env req alices_shelf) in
  let w2 := snd (IndexJs.post_books_id_delete test_env "5" req w1) in
  books (db w1)
  = [banana; Apple; cherry; dune;
     Book.mk 5 None "Emma" (Some "Jane Austen") (Some "9780141439587") None
             (Some 4) (Some 20240131) (Some "reread")] /\
  books (db w2) = books (db alices_shelf).
Proof.
  intros req w1 w2.
  destruct (@index_js_create_read_delete test_env req alices_shelf "Emma"
              (Some 4) (Some 20240131) "5" alices_shelf_wf eq_refl eq_refl
              eq_refl eq_refl) as (_ & H1 & _ & _ & H2 & _).
  split; [exact H1|exact H2].
Defined.

Lemma keeps_wf_index_js_witness :
  wf_db (db (snd (IndexJs.post_books_id_delete test_env "1"
                    (mkRequest None [] []) alices_shelf))).
Proof.
  apply (proj2 (proj2 (proj2 (@keeps_wf_index_js test_env "1"
                                (mkRequest None [] []))))
           alices_shelf alices_shelf_wf).
Defined.
